(** * Context-compacting coding agent: message store, budget estimate,
      compaction and the retry loop.

    A shallow embedding of the TypeScript sources
      - [session.ts]     (message store on three SQLite tables),
      - [compaction.ts]  (both revisions: the character heuristic and the
                          [keepLast] summarizer),
      - [docker.ts]      (the sandbox handle row),
      - [index.ts]       (the per-user-turn attempt loop),
    followed by the properties established about them.

    Conventions.  JavaScript numbers that hold counts and indices are [Z];
    strings are [string]; arrays are [list]; SQL tables are lists of rows
    in insertion order.  An awaited call to the remote model is a value of
    [Settled]: fulfilled with a response or rejected with the thrown
    value.  [console.log] output is not part of the model. *)

From Stdlib Require Import Bool List ZArith Lia Ascii String.
From Stdlib Require Import QArith Qround.
From Stdlib Require Import Sorting.Sorted.
From Stdlib Require DecimalString.
Import ListNotations.

Local Open Scope string_scope.
Local Open Scope list_scope.
Local Open Scope Z_scope.

(* ===================================================================== *)
(** * JavaScript primitives used by the sources                          *)
(* ===================================================================== *)

Module Js.

(** The line feed written [\n] in the sources. *)
Definition LF : string := String (ascii_of_nat 10) EmptyString.

(** [String.prototype.toLowerCase] and [toUpperCase] on the ASCII range;
    other code units are left as they are.  The built-ins also change
    letters outside ASCII, so these two are the built-ins on strings whose
    characters are all ASCII. *)
Definition lowerChar (c : ascii) : ascii :=
  let n := nat_of_ascii c in
  if ((65 <=? n) && (n <=? 90))%nat then ascii_of_nat (n + 32) else c.

Definition upperChar (c : ascii) : ascii :=
  let n := nat_of_ascii c in
  if ((97 <=? n) && (n <=? 122))%nat then ascii_of_nat (n - 32) else c.

Fixpoint mapString (f : ascii -> ascii) (s : string) : string :=
  match s with
  | EmptyString => EmptyString
  | String c s' => String (f c) (mapString f s')
  end.

Definition toLowerCase : string -> string := mapString lowerChar.
Definition toUpperCase : string -> string := mapString upperChar.

(** [s.startsWith(p)] *)
Fixpoint startsWith (s p : string) : bool :=
  match p, s with
  | EmptyString, _ => true
  | String _ _, EmptyString => false
  | String a p', String b s' => Ascii.eqb a b && startsWith s' p'
  end.

(** [s.includes(sub)]: [sub] occurs at some position of [s]. *)
Fixpoint includes (s sub : string) : bool :=
  startsWith s sub ||
  match s with
  | EmptyString => false
  | String _ s' => includes s' sub
  end.

(** White space removed by [trim] (ASCII part: TAB, LF, VT, FF, CR, SP).
    The built-in also removes white space outside ASCII (U+00A0, U+FEFF,
    U+2028, ...), so [trim] below is the built-in on strings whose
    characters are all ASCII. *)
Definition isSpace (c : ascii) : bool :=
  let n := nat_of_ascii c in
  (((9 <=? n) && (n <=? 13)) || (n =? 32))%nat.

Fixpoint trimStart (s : string) : string :=
  match s with
  | EmptyString => EmptyString
  | String c s' => if isSpace c then trimStart s' else s
  end.

(** [trimEnd] keeps a character when it is not a space or when something
    survives to its right. *)
Fixpoint trimEnd (s : string) : string :=
  match s with
  | EmptyString => EmptyString
  | String c s' =>
      match trimEnd s' with
      | EmptyString => if isSpace c then EmptyString else String c EmptyString
      | r => String c r
      end
  end.

Definition trim (s : string) : string := trimEnd (trimStart s).

(** Truthiness of a string: non-empty. *)
Definition truthy (s : string) : bool :=
  match s with EmptyString => false | String _ _ => true end.

(** [s.split(" ")]: always at least one piece. *)
Fixpoint splitOn (sep : ascii) (s : string) : list string :=
  match s with
  | EmptyString => [EmptyString]
  | String c s' =>
      if Ascii.eqb c sep then EmptyString :: splitOn sep s'
      else match splitOn sep s' with
           | [] => [String c EmptyString]
           | piece :: rest => String c piece :: rest
           end
  end.

(** [pieces.join(sep)] *)
Fixpoint join (sep : string) (pieces : list string) : string :=
  match pieces with
  | [] => EmptyString
  | [p] => p
  | p :: rest => p ++ sep ++ join sep rest
  end.

(** A number of a template literal, for a non-negative integer. *)
Definition showNat (n : nat) : string :=
  DecimalString.NilEmpty.string_of_uint (Nat.to_uint n).

(** Relative index of [Array.prototype.slice]: a negative index counts
    from the end, and both are clamped to [0 .. len]. *)
Definition relIndex (len i : Z) : Z :=
  if i <? 0 then Z.max (len + i) 0 else Z.min i len.

(** [arr.slice(start, end)]; [None] is an omitted [end]. *)
Definition slice {A : Type} (l : list A) (start : Z) (stop : option Z) : list A :=
  let len := Z.of_nat (List.length l) in
  let k := relIndex len start in
  let final := match stop with
               | None => len
               | Some e => relIndex len e
               end in
  firstn (Z.to_nat (final - k)) (skipn (Z.to_nat k) l).

(** A thrown or caught value of type [any]: [null]/[undefined], or an
    object whose [message] property may be missing. *)
Inductive any : Type :=
| Nullish
| ErrorObject (message : option string).

(** Outcome of awaiting a promise. *)
Inductive Settled (A : Type) : Type :=
| Fulfilled (value : A)
| Rejected (reason : any).

Arguments Fulfilled {A} value.
Arguments Rejected {A} reason.

(** [error.message] inside a template literal. *)
Definition messageOrUndefined (message : option string) : string :=
  match message with
  | Some m => m
  | None => "undefined"
  end.

(** A caught value inside a template literal. *)
Definition describe (e : any) : string :=
  match e with
  | Nullish => "undefined"
  | ErrorObject None => "Error"
  | ErrorObject (Some m) => if truthy m then "Error: " ++ m else "Error"
  end.

End Js.

(* ===================================================================== *)
(** * Turns and the remote model                                          *)
(* ===================================================================== *)

(** [role: "user" | "assistant" | "system"] *)
Inductive Role : Type := user | assistant | system.

Definition Role_eqb (a b : Role) : bool :=
  match a, b with
  | user, user | assistant, assistant | system, system => true
  | _, _ => false
  end.

(** The string a role is at run time. *)
Definition roleText (r : Role) : string :=
  match r with
  | user => "user"
  | assistant => "assistant"
  | system => "system"
  end.

(** [interface CoreMessage { role; content: string }] *)
Record CoreMessage : Type := mkCore { role : Role; content : string }.

(** Content blocks of a model response. *)
Inductive ContentBlock : Type :=
| TextBlock (text : string)
| ToolUseBlock (id name input : string).

(** The part of [client.messages.create]'s parameters the compactor sets. *)
Record CreateParams : Type := mkParams {
  model : string;
  max_tokens : Z;
  messages : list CoreMessage
}.

(** The part of the response that the sources read. *)
Record Response : Type := mkResponse {
  blocks : list ContentBlock;
  stop_reason : string;
  input_tokens : Z;
  output_tokens : Z
}.

(** A computation that returns at once or awaits one request to the model
    and resumes with however the request settled. *)
Inductive Async (A : Type) : Type :=
| Return (value : A)
| Await (request : CreateParams) (resume : Js.Settled Response -> A).

Arguments Return {A} value.
Arguments Await {A} request resume.

(** Running a computation against a given model. *)
Definition run {A : Type} (create : CreateParams -> Js.Settled Response)
    (p : Async A) : A :=
  match p with
  | Return v => v
  | Await request resume => resume (create request)
  end.

(** Whether the computation reached the model. *)
Definition awaited {A : Type} (p : Async A) : bool :=
  match p with
  | Return _ => false
  | Await _ _ => true
  end.

(* ===================================================================== *)
(** * compaction.ts, revision with [keepLast]                             *)
(* ===================================================================== *)

Module Compaction.

(** [export const COMPACT_THRESHOLD = 150_000] *)
Definition COMPACT_THRESHOLD : Z := 150000.

(** [shouldCompact(inputTokens)] *)
Definition shouldCompact (inputTokens : Z) : bool :=
  COMPACT_THRESHOLD <? inputTokens.

(** [String(error?.message || "")]: a missing or empty message is [""]. *)
Definition messageText (error : Js.any) : string :=
  match error with
  | Js.Nullish => ""
  | Js.ErrorObject None => ""
  | Js.ErrorObject (Some m) => m
  end.

(** [isContextOverflowError(error)] *)
Definition isContextOverflowError (error : Js.any) : bool :=
  let msg := Js.toLowerCase (messageText error) in
  Js.includes msg "context" || Js.includes msg "token" || Js.includes msg "too long".

(** [isContextOverflowError(error)] with the engine's
    [String.prototype.toLowerCase] as a parameter: the built-in also maps
    letters outside ASCII (the Kelvin sign to "k", for one), and its table
    is not part of the sources.  [isContextOverflowError] above is this
    function at [Js.toLowerCase]. *)
Definition isContextOverflowErrorWith (toLowerCase : string -> string)
    (error : Js.any) : bool :=
  let msg := toLowerCase (messageText error) in
  Js.includes msg "context" || Js.includes msg "token" || Js.includes msg "too long".

Definition isSystem (m : CoreMessage) : bool := Role_eqb (role m) system.
Definition notSystem (m : CoreMessage) : bool := negb (Role_eqb (role m) system).

(** [`${m.role.toUpperCase()}: ${m.content}`] *)
Definition renderTurn (m : CoreMessage) : string :=
  (Js.toUpperCase (roleText (role m)) ++ ": " ++ content m)%string.

(** The summarization request built from the rendered old turns. *)
Definition summaryRequest (oldText : string) : CreateParams :=
  {| model := "claude-sonnet-4-20250514";
     max_tokens := 2048;
     messages :=
       [ {| role := user;
            content :=
              ("Summarize this conversation concisely, keeping key decisions, code changes, and context:"
                 ++ Js.LF ++ Js.LF ++ oldText)%string |} ] |}.

(** [response.content.filter(text).map(b => b.text).join("")] *)
Fixpoint textOf (bs : list ContentBlock) : string :=
  match bs with
  | [] => ""
  | TextBlock t :: rest => (t ++ textOf rest)%string
  | ToolUseBlock _ _ _ :: rest => textOf rest
  end.

(** The synthetic turn of the success path. *)
Definition summaryTurn (discarded : nat) (summary : string) : CoreMessage :=
  {| role := assistant;
     content := ("[Summary of " ++ Js.showNat discarded ++ " previous messages]"
                   ++ Js.LF ++ summary)%string |}.

(** [compactMessages(messages, keepLast = 6)] *)
Definition compactMessages (msgs : list CoreMessage) (keepLast : Z)
    : Async (list CoreMessage) :=
  let systemMsgs := filter isSystem msgs in
  let nonSystemMsgs := filter notSystem msgs in
  let recentMsgs := Js.slice nonSystemMsgs (- keepLast) None in
  let oldMsgs := Js.slice nonSystemMsgs 0 (Some (- keepLast)) in
  match oldMsgs with
  | [] => Return msgs
  | _ :: _ =>
      let oldText := Js.join (Js.LF ++ Js.LF)%string (map renderTurn oldMsgs) in
      Await (summaryRequest oldText)
        (fun settled =>
           match settled with
           | Js.Fulfilled response =>
               systemMsgs
                 ++ [summaryTurn (List.length oldMsgs) (textOf (blocks response))]
                 ++ recentMsgs
           | Js.Rejected _ => systemMsgs ++ recentMsgs
           end)
  end.

(** The default of the second parameter. *)
Definition keepLastDefault : Z := 6.

End Compaction.

(* ===================================================================== *)
(** * compaction.ts, revision with the character heuristic                *)
(* ===================================================================== *)

Module Heuristic.

Definition CONTEXT_LIMIT_TOKENS : Z := 150000.

(** [const ESTIMATED_TOKENS_PER_CHAR = 0.25] *)
Definition ESTIMATED_TOKENS_PER_CHAR : Q := 25 # 100.

(** [messages.reduce((sum, msg) => sum + content.length, 0)] *)
Definition totalChars (msgs : list CoreMessage) : Z :=
  fold_left (fun sum msg => sum + Z.of_nat (String.length (content msg))) msgs 0.

(** [Math.ceil(totalChars * ESTIMATED_TOKENS_PER_CHAR)].  The product of an
    integer below 2^53 with 0.25 is exact in double precision, so the
    rational product is the value the code computes. *)
Definition estimateTokens (msgs : list CoreMessage) : Z :=
  Qceiling (inject_Z (totalChars msgs) * ESTIMATED_TOKENS_PER_CHAR).

(** [shouldCompact(messages)] *)
Definition shouldCompact (msgs : list CoreMessage) : bool :=
  CONTEXT_LIMIT_TOKENS <? estimateTokens msgs.

(** The array elements are distinct objects, so [===] on two of them
    compares their positions. *)
Definition withIndex {A : Type} (l : list A) : list (nat * A) :=
  combine (seq 0 (List.length l)) l.

Definition sameObject (a : nat * CoreMessage) (b : nat * CoreMessage) : bool :=
  (fst a =? fst b)%nat.

(** The summarization request of this revision. *)
Definition summaryRequest (conversationText : string) : CreateParams :=
  {| model := "claude-sonnet-4-20250514";
     max_tokens := 4096;
     messages :=
       [ {| role := user;
            content :=
              ("Please provide a concise summary of the following conversation history, preserving all important decisions, code changes, and context that would be needed to continue the work:"
                 ++ Js.LF ++ Js.LF ++ conversationText ++ Js.LF ++ Js.LF
                 ++ "Provide a summary that captures:" ++ Js.LF
                 ++ "1. The main goals and objectives" ++ Js.LF
                 ++ "2. Key decisions made" ++ Js.LF
                 ++ "3. Important code changes or implementations" ++ Js.LF
                 ++ "4. Any errors encountered and how they were resolved" ++ Js.LF
                 ++ "5. Current state of the project" ++ Js.LF ++ Js.LF
                 ++ "Format the summary as a clear, structured narrative.")%string |} ] |}.

(** [compactMessages(messages)] of this revision: no [keepLast]; the last
    ten turns of any role and the first user turn are kept, and a failed
    request gives the input back. *)
Definition compactMessages (msgs : list CoreMessage) : Async (list CoreMessage) :=
  let objects := withIndex msgs in
  let systemMessages := filter (fun m => Role_eqb (role m) system) msgs in
  let firstUserMessage := find (fun o => Role_eqb (role (snd o)) user) objects in
  let recentMessages := Js.slice objects (-10) None in
  let messagesToSummarize :=
    filter (fun o =>
              negb (Role_eqb (role (snd o)) system)
              && negb (match firstUserMessage with
                       | Some first => sameObject o first
                       | None => false
                       end)
              && negb (existsb (sameObject o) recentMessages))
           objects in
  match messagesToSummarize with
  | [] => Return msgs
  | _ :: _ =>
      let conversationText :=
        Js.join (Js.LF ++ Js.LF)%string
          (map (fun o => (roleText (role (snd o)) ++ ": " ++ content (snd o))%string)
               messagesToSummarize) in
      Await (summaryRequest conversationText)
        (fun settled =>
           match settled with
           | Js.Fulfilled response =>
               systemMessages
                 ++ [ {| role := assistant;
                         content := ("[Previous conversation summarized]: "
                                       ++ String.concat ""
                                            (flat_map (fun b => match b with
                                                                | TextBlock t => [t]
                                                                | ToolUseBlock _ _ _ => []
                                                                end)
                                                      (blocks response)))%string |} ]
                 ++ match firstUserMessage with
                    | Some first => [snd first]
                    | None => []
                    end
                 ++ map snd recentMessages
           | Js.Rejected _ => msgs
           end)
  end.

End Heuristic.

(* ===================================================================== *)
(** * db/schema.ts and db/index.ts                                        *)
(* ===================================================================== *)

Module Schema.

(** Timestamps are the integers SQLite stores. *)
Record SessionRow : Type := mkSession {
  session_id : string;
  session_createdAt : Z;
  session_updatedAt : Z
}.

Record MessageRow : Type := mkMessage {
  message_id : string;
  message_sessionId : string;
  message_role : Role;
  message_content : string;
  message_createdAt : Z;
  message_sequence : Z
}.

Record ContainerRow : Type := mkContainer {
  container_id : string;
  container_containerId : string;
  container_sessionId : string;
  container_createdAt : Z
}.

(** The database: each table is the list of its rows in insertion order. *)
Record Db : Type := mkDb {
  sessions : list SessionRow;
  messages : list MessageRow;
  dockerContainers : list ContainerRow
}.

(** [initDb()] on a fresh file: three empty tables. *)
Definition initDb : Db :=
  {| sessions := []; messages := []; dockerContainers := [] |}.

(** [ORDER BY]: insertion sort, stable on equal keys. *)
Fixpoint insertBy {A : Type} (le : A -> A -> bool) (x : A) (l : list A) : list A :=
  match l with
  | [] => [x]
  | y :: l' => if le x y then x :: l else y :: insertBy le x l'
  end.

Fixpoint orderBy {A : Type} (le : A -> A -> bool) (l : list A) : list A :=
  match l with
  | [] => []
  | x :: l' => insertBy le x (orderBy le l')
  end.

(** [asc(messages.sequence)] and [desc(messages.sequence)] *)
Definition ascSequence (a b : MessageRow) : bool :=
  message_sequence a <=? message_sequence b.

Definition descSequence (a b : MessageRow) : bool :=
  message_sequence b <=? message_sequence a.

End Schema.

(* ===================================================================== *)
(** * session.ts                                                          *)
(* ===================================================================== *)

Module Session.
Import Schema.

(** [eq(messages.sessionId, sessionId)] *)
Definition ofSession (sessionId : string) (row : MessageRow) : bool :=
  String.eqb (message_sessionId row) sessionId.

(** [getOrCreateSession(sessionId?)]; [uuid] is what [crypto.randomUUID()]
    returns and [createdAt], [updatedAt] what the two [new Date()] do. *)
Definition getOrCreateSession (db : Db) (sessionId : option string)
    (uuid : string) (createdAt updatedAt : Z) : Db * string :=
  let fresh :=
    ({| sessions := sessions db
                    ++ [ {| session_id := uuid;
                            session_createdAt := createdAt;
                            session_updatedAt := updatedAt |} ];
        messages := messages db;
        dockerContainers := dockerContainers db |}, uuid) in
  match sessionId with
  | Some id =>
      if Js.truthy id then
        let existing :=
          firstn 1 (filter (fun r => String.eqb (session_id r) id) (sessions db)) in
        if (0 <? Z.of_nat (List.length existing)) then (db, id) else fresh
      else fresh
  | None => fresh
  end.

(** [(maxMessage[0]?.sequence ?? -1) + 1] over
    [select sequence where sessionId order by desc(sequence) limit 1].
    The addition is the exact one; the code adds in double precision,
    which is exact as long as the stored sequence numbers are below 2^53
    in absolute value. *)
Definition nextSequence (db : Db) (sessionId : string) : Z :=
  let maxMessage :=
    firstn 1 (orderBy descSequence (filter (ofSession sessionId) (messages db))) in
  match maxMessage with
  | [] => -1 + 1
  | top :: _ => message_sequence top + 1
  end.

(** [saveMessage(sessionId, role, content)] *)
Definition saveMessage (db : Db) (sessionId : string) (r : Role) (text : string)
    (uuid : string) (createdAt updatedAt : Z) : Db :=
  let row :=
    {| message_id := uuid;
       message_sessionId := sessionId;
       message_role := r;
       message_content := text;
       message_createdAt := createdAt;
       message_sequence := nextSequence db sessionId |} in
  {| sessions :=
       map (fun s =>
              if String.eqb (session_id s) sessionId
              then {| session_id := session_id s;
                      session_createdAt := session_createdAt s;
                      session_updatedAt := updatedAt |}
              else s)
           (sessions db);
     messages := messages db ++ [row];
     dockerContainers := dockerContainers db |}.

(** The rows [loadMessages] selects, in the order it selects them. *)
Definition selectMessages (db : Db) (sessionId : string) : list MessageRow :=
  orderBy ascSequence (filter (ofSession sessionId) (messages db)).

(** [loadMessages(sessionId)] *)
Definition loadMessages (db : Db) (sessionId : string) : list CoreMessage :=
  map (fun msg => {| role := message_role msg; content := message_content msg |})
      (selectMessages db sessionId).

(** [clearMessages(sessionId)] *)
Definition clearMessages (db : Db) (sessionId : string) : Db :=
  {| sessions := sessions db;
     messages := filter (fun row => negb (ofSession sessionId row)) (messages db);
     dockerContainers := dockerContainers db |}.

(** The [for] loop of [saveCompactedMessages] from index [i] on; [uuid i]
    and [createdAt i] are the values drawn for the [i]-th row. *)
Fixpoint insertCompacted (table : list MessageRow) (sessionId : string)
    (uuid : nat -> string) (createdAt : nat -> Z)
    (i : nat) (compacted : list CoreMessage) : list MessageRow :=
  match compacted with
  | [] => table
  | msg :: rest =>
      insertCompacted
        (table ++ [ {| message_id := uuid i;
                       message_sessionId := sessionId;
                       message_role := role msg;
                       message_content := content msg;
                       message_createdAt := createdAt i;
                       message_sequence := Z.of_nat i |} ])
        sessionId uuid createdAt (S i) rest
  end.

(** [saveCompactedMessages(sessionId, compactedMessages)] *)
Definition saveCompactedMessages (db : Db) (sessionId : string)
    (compacted : list CoreMessage)
    (uuid : nat -> string) (createdAt : nat -> Z) : Db :=
  let cleared := clearMessages db sessionId in
  {| sessions := sessions cleared;
     messages := insertCompacted (messages cleared) sessionId uuid createdAt 0 compacted;
     dockerContainers := dockerContainers cleared |}.

(** One call into the message store, with the values the runtime drew. *)
Inductive Op : Type :=
| OpGetOrCreate (sessionId : option string) (uuid : string) (createdAt updatedAt : Z)
| OpSave (sessionId : string) (r : Role) (text : string)
         (uuid : string) (createdAt updatedAt : Z)
| OpClear (sessionId : string)
| OpSaveCompacted (sessionId : string) (compacted : list CoreMessage)
                  (uuid : nat -> string) (createdAt : nat -> Z).

Definition apply (db : Db) (op : Op) : Db :=
  match op with
  | OpGetOrCreate sid uuid c u => fst (getOrCreateSession db sid uuid c u)
  | OpSave sid r text uuid c u => saveMessage db sid r text uuid c u
  | OpClear sid => clearMessages db sid
  | OpSaveCompacted sid compacted uuid c => saveCompactedMessages db sid compacted uuid c
  end.

(** Any sequence of calls, one after the other, from a given database. *)
Definition applyAll (db : Db) (ops : list Op) : Db := fold_left apply ops db.

End Session.

(* ===================================================================== *)
(** * docker.ts                                                           *)
(* ===================================================================== *)

Module Docker.
Import Schema.

Record ExecOutput : Type := mkOutput { stdout : string; stderr : string }.

(** How each [execAsync] call of [ensureDockerContainer] settles, by call
    site:
    - [psAll]:       [docker ps -a --filter name=... --format "{{.ID}} {{.Status}}"]
    - [start id]:    [docker start <id>]
    - [runNew]:      [docker run -d --name ... tail -f /dev/null]
    - [removeStale]: [docker rm -f ... 2>/dev/null || true]
    - [runAgain]:    the [docker run] of the recovery path. *)
Record Host : Type := mkHost {
  psAll : Js.Settled ExecOutput;
  start : string -> Js.Settled ExecOutput;
  runNew : Js.Settled ExecOutput;
  removeStale : Js.Settled ExecOutput;
  runAgain : Js.Settled ExecOutput
}.

(** [saveContainerInfo(sessionId, containerId)] *)
Definition saveContainerInfo (db : Db) (sessionId containerId : string)
    (uuid : string) (createdAt : Z) : Db :=
  let existing :=
    firstn 1 (filter (fun row => String.eqb (container_sessionId row) sessionId)
                     (dockerContainers db)) in
  if (List.length existing =? 0)%nat then
    {| sessions := sessions db;
       messages := messages db;
       dockerContainers :=
         dockerContainers db
         ++ [ {| container_id := uuid;
                 container_containerId := containerId;
                 container_sessionId := sessionId;
                 container_createdAt := createdAt |} ] |}
  else db.

(** The outer [catch]: remove a stale container and create once more. *)
Definition recreate (host : Host) (db : Db) (sessionId uuid : string) (createdAt : Z)
    : Db * Js.Settled string :=
  let failed (recreateError : Js.any) : Db * Js.Settled string :=
    (db, Js.Rejected
           (Js.ErrorObject
              (Some ("Failed to create Docker container: "
                       ++ Js.describe recreateError)%string))) in
  match removeStale host with
  | Js.Rejected e => failed e
  | Js.Fulfilled _ =>
      match runAgain host with
      | Js.Rejected e => failed e
      | Js.Fulfilled out =>
          let trimmedId := Js.trim (stdout out) in
          (saveContainerInfo db sessionId trimmedId uuid createdAt,
           Js.Fulfilled trimmedId)
      end
  end.

(** "Create new container", after the inner [try]. *)
Definition createNew (host : Host) (db : Db) (sessionId uuid : string) (createdAt : Z)
    : Db * Js.Settled string :=
  match runNew host with
  | Js.Rejected _ => recreate host db sessionId uuid createdAt
  | Js.Fulfilled out =>
      let trimmedId := Js.trim (stdout out) in
      (saveContainerInfo db sessionId trimmedId uuid createdAt, Js.Fulfilled trimmedId)
  end.

(** [ensureDockerContainer(sessionId)] *)
Definition ensureDockerContainer (host : Host) (db : Db) (sessionId uuid : string)
    (createdAt : Z) : Db * Js.Settled string :=
  match psAll host with
  | Js.Rejected _ => createNew host db sessionId uuid createdAt
  | Js.Fulfilled out =>
      if Js.truthy (Js.trim (stdout out)) then
        match Js.splitOn " " (Js.trim (stdout out)) with
        | [] => createNew host db sessionId uuid createdAt
        | containerId :: statusParts =>
            let status := Js.join " " statusParts in
            if Js.includes status "Up" then
              (saveContainerInfo db sessionId containerId uuid createdAt,
               Js.Fulfilled containerId)
            else
              match start host containerId with
              | Js.Rejected _ => createNew host db sessionId uuid createdAt
              | Js.Fulfilled _ =>
                  (saveContainerInfo db sessionId containerId uuid createdAt,
                   Js.Fulfilled containerId)
              end
        end
      else createNew host db sessionId uuid createdAt
  end.

(** [checkContainerHealth(containerId)], given how [docker ps --filter id=...]
    settles. *)
Definition checkContainerHealth (probe : Js.Settled ExecOutput) : bool :=
  match probe with
  | Js.Fulfilled out => (0 <? String.length (Js.trim (stdout out)))%nat
  | Js.Rejected _ => false
  end.

(** [execInContainer(containerId, command)], given how the [docker exec]
    settles ([inr message] is a rejection with an [Error] of that message)
    and how the [docker ps --filter id=...] of the [catch] settles. *)
Definition execInContainer (ran : ExecOutput + string) (probe : Js.Settled ExecOutput)
    : Js.Settled ExecOutput :=
  match ran with
  | inl out =>
      Js.Fulfilled {| stdout := Js.trim (stdout out); stderr := Js.trim (stderr out) |}
  | inr message =>
      match probe with
      | Js.Rejected _ =>
          Js.Rejected (Js.ErrorObject (Some "Container crashed or was removed"))
      | Js.Fulfilled _ => Js.Fulfilled {| stdout := ""; stderr := message |}
      end
  end.

End Docker.

(* ===================================================================== *)
(** * index.ts: the attempt loop of one user turn                         *)
(* ===================================================================== *)

Module Agent.

(** How a call of [chat(messages, containerId)] ends. *)
Inductive ChatOutcome : Type :=
| ChatOk (response : string) (inputTokens outputTokens : Z)
| ChatThrows (message : option string).

(** What the loop did, in order. *)
Inductive Event : Type :=
| ChatCalled (attempt : Z)
| Compacted (keepLast : Z)
| ReplacedAll (turns : list CoreMessage)
| Saved (r : Role) (text : string).

(** The variables of [main] the loop reads and writes, the database, how
    many UUIDs and dates were drawn, and the events so far. *)
Record State : Type := mkState {
  db : Schema.Db;
  messages : list CoreMessage;
  lastInputTokens : Z;
  drawn : nat;
  ticks : nat;
  trace : list Event
}.

Section Loop.

(** The surroundings of the loop: the model behind [chat] and behind the
    summarization request (both may answer differently on each attempt),
    the UUID and clock sources, and the constants of the turn. *)
Variable chat : Z -> list CoreMessage -> string -> ChatOutcome.
Variable create : Z -> CreateParams -> Js.Settled Response.
Variable randomUUID : nat -> string.
Variable now : nat -> Z.
Variable currentSessionId : string.
Variable containerId : string.

(** [await saveMessage(currentSessionId, role, content)] *)
Definition persist (st : State) (r : Role) (text : string) : State :=
  {| db := Session.saveMessage (db st) currentSessionId r text
             (randomUUID (drawn st)) (now (ticks st)) (now (S (ticks st)));
     messages := messages st;
     lastInputTokens := lastInputTokens st;
     drawn := S (drawn st);
     ticks := S (S (ticks st));
     trace := trace st ++ [Saved r text] |}.

(** [messages.push({ role, content })] *)
Definition push (st : State) (r : Role) (text : string) : State :=
  {| db := db st;
     messages := messages st ++ [ {| role := r; content := text |} ];
     lastInputTokens := lastInputTokens st;
     drawn := drawn st;
     ticks := ticks st;
     trace := trace st |}.

(** [compactMessages(core, keepLast)], [saveCompactedMessages], and the
    reassignment of [messages] to the non-system turns. *)
Definition compactAndReplace (attempt keepLast : Z) (st : State) : State :=
  let core := messages st in
  let compacted := run (create attempt) (Compaction.compactMessages core keepLast) in
  {| db := Session.saveCompactedMessages (db st) currentSessionId compacted
             (fun i => randomUUID (drawn st + i)) (fun i => now (ticks st + i));
     messages := filter Compaction.notSystem compacted;
     lastInputTokens := lastInputTokens st;
     drawn := drawn st + List.length compacted;
     ticks := ticks st + List.length compacted;
     trace := trace st ++ [Compacted keepLast; ReplacedAll compacted] |}.

Definition withChat (attempt : Z) (st : State) : State :=
  {| db := db st;
     messages := messages st;
     lastInputTokens := lastInputTokens st;
     drawn := drawn st;
     ticks := ticks st;
     trace := trace st ++ [ChatCalled attempt] |}.

Definition withInputTokens (inputTokens : Z) (st : State) : State :=
  {| db := db st;
     messages := messages st;
     lastInputTokens := inputTokens;
     drawn := drawn st;
     ticks := ticks st;
     trace := trace st |}.

(** The body of the [try] once [chat] has returned. *)
Definition onSuccess (attempt : Z) (response : string) (inputTokens : Z)
    (st : State) : State :=
  let st := withInputTokens inputTokens st in
  let st :=
    if Js.truthy (Js.trim response)
    then push (persist st assistant response) assistant response
    else st in
  if Compaction.shouldCompact (lastInputTokens st)
  then compactAndReplace attempt Compaction.keepLastDefault st
  else st.

(** The [else] branch of the [catch]. *)
Definition onError (message : option string) (st : State) : State :=
  push st assistant ("Error: " ++ Js.messageOrUndefined message)%string.

(** [for (let attempt = 0; attempt < 2; attempt++) { try ... catch ... }];
    [None] only when the fuel runs out. *)
Fixpoint attemptLoop (fuel : nat) (attempt : Z) (st : State) : option State :=
  match fuel with
  | O => None
  | S fuel' =>
      if attempt <? 2 then
        match chat attempt (messages st) containerId with
        | ChatOk response inputTokens outputTokens =>
            Some (onSuccess attempt response inputTokens (withChat attempt st))
        | ChatThrows message =>
            if Compaction.isContextOverflowError (Js.ErrorObject message)
               && (attempt =? 0)
            then attemptLoop fuel' (attempt + 1)
                   (compactAndReplace attempt 4 (withChat attempt st))
            else Some (onError message (withChat attempt st))
        end
      else Some st
  end.

(** The loop as [main] enters it. *)
Definition retryLoop (st : State) : option State := attemptLoop 3 0 st.

(** The two statements before the loop: the user's input is saved and
    pushed. *)
Definition acceptInput (st : State) (input : string) : State :=
  push (persist st user input) user input.

End Loop.

End Agent.

(* ===================================================================== *)
(** * Vocabulary of the properties                                        *)
(* ===================================================================== *)

Import Compaction.
Import Schema Session.

(** [sub] occurs somewhere in [s]. *)
Definition occursIn (sub s : string) : Prop :=
  exists pre post, s = (pre ++ sub ++ post)%string.

(** A turn of [n] characters, for the numeric examples. *)
Fixpoint filler (n : nat) : string :=
  match n with
  | O => EmptyString
  | S n' => String "x" (filler n')
  end.

(** Strict order of two rows by sequence number. *)
Definition seqLt (a b : MessageRow) : Prop := message_sequence a < message_sequence b.

(** The store invariant: within every session, rows were inserted in
    strictly increasing sequence order. *)
Definition wellSequenced (db : Db) : Prop :=
  forall sessionId,
    StronglySorted seqLt (filter (ofSession sessionId) (messages db)).

(** The rows [saveCompactedMessages] writes, numbered from [i]. *)
Fixpoint compactedRows (sessionId : string) (uuid : nat -> string)
    (createdAt : nat -> Z) (i : nat) (compacted : list CoreMessage) : list MessageRow :=
  match compacted with
  | [] => []
  | msg :: rest =>
      {| message_id := uuid i;
         message_sessionId := sessionId;
         message_role := role msg;
         message_content := content msg;
         message_createdAt := createdAt i;
         message_sequence := Z.of_nat i |}
      :: compactedRows sessionId uuid createdAt (S i) rest
  end.

(** A run of compactions only, on any sessions. *)
Definition compactionOps
    (cs : list (string * list CoreMessage * (nat -> string) * (nat -> Z))) : list Op :=
  map (fun c => match c with
                | (sessionId, turns, uuid, createdAt) =>
                    OpSaveCompacted sessionId turns uuid createdAt
                end) cs.

(** The attempt numbers of the [chat] calls among some events. *)
Fixpoint chatAttempts (events : list Agent.Event) : list Z :=
  match events with
  | [] => []
  | Agent.ChatCalled attempt :: rest => attempt :: chatAttempts rest
  | _ :: rest => chatAttempts rest
  end.

(** The turns handed to [saveCompactedMessages] among some events. *)
Fixpoint replacements (events : list Agent.Event) : list (list CoreMessage) :=
  match events with
  | [] => []
  | Agent.ReplacedAll turns :: rest => turns :: replacements rest
  | _ :: rest => replacements rest
  end.

(** The turns handed to [saveMessage] among some events. *)
Fixpoint appended (events : list Agent.Event) : list CoreMessage :=
  match events with
  | [] => []
  | Agent.Saved r text :: rest => mkCore r text :: appended rest
  | _ :: rest => appended rest
  end.

(** A session with one stored user turn, as [main] has it when it enters
    the loop after the input "hi". *)
Definition afterInput : Agent.State :=
  Agent.acceptInput (fun n => ("uuid-" ++ Js.showNat n)%string) (fun n => Z.of_nat n) "s"
    {| Agent.db := fst (getOrCreateSession initDb None "s" 0 0);
       Agent.messages := [];
       Agent.lastInputTokens := 0;
       Agent.drawn := 0;
       Agent.ticks := 0;
       Agent.trace := [] |}
    "hi".

(** Sequence numbers without gaps: the rows of every session are numbered
    0, 1, 2, ... in insertion order. *)
Definition gapless (db : Db) : Prop :=
  forall sessionId,
    let rows := filter (ofSession sessionId) (messages db) in
    map message_sequence rows = map Z.of_nat (seq 0 (List.length rows)).

(** The container rows of one session. *)
Definition containersOf (db : Db) (sessionId : string) : list ContainerRow :=
  filter (fun row => String.eqb (container_sessionId row) sessionId) (dockerContainers db).

(** At most one container row per session. *)
Definition oneRowPerSession (db : Db) : Prop :=
  forall sessionId, (List.length (containersOf db sessionId) <= 1)%nat.

(** The in-memory list of the loop holds exactly the stored non-system
    turns of the session. *)
Definition inSync (sessionId : string) (st : Agent.State) : Prop :=
  filter notSystem (loadMessages (Agent.db st) sessionId) = Agent.messages st.

(* ===================================================================== *)
(** * index.ts: [chat], the tool loop of one attempt                      *)
(* ===================================================================== *)

Module Chat.

(** [{ type: "tool_result", tool_use_id, content }] *)
Record ToolResultBlock : Type := mkToolResult {
  tool_use_id : string;
  tool_content : string
}.

(** The content of a [MessageParam]: a string, the content blocks of a
    response, or tool results. *)
Inductive ParamContent : Type :=
| Text (text : string)
| Blocks (bs : list ContentBlock)
| ToolResults (results : list ToolResultBlock).

Record MessageParam : Type := mkParam {
  param_role : Role;
  param_content : ParamContent
}.

(** What [chat] returns. *)
Record ChatResult : Type := mkResult {
  response : string;
  inputTokens : Z;
  outputTokens : Z
}.

Section Loop.

(** How the [n]-th request of this call settles, what the [n]-th tool
    execution returns for a tool name and input, and the container. *)
Variable create : nat -> Js.Settled Response.
Variable executeTool : nat -> string -> string -> string -> string.
Variable containerId : string.

(** The [for (const block of res.content)] loop, from the values its
    variables have; [toolCalls] counts the tool executions so far. *)
Fixpoint processBlocks (bs : list ContentBlock) (fullResponse : string)
    (hasToolUse : bool) (toolResults : list ToolResultBlock) (toolCalls : nat)
    : string * bool * list ToolResultBlock * nat :=
  match bs with
  | [] => (fullResponse, hasToolUse, toolResults, toolCalls)
  | TextBlock text :: rest =>
      processBlocks rest (fullResponse ++ text)%string hasToolUse toolResults toolCalls
  | ToolUseBlock id name input :: rest =>
      let result := executeTool toolCalls name input containerId in
      processBlocks rest fullResponse true
        (toolResults ++ [ {| tool_use_id := id; tool_content := result |} ])
        (S toolCalls)
  end.

(** The [while (true)] loop; the second component lists the [messages]
    argument of every request sent, in order.  [None] only when the fuel
    runs out. *)
Fixpoint chatLoop (fuel : nat) (requests toolCalls : nat)
    (currentMsgs : list MessageParam) (fullResponse : string)
    (totalInput totalOutput : Z) (sent : list (list MessageParam))
    : option (Js.Settled ChatResult * list (list MessageParam)) :=
  match fuel with
  | O => None
  | S fuel' =>
      let sent := sent ++ [currentMsgs] in
      match create requests with
      | Js.Rejected reason => Some (Js.Rejected reason, sent)
      | Js.Fulfilled res =>
          let totalInput := input_tokens res in
          let totalOutput := totalOutput + output_tokens res in
          match processBlocks (blocks res) fullResponse false [] toolCalls with
          | (fullResponse, hasToolUse, toolResults, toolCalls) =>
              if negb hasToolUse || String.eqb (stop_reason res) "end_turn" then
                Some (Js.Fulfilled {| response := fullResponse;
                                      inputTokens := totalInput;
                                      outputTokens := totalOutput |}, sent)
              else
                chatLoop fuel' (S requests) toolCalls
                  (currentMsgs
                     ++ [ {| param_role := assistant;
                             param_content := Blocks (blocks res) |};
                          {| param_role := user;
                             param_content := ToolResults toolResults |} ])
                  fullResponse totalInput totalOutput sent
          end
      end
  end.

(** [chat(messages, containerId)] *)
Definition chat (fuel : nat) (msgs : list MessageParam)
    : option (Js.Settled ChatResult * list (list MessageParam)) :=
  chatLoop fuel 0 0 msgs "" 0 0 [].

End Loop.

End Chat.

(** The ids of the tool-use blocks of a response, in order. *)
Fixpoint toolUseIds (bs : list ContentBlock) : list string :=
  match bs with
  | [] => []
  | TextBlock _ :: rest => toolUseIds rest
  | ToolUseBlock id _ _ :: rest => id :: toolUseIds rest
  end.

(** A response after which [chat] goes on: it used a tool and did not
    stop with "end_turn". *)
Definition goesOn (res : Response) : bool :=
  negb (Nat.eqb (List.length (toolUseIds (blocks res))) 0)
  && negb (String.eqb (stop_reason res) "end_turn").

(** All text of the responses [0 .. n-1] of a script, and their output
    tokens. *)
Fixpoint textUpTo (script : nat -> Response) (n : nat) : string :=
  match n with
  | O => ""
  | S n' => (textUpTo script n' ++ textOf (blocks (script n')))%string
  end.

Fixpoint outputUpTo (script : nat -> Response) (n : nat) : Z :=
  match n with
  | O => 0
  | S n' => outputUpTo script n' + output_tokens (script n')
  end.

(** The requests that follow a request with messages [current] at round
    [n] of a script: each adds to its predecessor the assistant message
    with the blocks of that round's response and one user message with a
    tool result for each of its tool-use blocks. *)
Inductive toolRounds (script : nat -> Response)
  : nat -> list Chat.MessageParam -> list (list Chat.MessageParam) -> Prop :=
| rounds_done n current : toolRounds script n current []
| rounds_next n current results more :
    map Chat.tool_use_id results = toolUseIds (blocks (script n)) ->
    toolRounds script (S n)
      (current ++ [Chat.mkParam assistant (Chat.Blocks (blocks (script n)));
                   Chat.mkParam user (Chat.ToolResults results)])
      more ->
    toolRounds script n current
      ((current ++ [Chat.mkParam assistant (Chat.Blocks (blocks (script n)));
                    Chat.mkParam user (Chat.ToolResults results)])
       :: more).

(* ===================================================================== *)
(** * The other revision of index.ts: one user turn of [main]             *)
(* ===================================================================== *)

Module Legacy.

(** The variables of [main] a turn reads and writes, the database, and
    how many UUIDs, dates and Docker set-ups were used. *)
Record State : Type := mkState {
  db : Schema.Db;
  messages : list CoreMessage;
  containerId : string;
  drawn : nat;
  ticks : nat;
  ensures : nat
}.

(** How a turn ends: at the bottom of the loop body, or with an error that
    leaves [main] (a failed container set-up outside the [try], or, in
    the [catch], a thrown [null] or [undefined] whose [message] cannot be
    read). *)
Inductive TurnEnd : Type :=
| Completed (st : State)
| Escaped (st : State).

Section Turn.

(** The surroundings of a turn: how the [n]-th request to the model
    settles, what the [n]-th tool execution returns, whether a tool result
    parses to an object with a true [containerCrashed], how Docker answers
    during the [n]-th [ensureDockerContainer], how the health probe
    settles, the model behind the summarization, and the UUID and clock
    sources. *)
Variable create : nat -> Js.Settled Response.
Variable executeTool : nat -> string -> string -> string -> string.
Variable containerCrashed : string -> bool.
Variable hosts : nat -> Docker.Host.
Variable probe : Js.Settled Docker.ExecOutput.
Variable summarize : CreateParams -> Js.Settled Response.
Variable randomUUID : nat -> string.
Variable now : nat -> Z.
Variable currentSessionId : string.

(** [await saveMessage(currentSessionId, role, content)] followed by
    [messages.push({ role, content })] *)
Definition saveAndPush (st : State) (r : Role) (text : string) : State :=
  {| db := Session.saveMessage (db st) currentSessionId r text
             (randomUUID (drawn st)) (now (ticks st)) (now (S (ticks st)));
     messages := messages st ++ [ {| role := r; content := text |} ];
     containerId := containerId st;
     drawn := S (drawn st);
     ticks := S (S (ticks st));
     ensures := ensures st |}.

(** [containerId = await ensureDockerContainer(currentSessionId)]; the
    second component is the thrown value, if any.  A UUID and a date are
    drawn only when a row is inserted. *)
Definition ensure (st : State) : State * option Js.any :=
  let inserts :=
    if (List.length
          (filter (fun row => String.eqb (Schema.container_sessionId row) currentSessionId)
                  (Schema.dockerContainers (db st))) =? 0)%nat
    then 1%nat else 0%nat in
  match Docker.ensureDockerContainer (hosts (ensures st)) (db st) currentSessionId
          (randomUUID (drawn st)) (now (ticks st)) with
  | (db', Js.Fulfilled id) =>
      ({| db := db'; messages := messages st; containerId := id;
          drawn := drawn st + inserts; ticks := ticks st + inserts;
          ensures := S (ensures st) |}, None)
  | (db', Js.Rejected reason) =>
      ({| db := db'; messages := messages st; containerId := containerId st;
          drawn := drawn st; ticks := ticks st;
          ensures := S (ensures st) |}, Some reason)
  end.

(** The proactive check at the top of the turn. *)
Definition compactIfNeeded (st : State) : State :=
  let coreMessages := messages st in
  if Heuristic.shouldCompact coreMessages then
    let compacted := run summarize (Heuristic.compactMessages coreMessages) in
    {| db := Session.saveCompactedMessages (db st) currentSessionId compacted
               (fun i => randomUUID (drawn st + i)) (fun i => now (ticks st + i));
       messages := filter Compaction.notSystem compacted;
       containerId := containerId st;
       drawn := drawn st + List.length compacted;
       ticks := ticks st + List.length compacted;
       ensures := ensures st |}
  else st.

(** The [for (const block of response.content)] loop; [inr reason] when
    [ensureDockerContainer] threw inside it. *)
Fixpoint handleBlocks (bs : list ContentBlock) (st : State) (finalResponse : string)
    (hasToolUse : bool) (toolResults : list Chat.ToolResultBlock) (toolCalls : nat)
    : State * (string * bool * list Chat.ToolResultBlock * nat + Js.any) :=
  match bs with
  | [] => (st, inl (finalResponse, hasToolUse, toolResults, toolCalls))
  | TextBlock text :: rest =>
      handleBlocks rest st (finalResponse ++ text)%string hasToolUse toolResults toolCalls
  | ToolUseBlock id name input :: rest =>
      let result := executeTool toolCalls name input (containerId st) in
      let toolResults :=
        toolResults ++ [ {| Chat.tool_use_id := id; Chat.tool_content := result |} ] in
      if containerCrashed result then
        match ensure st with
        | (st', None) => handleBlocks rest st' finalResponse true toolResults (S toolCalls)
        | (st', Some reason) => (st', inr reason)
        end
      else handleBlocks rest st finalResponse true toolResults (S toolCalls)
  end.

(** The [while (true)] loop inside the [try]; [None] only when the fuel
    runs out, [inr reason] for a thrown value. *)
Fixpoint toolLoop (fuel : nat) (requests toolCalls : nat) (st : State)
    (currentMessages : list Chat.MessageParam) (finalResponse : string)
    : option (State * (string + Js.any)) :=
  match fuel with
  | O => None
  | S fuel' =>
      match create requests with
      | Js.Rejected reason => Some (st, inr reason)
      | Js.Fulfilled res =>
          match handleBlocks (blocks res) st finalResponse false [] toolCalls with
          | (st', inr reason) => Some (st', inr reason)
          | (st', inl (finalResponse, hasToolUse, toolResults, toolCalls)) =>
              let currentMessages :=
                if hasToolUse
                then currentMessages
                       ++ [ {| Chat.param_role := assistant;
                               Chat.param_content := Chat.Blocks (blocks res) |};
                            {| Chat.param_role := user;
                               Chat.param_content := Chat.ToolResults toolResults |} ]
                else currentMessages in
              if String.eqb (stop_reason res) "end_turn" || negb hasToolUse
              then Some (st', inl finalResponse)
              else toolLoop fuel' (S requests) toolCalls st' currentMessages finalResponse
          end
      end
  end.

(** The body of the [while (true)] loop of [main] for one non-empty
    input. *)
Definition turn (fuel : nat) (st : State) (userInput : string) : option TurnEnd :=
  let st := saveAndPush st user userInput in
  let st := compactIfNeeded st in
  let checked :=
    if Docker.checkContainerHealth probe then (st, None) else ensure st in
  match checked with
  | (st, Some _) => Some (Escaped st)
  | (st, None) =>
      let currentMessages :=
        map (fun m => {| Chat.param_role := role m;
                         Chat.param_content := Chat.Text (content m) |})
            (messages st) in
      match toolLoop fuel 0 0 st currentMessages "" with
      | None => None
      | Some (st, inl finalResponse) =>
          if Js.truthy (Js.trim finalResponse)
          then Some (Completed (saveAndPush st assistant finalResponse))
          else Some (Completed st)
      | Some (st, inr Js.Nullish) => Some (Escaped st)
      | Some (st, inr (Js.ErrorObject message)) =>
          Some (Completed
                  (saveAndPush st assistant
                     ("Error: " ++ Js.messageOrUndefined message)%string))
      end
  end.

End Turn.

End Legacy.

(** The state a turn of the other revision ends in. *)
Definition endState (e : Legacy.TurnEnd) : Legacy.State :=
  match e with
  | Legacy.Completed st => st
  | Legacy.Escaped st => st
  end.

(** In that revision too: the in-memory list holds exactly the stored
    non-system turns of the session. *)
Definition legacyInSync (sessionId : string) (st : Legacy.State) : Prop :=
  filter notSystem (loadMessages (Legacy.db st) sessionId) = Legacy.messages st.

(** Two states with the same turns in memory and the same rows in the
    messages table. *)
Definition sameTurns (a b : Legacy.State) : Prop :=
  Legacy.messages a = Legacy.messages b
  /\ messages (Legacy.db a) = messages (Legacy.db b).

(** [a] is the character [b] or the upper-case form of the letter [b]. *)
Definition matchesChar (a b : ascii) : Prop :=
  a = b
  \/ ((65 <= nat_of_ascii a <= 90)%nat /\ nat_of_ascii b = (nat_of_ascii a + 32)%nat).

(** [s] is [pattern] up to the case of its ASCII letters. *)
Fixpoint matchesIgnoringCase (s pattern : string) : Prop :=
  match s, pattern with
  | EmptyString, EmptyString => True
  | String a s', String b pattern' => matchesChar a b /\ matchesIgnoringCase s' pattern'
  | _, _ => False
  end.

(** [pattern] occurs somewhere in [m], in any mix of upper and lower
    case. *)
Definition occursIgnoringCase (pattern m : string) : Prop :=
  exists pre mid post,
    m = (pre ++ mid ++ post)%string /\ matchesIgnoringCase mid pattern.

(** All characters are ASCII. *)
Fixpoint asciiOnly (s : string) : Prop :=
  match s with
  | EmptyString => True
  | String c s' => (nat_of_ascii c < 128)%nat /\ asciiOnly s'
  end.

(** The stored sequence numbers of a session are integers that double
    precision holds exactly, with room for one more. *)
Definition safeSequences (db : Db) (sessionId : string) : Prop :=
  Forall (fun row => - 2 ^ 53 < message_sequence row < 2 ^ 53)
         (filter (ofSession sessionId) (messages db)).

(** White space of ECMAScript among the ASCII characters: TAB, LF, VT, FF,
    CR and the space. *)
Definition whiteSpace (c : ascii) : Prop :=
  In (nat_of_ascii c) [9; 10; 11; 12; 13; 32]%nat.

Fixpoint allWhite (s : string) : Prop :=
  match s with
  | EmptyString => True
  | String c s' => whiteSpace c /\ allWhite s'
  end.

(** [t] is [s] without the white space at its two ends: only white space
    was cut off, and [t] neither starts nor ends with white space. *)
Definition trimmedOf (s t : string) : Prop :=
  (exists pre post, s = (pre ++ t ++ post)%string /\ allWhite pre /\ allWhite post)
  /\ (forall c rest, t = String c rest -> ~ whiteSpace c)
  /\ (forall front c, t = (front ++ String c EmptyString)%string -> ~ whiteSpace c).

(* ===================================================================== *)
(** * Properties                                                          *)
(* ===================================================================== *)

Example slice_last_two : Js.slice [1; 2; 3; 4; 5] (-2) None = [4; 5].
Proof. reflexivity. Qed.

Example slice_drop_last_two : Js.slice [1; 2; 3; 4; 5] 0 (Some (-2)) = [1; 2; 3].
Proof. reflexivity. Qed.

Example slice_minus_zero : Js.slice [1; 2; 3] (- 0) None = [1; 2; 3].
Proof. reflexivity. Qed.

Example trim_example : Js.trim "  ab c  " = "ab c".
Proof. reflexivity. Qed.

Example split_example : Js.splitOn " " "abc Up 2 hours" = ["abc"; "Up"; "2"; "hours"].
Proof. reflexivity. Qed.

Example showNat_example : Js.showNat 104 = "104" /\ Js.showNat 0 = "0".
Proof. split; reflexivity. Qed.

(** ** Array slices *)

Section SliceFacts.
Context {A : Type}.
Implicit Types (l : list A) (n : nat).

Lemma slice_from_end l n :
  (0 < n)%nat ->
  Js.slice l (- Z.of_nat n) None = skipn (List.length l - n) l.
Proof.
  intros Hn. unfold Js.slice, Js.relIndex.
  destruct (Z.ltb_spec (- Z.of_nat n) 0) as [_ | H]; [ | lia ].
  replace (Z.to_nat (Z.max (Z.of_nat (List.length l) + - Z.of_nat n) 0))
    with (List.length l - n)%nat by lia.
  apply firstn_all2. rewrite length_skipn. lia.
Qed.

Lemma slice_to_end l n :
  (0 < n)%nat ->
  Js.slice l 0 (Some (- Z.of_nat n)) = firstn (List.length l - n) l.
Proof.
  intros Hn. unfold Js.slice, Js.relIndex.
  destruct (Z.ltb_spec (- Z.of_nat n) 0) as [_ | H]; [ | lia ].
  change (0 <? 0) with false. cbv iota.
  rewrite Z.min_l by lia. cbn [Z.to_nat skipn]. f_equal. lia.
Qed.

(** [slice(-0)] is [slice(0)]: the whole array, and [slice(0, -0)] is empty. *)
Lemma slice_from_minus_zero l : Js.slice l (- 0) None = l.
Proof.
  unfold Js.slice, Js.relIndex. cbn [Z.opp Z.ltb Z.compare].
  rewrite Z.min_l by lia. cbn [Z.to_nat skipn].
  rewrite Z.sub_0_r, Nat2Z.id. apply firstn_all.
Qed.

Lemma slice_to_minus_zero l : Js.slice l 0 (Some (- 0)) = [].
Proof.
  unfold Js.slice, Js.relIndex. cbn [Z.opp Z.ltb Z.compare].
  rewrite Z.min_l by lia. reflexivity.
Qed.

(** The two slices of [compactMessages] split the array. *)
Lemma slice_split l n :
  (0 < n)%nat ->
  Js.slice l 0 (Some (- Z.of_nat n)) ++ Js.slice l (- Z.of_nat n) None = l.
Proof.
  intros Hn. rewrite slice_from_end, slice_to_end by assumption.
  apply firstn_skipn.
Qed.

End SliceFacts.

(** ** The compactor *)


Lemma partition_length (msgs : list CoreMessage) :
  List.length msgs
  = (List.length (filter isSystem msgs) + List.length (filter notSystem msgs))%nat.
Proof.
  induction msgs as [ | m msgs IH ]; [ reflexivity | ].
  cbn [filter]. unfold notSystem, isSystem in *.
  destruct (Role_eqb (role m) system); cbn [negb List.length]; lia.
Qed.

(** The shape of [compactMessages] once something is old enough to go. *)
Lemma compactMessages_awaits (msgs : list CoreMessage) (n : nat) :
  let Sys := filter isSystem msgs in
  let M := filter notSystem msgs in
  let old := firstn (List.length M - n) M in
  let recent := skipn (List.length M - n) M in
  (0 < n)%nat -> (n < List.length M)%nat ->
  compactMessages msgs (Z.of_nat n)
  = Await (summaryRequest (Js.join (Js.LF ++ Js.LF)%string (map renderTurn old)))
      (fun settled =>
         match settled with
         | Js.Fulfilled response =>
             Sys ++ [summaryTurn (List.length old) (textOf (blocks response))] ++ recent
         | Js.Rejected _ => Sys ++ recent
         end).
Proof.
  intros Sys M old recent Hn Hlt. unfold compactMessages.
  fold Sys M. rewrite slice_from_end, slice_to_end by assumption.
  fold old recent.
  destruct old as [ | o old' ] eqn:Hold; [ | reflexivity ].
  exfalso. apply (f_equal (@List.length _)) in Hold.
  subst old. rewrite length_firstn in Hold. cbn in Hold. lia.
Qed.

(** With [keepLast = 0] both slices degenerate ([slice(-0)]): nothing
    counts as old and the input comes back, whatever its length. *)
Lemma compactMessages_keep_zero (msgs : list CoreMessage) :
  compactMessages msgs 0 = Return msgs.
Proof.
  unfold compactMessages. rewrite slice_to_minus_zero. reflexivity.
Qed.

(** C2.  When the number of non-system turns is at most [keepLast],
    [compactMessages] returns its input list itself, without a request to
    the model. *)
Theorem compact_noop_when_short (msgs : list CoreMessage) (keepLast : Z) :
  Z.of_nat (List.length (filter notSystem msgs)) <= keepLast ->
  compactMessages msgs keepLast = Return msgs.
Proof.
  intros Hle. unfold compactMessages.
  set (M := filter notSystem msgs) in *.
  assert (Hold : Js.slice M 0 (Some (- keepLast)) = []).
  { unfold Js.slice, Js.relIndex. change (0 <? 0) with false. cbv iota.
    destruct (Z.ltb_spec (- keepLast) 0).
    - rewrite Z.max_r by lia. rewrite Z.min_l by lia. reflexivity.
    - assert (keepLast = 0) by lia. subst keepLast.
      rewrite !Z.min_l by lia. reflexivity. }
  rewrite Hold. reflexivity.
Qed.

Lemma compact_noop_when_short_witness :
  let msgs := [mkCore system "S1"; mkCore user "a"; mkCore assistant "b"; mkCore user "c"] in
  Z.of_nat (List.length (filter notSystem msgs)) <= 6 /\
  run (fun _ => Js.Rejected Js.Nullish) (compactMessages msgs 6) = msgs.
Proof.
  cbv zeta. split.
  - vm_compute. discriminate.
  - rewrite (compact_noop_when_short _ 6).
    + reflexivity.
    + vm_compute. discriminate.
Defined.

(** The revision without [keepLast] falls back differently: when its
    request is rejected it returns the input, old turns included. *)
Lemma heuristic_fallback_returns_input (msgs : list CoreMessage) request resume reason :
  Heuristic.compactMessages msgs = Await request resume ->
  resume (Js.Rejected reason) = msgs.
Proof.
  unfold Heuristic.compactMessages.
  destruct (filter _ (Heuristic.withIndex msgs)); [ discriminate | ].
  intros H. injection H as _ <-. reflexivity.
Qed.

(** C1, as amended.  Whenever the number of non-system turns exceeds
    [keepLast] and the summarization request is fulfilled, the result is
    the system turns, then one assistant turn
    "[Summary of <discarded> previous messages]\n<summary>", then the last
    [keepLast] non-system turns in their order.  The output is never
    longer than the input; it is strictly shorter exactly when at least
    two turns were discarded, and as long as the input when one was.  For
    [keepLast >= 1] the request is always sent. *)
Theorem compact_success (msgs : list CoreMessage) (n : nat) :
  let Sys := filter isSystem msgs in
  let M := filter notSystem msgs in
  let discarded := (List.length M - n)%nat in
  (n < List.length M)%nat ->
  (forall request resume response,
      compactMessages msgs (Z.of_nat n) = Await request resume ->
      let out := resume (Js.Fulfilled response) in
      out = Sys
            ++ [ {| role := assistant;
                    content := ("[Summary of " ++ Js.showNat discarded
                                  ++ " previous messages]" ++ Js.LF
                                  ++ textOf (blocks response))%string |} ]
            ++ skipn discarded M
      /\ List.length (skipn discarded M) = n
      /\ (List.length out <= List.length msgs)%nat
      /\ ((2 <= discarded)%nat <-> (List.length out < List.length msgs)%nat)
      /\ (discarded = 1%nat -> List.length out = List.length msgs))
  /\ ((0 < n)%nat -> awaited (compactMessages msgs (Z.of_nat n)) = true).
Proof.
  intros Sys M discarded Hlt. split.
  - intros request resume response Heq out.
    destruct n as [ | n ].
    { change (Z.of_nat 0) with 0 in Heq.
      rewrite compactMessages_keep_zero in Heq. discriminate. }
    rewrite (compactMessages_awaits msgs (Datatypes.S n)) in Heq by (assumption || lia).
    fold Sys M discarded in Heq.
    injection Heq as _ Hres. subst out resume. cbv beta iota.
    assert (Hold : List.length (firstn discarded M) = discarded).
    { rewrite length_firstn. subst discarded. lia. }
    assert (Hrec : List.length (skipn discarded M) = Datatypes.S n).
    { rewrite length_skipn. subst discarded. lia. }
    rewrite Hold.
    assert (Hlen : List.length
              (Sys ++ summaryTurn discarded (textOf (blocks response))
                 :: skipn discarded M)
            = (List.length Sys + 1 + Datatypes.S n)%nat).
    { rewrite length_app. cbn [List.length]. rewrite Hrec. lia. }
    pose proof (partition_length msgs) as Hpart. fold Sys M in Hpart.
    unfold summaryTurn in *.
    split; [ reflexivity | ].
    split; [ exact Hrec | ].
    rewrite Hlen, Hpart. subst discarded. lia.
  - intros Hn. rewrite compactMessages_awaits by assumption. reflexivity.
Qed.

Lemma compact_success_witness :
  let msgs := [mkCore system "S1"; mkCore user "a"; mkCore assistant "b";
               mkCore user "c"; mkCore assistant "d"] in
  let response := mkResponse [TextBlock "sum"] "end_turn" 10 3 in
  (2 < List.length (filter notSystem msgs))%nat /\
  run (fun _ => Js.Fulfilled response) (compactMessages msgs 2)
  = [ mkCore system "S1";
      mkCore assistant ("[Summary of 2 previous messages]" ++ Js.LF ++ "sum")%string;
      mkCore user "c"; mkCore assistant "d" ].
Proof.
  cbv zeta. split; [ cbn; lia | ].
  pose proof (compact_success
                [mkCore system "S1"; mkCore user "a"; mkCore assistant "b";
                 mkCore user "c"; mkCore assistant "d"] 2) as H.
  cbv zeta in H. destruct H as [H _]; [ cbn; lia | ].
  change (Z.of_nat 2) with 2 in H.
  assert (E : exists request resume,
             compactMessages
               [mkCore system "S1"; mkCore user "a"; mkCore assistant "b";
                mkCore user "c"; mkCore assistant "d"] 2 = Await request resume)
    by (eexists _, _; reflexivity).
  destruct E as (request & resume & E). rewrite E. cbn [run].
  destruct (H request resume (mkResponse [TextBlock "sum"] "end_turn" 10 3) E)
    as [Hr _].
  rewrite Hr. reflexivity.
Defined.

(** C1 as stated fails: with two non-system turns and [keepLast = 1] the
    count exceeds [keepLast] and the request succeeds, yet the single
    discarded turn is replaced by the single summary turn, so the output is
    as long as the input. *)
Lemma compact_success_not_shorter :
  let msgs := [mkCore user "a"; mkCore assistant "b"] in
  let response := mkResponse [TextBlock "sum"] "end_turn" 10 3 in
  let out := run (fun _ => Js.Fulfilled response) (compactMessages msgs 1) in
  1 < Z.of_nat (List.length (filter notSystem msgs)) /\
  awaited (compactMessages msgs 1) = true /\
  out = [ mkCore assistant ("[Summary of 1 previous messages]" ++ Js.LF ++ "sum")%string;
          mkCore assistant "b" ] /\
  ~ (List.length out < List.length msgs)%nat.
Proof.
  cbv zeta. split; [ reflexivity | ]. split; [ reflexivity | ].
  split; [ reflexivity | ]. intros H. vm_compute in H. lia.
Qed.

(** C3.  Whenever the number of non-system turns exceeds [keepLast] and the
    summarization request is rejected, with whatever thrown value, the
    result is the system turns followed by the last [keepLast] non-system
    turns, and no other turn.  For [keepLast >= 1] the request is always
    sent, so the rejected case is reachable. *)
Theorem compact_fallback (msgs : list CoreMessage) (n : nat) :
  let Sys := filter isSystem msgs in
  let M := filter notSystem msgs in
  (n < List.length M)%nat ->
  (forall request resume reason,
      compactMessages msgs (Z.of_nat n) = Await request resume ->
      resume (Js.Rejected reason) = Sys ++ skipn (List.length M - n) M
      /\ List.length (resume (Js.Rejected reason)) = (List.length Sys + n)%nat)
  /\ ((0 < n)%nat -> awaited (compactMessages msgs (Z.of_nat n)) = true).
Proof.
  intros Sys M Hlt. split.
  - intros request resume reason Heq.
    destruct n as [ | n ].
    + change (Z.of_nat 0) with 0 in Heq.
      rewrite compactMessages_keep_zero in Heq. discriminate.
    + rewrite (compactMessages_awaits msgs (Datatypes.S n)) in Heq by (assumption || lia).
      injection Heq as _ Hres. subst resume. cbv beta iota. fold Sys M.
      split; [ reflexivity | ].
      rewrite length_app, length_skipn. lia.
  - intros Hn. rewrite compactMessages_awaits by assumption. reflexivity.
Qed.

Lemma compact_fallback_witness :
  let msgs := [mkCore system "S1"; mkCore user "a"; mkCore assistant "b";
               mkCore user "c"; mkCore assistant "d"] in
  (2 < List.length (filter notSystem msgs))%nat /\
  run (fun _ => Js.Rejected (Js.ErrorObject (Some "overloaded")))
      (compactMessages msgs 2)
  = [mkCore system "S1"; mkCore user "c"; mkCore assistant "d"].
Proof.
  cbv zeta. split; [ cbn; lia | ].
  pose proof (compact_fallback
                [mkCore system "S1"; mkCore user "a"; mkCore assistant "b";
                 mkCore user "c"; mkCore assistant "d"] 2) as H.
  cbv zeta in H. destruct H as [H _]; [ cbn; lia | ].
  change (Z.of_nat 2) with 2 in H.
  assert (E : exists request resume,
             compactMessages
               [mkCore system "S1"; mkCore user "a"; mkCore assistant "b";
                mkCore user "c"; mkCore assistant "d"] 2 = Await request resume)
    by (eexists _, _; reflexivity).
  destruct E as (request & resume & E). rewrite E. cbn [run].
  destruct (H request resume (Js.ErrorObject (Some "overloaded")) E) as [Hr _].
  rewrite Hr. reflexivity.
Defined.

(** ** Substring search and the overflow classifier *)


Lemma startsWith_spec (s p : string) :
  Js.startsWith s p = true <-> exists post, s = (p ++ post)%string.
Proof.
  revert s. induction p as [ | a p IH ]; intros s; cbn [Js.startsWith].
  - split; [ intros _; exists s; reflexivity | intros _; now destruct s ].
  - destruct s as [ | b s ].
    + split; [ discriminate | intros [post H]; discriminate H ].
    + cbn [Js.startsWith]. rewrite andb_true_iff, Ascii.eqb_eq, IH. split.
      * intros [-> [post ->]]. exists post. reflexivity.
      * intros [post H]. cbn in H. injection H as -> ->. eauto.
Qed.

Lemma includes_spec (s sub : string) :
  Js.includes s sub = true <-> occursIn sub s.
Proof.
  unfold occursIn. induction s as [ | c s IH ].
  - cbn [Js.includes]. rewrite orb_false_r, startsWith_spec. split.
    + intros [post H]. exists ""%string, post. exact H.
    + intros (pre & post & H). destruct pre as [ | a pre ]; [ | discriminate H ].
      exists post. exact H.
  - cbn [Js.includes]. rewrite orb_true_iff, startsWith_spec, IH. split.
    + intros [[post H] | (pre & post & H)].
      * exists ""%string, post. exact H.
      * exists (String c pre), post. cbn. now rewrite H.
    + intros (pre & post & H). destruct pre as [ | a pre ].
      * left. exists post. exact H.
      * right. cbn in H. injection H as _ H. eauto.
Qed.

Lemma mapString_append (f : ascii -> ascii) (a b : string) :
  Js.mapString f (a ++ b) = (Js.mapString f a ++ Js.mapString f b)%string.
Proof.
  induction a as [ | c a IH ]; cbn; [ reflexivity | now rewrite IH ].
Qed.

Lemma mapString_split (f : ascii -> ascii) (x y : string) :
  forall m, Js.mapString f m = (x ++ y)%string ->
  exists m1 m2, m = (m1 ++ m2)%string /\ Js.mapString f m1 = x /\ Js.mapString f m2 = y.
Proof.
  induction x as [ | c x IH ]; intros m H.
  - exists ""%string, m. repeat split. exact H.
  - destruct m as [ | d m ]; [ discriminate H | ].
    cbn in H. injection H as Hc H.
    destruct (IH m H) as (m1 & m2 & -> & H1 & H2).
    exists (String d m1), m2. cbn. rewrite Hc, H1. repeat split. exact H2.
Qed.

(** Lower-casing sends a character to a character that lower-casing
    fixes exactly when it is that character or its upper-case form. *)
Lemma lowerChar_matches (a b : ascii) :
  Js.lowerChar b = b -> (Js.lowerChar a = b <-> matchesChar a b).
Proof.
  intros Hfix. unfold matchesChar.
  pose proof (nat_ascii_bounded a) as Ha.
  unfold Js.lowerChar in *.
  destruct ((65 <=? nat_of_ascii a)%nat && (nat_of_ascii a <=? 90)%nat) eqn:E.
  - apply andb_true_iff in E. destruct E as [E1 E2].
    apply Nat.leb_le in E1. apply Nat.leb_le in E2.
    split.
    + intros <-. right. split; [ lia | ].
      apply nat_ascii_embedding. lia.
    + intros [<- | [_ Hb]].
      * destruct ((65 <=? nat_of_ascii a)%nat && (nat_of_ascii a <=? 90)%nat) eqn:E';
          [ exact Hfix | ].
        apply andb_false_iff in E'.
        destruct E' as [E' | E']; apply Nat.leb_gt in E'; lia.
      * rewrite <- Hb. apply ascii_nat_embedding.
  - split.
    + intros <-. now left.
    + intros [<- | [Hup _]]; [ reflexivity | ].
      apply andb_false_iff in E.
      destruct E as [E | E]; apply Nat.leb_gt in E; lia.
Qed.

Lemma toLowerCase_matches (mid : string) :
  forall pattern,
    Js.toLowerCase pattern = pattern ->
    (Js.toLowerCase mid = pattern <-> matchesIgnoringCase mid pattern).
Proof.
  unfold Js.toLowerCase.
  induction mid as [ | a mid IH ]; intros [ | b pattern ] Hfix; cbn.
  - tauto.
  - split; [ discriminate | contradiction ].
  - split; [ discriminate | contradiction ].
  - cbn in Hfix. injection Hfix as Hb Hp.
    rewrite <- (IH pattern Hp), <- (lowerChar_matches a b Hb).
    split.
    + intros H. injection H as H1 H2. split; assumption.
    + intros [H1 H2]. now rewrite H1, H2.
Qed.

(** A pattern that lower-casing fixes occurs in the lower-cased text
    exactly when it occurs in the text in some mix of cases. *)
Lemma occursIn_toLowerCase (pattern m : string) :
  Js.toLowerCase pattern = pattern ->
  (occursIn pattern (Js.toLowerCase m) <-> occursIgnoringCase pattern m).
Proof.
  intros Hfix. unfold occursIn, occursIgnoringCase, Js.toLowerCase. split.
  - intros (pre & post & H).
    destruct (mapString_split _ _ _ _ H) as (m1 & rest & -> & H1 & H2).
    destruct (mapString_split _ _ _ _ H2) as (mid & m3 & -> & Hmid & H3).
    exists m1, mid, m3. split; [ reflexivity | ].
    now apply toLowerCase_matches.
  - intros (pre & mid & post & -> & Hmid).
    apply toLowerCase_matches in Hmid; [ | exact Hfix ].
    unfold Js.toLowerCase in Hmid.
    exists (Js.mapString Js.lowerChar pre), (Js.mapString Js.lowerChar post).
    now rewrite !mapString_append, Hmid.
Qed.

(** C8.  For every caught value, [isContextOverflowError] is true exactly
    when the lower-cased message text contains "context", "token" or
    "too long", where the message text is the [message] of an error
    object and the empty text for [null], [undefined] or a missing
    message, and the lower-casing is the engine's, whatever it does
    outside ASCII.  Wherever the engine's lower-casing is the ASCII one,
    as on every all-ASCII message, this is substring matching that
    ignores case: the classifier is true exactly when one of the three
    words occurs in the message in some mix of upper and lower case. *)
Theorem overflow_classifier (toLowerCase : string -> string) (error : Js.any) :
  let text := match error with
              | Js.ErrorObject (Some m) => m
              | _ => ""%string
              end in
  (isContextOverflowErrorWith toLowerCase error = true
   <-> occursIn "context" (toLowerCase text)
       \/ occursIn "token" (toLowerCase text)
       \/ occursIn "too long" (toLowerCase text))
  /\ (toLowerCase text = Js.toLowerCase text ->
      (isContextOverflowErrorWith toLowerCase error = true
       <-> occursIgnoringCase "context" text
           \/ occursIgnoringCase "token" text
           \/ occursIgnoringCase "too long" text))
  /\ isContextOverflowError error = isContextOverflowErrorWith Js.toLowerCase error.
Proof.
  intros text.
  assert (Htext : messageText error = text).
  { subst text. destruct error as [ | [m | ] ]; reflexivity. }
  assert (Hiff : isContextOverflowErrorWith toLowerCase error = true
                 <-> occursIn "context" (toLowerCase text)
                     \/ occursIn "token" (toLowerCase text)
                     \/ occursIn "too long" (toLowerCase text)).
  { unfold isContextOverflowErrorWith. rewrite Htext.
    rewrite !orb_true_iff, !includes_spec. tauto. }
  split; [ exact Hiff | ].
  split; [ | reflexivity ].
  intros Hascii. rewrite Hiff, Hascii.
  rewrite !occursIn_toLowerCase by reflexivity. tauto.
Qed.

Lemma overflow_classifier_witness :
  isContextOverflowError (Js.ErrorObject (Some "Prompt is TOO LONG: 250000 Tokens")) = true
  /\ isContextOverflowErrorWith Js.toLowerCase (Js.ErrorObject (Some "Max CONTEXT reached"))
     = true.
Proof.
  split; [ reflexivity | ].
  destruct (overflow_classifier Js.toLowerCase (Js.ErrorObject (Some "Max CONTEXT reached")))
    as (_ & Hcase & _).
  apply (Hcase eq_refl). left.
  exists "Max "%string, "CONTEXT"%string, " reached"%string.
  split; [ reflexivity | ].
  cbn. unfold matchesChar. cbn. repeat split; right; split; lia.
Defined.

Example overflow_examples :
  isContextOverflowError (Js.ErrorObject (Some "Prompt is TOO LONG: 250000 Tokens")) = true
  /\ isContextOverflowError (Js.ErrorObject (Some "Maximum CONTEXT length exceeded")) = true
  /\ isContextOverflowError (Js.ErrorObject (Some "rate limit reached")) = false
  /\ isContextOverflowError (Js.ErrorObject (Some "Invalid authentication token")) = true
  /\ isContextOverflowError (Js.ErrorObject None) = false.
Proof. repeat split; reflexivity. Qed.

(** Matching ignores ASCII case: two messages with the same lower-casing
    are classified alike. *)
Lemma overflow_case_insensitive (m m' : string) :
  Js.toLowerCase m = Js.toLowerCase m' ->
  isContextOverflowError (Js.ErrorObject (Some m))
  = isContextOverflowError (Js.ErrorObject (Some m')).
Proof.
  intros H. unfold isContextOverflowError. cbn [messageText]. now rewrite H.
Qed.

Lemma lowerChar_upperChar (c : ascii) : Js.lowerChar (Js.upperChar c) = Js.lowerChar c.
Proof.
  destruct c as [[|] [|] [|] [|] [|] [|] [|] [|]]; reflexivity.
Qed.

Lemma toLowerCase_toUpperCase (s : string) :
  Js.toLowerCase (Js.toUpperCase s) = Js.toLowerCase s.
Proof.
  induction s as [ | c s IH ]; [ reflexivity | ].
  unfold Js.toLowerCase, Js.toUpperCase in *. cbn [Js.mapString].
  now rewrite lowerChar_upperChar, IH.
Qed.

(** ** The character heuristic *)


Lemma string_length_append (a b : string) :
  String.length (a ++ b)%string = (String.length a + String.length b)%nat.
Proof.
  induction a as [ | c a IH ]; cbn; [ reflexivity | now rewrite IH ].
Qed.

Lemma fold_chars_shift (msgs : list CoreMessage) (acc : Z) :
  fold_left (fun sum msg => sum + Z.of_nat (String.length (content msg))) msgs acc
  = acc + Heuristic.totalChars msgs.
Proof.
  unfold Heuristic.totalChars. revert acc.
  induction msgs as [ | m msgs IH ]; intros acc; cbn [fold_left].
  - lia.
  - rewrite IH, (IH (0 + _)). lia.
Qed.

(** The accumulated sum is the length of all contents put together. *)
Lemma totalChars_concat (msgs : list CoreMessage) :
  Heuristic.totalChars msgs
  = Z.of_nat (String.length (String.concat "" (map content msgs))).
Proof.
  induction msgs as [ | m msgs IH ]; [ reflexivity | ].
  unfold Heuristic.totalChars in *. cbn [fold_left map].
  rewrite fold_chars_shift. unfold Heuristic.totalChars. rewrite IH.
  destruct msgs as [ | m' msgs ].
  - cbn. lia.
  - cbn [String.concat map]. cbn [String.concat map] in IH.
    rewrite !string_length_append. cbn [String.length]. lia.
Qed.

Lemma totalChars_nonneg (msgs : list CoreMessage) : 0 <= Heuristic.totalChars msgs.
Proof. rewrite totalChars_concat. lia. Qed.

(** [Math.ceil(n * 0.25)] is the least integer [k] with [n <= 4 k]. *)
Lemma estimateTokens_ceiling (msgs : list CoreMessage) :
  Heuristic.estimateTokens msgs = (Heuristic.totalChars msgs + 3) / 4.
Proof.
  unfold Heuristic.estimateTokens, Heuristic.ESTIMATED_TOKENS_PER_CHAR.
  set (n := Heuristic.totalChars msgs).
  unfold Qceiling, Qfloor, Qopp, Qmult, inject_Z. cbn [Qnum Qden].
  change (Z.pos (1 * 100)) with 100. 
  assert (H : - (- (n * 25) / 100) = (n + 3) / 4).
  { assert (E : - (n * 25) = (- n) * 25) by lia. rewrite E.
    replace 100 with (4 * 25) by reflexivity.
    rewrite Z.mul_comm, (Z.mul_comm 4 25), Z.div_mul_cancel_l by lia.
    pose proof (Z.div_mod (- n) 4 ltac:(lia)).
    pose proof (Z.mod_pos_bound (- n) 4 ltac:(lia)).
    pose proof (Z.div_mod (n + 3) 4 ltac:(lia)).
    pose proof (Z.mod_pos_bound (n + 3) 4 ltac:(lia)).
    lia. }
  exact H.
Qed.

(** The threshold test of the [keepLast] revision, on a given score. *)
Lemma shouldCompact_iff (score : Z) :
  Compaction.shouldCompact score = true <-> 150000 < score.
Proof. unfold Compaction.shouldCompact, COMPACT_THRESHOLD. apply Z.ltb_lt. Qed.

(** C5.  The estimate is the ceiling of a quarter of the total character
    length of all contents, hence monotone in that length, and
    [shouldCompact] holds exactly when the estimate exceeds 150000 (in
    both revisions of the test): 600001 characters give 150001 and true,
    600000 give 150000 and false. *)
Theorem estimate_and_threshold (msgs msgs' : list CoreMessage) :
  let chars := Z.of_nat (String.length (String.concat "" (map content msgs))) in
  let estimate := Heuristic.estimateTokens msgs in
  Heuristic.totalChars msgs = chars
  /\ 4 * (estimate - 1) < chars <= 4 * estimate
  /\ (Heuristic.totalChars msgs <= Heuristic.totalChars msgs' ->
      estimate <= Heuristic.estimateTokens msgs')
  /\ (Heuristic.shouldCompact msgs = true <-> 150000 < estimate)
  /\ Compaction.shouldCompact estimate = Heuristic.shouldCompact msgs
  /\ (chars = 600001 -> estimate = 150001 /\ Heuristic.shouldCompact msgs = true)
  /\ (chars = 600000 -> estimate = 150000 /\ Heuristic.shouldCompact msgs = false).
Proof.
  intros chars estimate.
  assert (Hchars : Heuristic.totalChars msgs = chars) by apply totalChars_concat.
  assert (Hest : estimate = (chars + 3) / 4).
  { subst estimate. now rewrite estimateTokens_ceiling, Hchars. }
  assert (Hshould : Heuristic.shouldCompact msgs = true <-> 150000 < estimate).
  { unfold Heuristic.shouldCompact, Heuristic.CONTEXT_LIMIT_TOKENS.
    fold estimate. apply Z.ltb_lt. }
  split; [ exact Hchars | ].
  split.
  { rewrite Hest.
    pose proof (Z.div_mod (chars + 3) 4 ltac:(lia)).
    pose proof (Z.mod_pos_bound (chars + 3) 4 ltac:(lia)). lia. }
  split.
  { intros Hle. rewrite Hest, estimateTokens_ceiling, <- Hchars.
    apply Z.div_le_mono; lia. }
  split; [ exact Hshould | ].
  split; [ reflexivity | ].
  split.
  - intros E. rewrite E in Hest. change ((600001 + 3) / 4) with 150001 in Hest.
    split; [ exact Hest | ]. apply Hshould. lia.
  - intros E. rewrite E in Hest. change ((600000 + 3) / 4) with 150000 in Hest.
    split; [ exact Hest | ].
    destruct (Heuristic.shouldCompact msgs); [ | reflexivity ].
    assert (150000 < estimate) by now apply Hshould. lia.
Qed.

Lemma estimate_and_threshold_witness :
  let over := [mkCore user (filler (Z.to_nat 600001))] in
  let at_limit := [mkCore user (filler (Z.to_nat 300000));
                   mkCore assistant (filler (Z.to_nat 300000))] in
  (Heuristic.estimateTokens over = 150001 /\ Heuristic.shouldCompact over = true)
  /\ (Heuristic.estimateTokens at_limit = 150000 /\ Heuristic.shouldCompact at_limit = false)
  /\ Heuristic.estimateTokens at_limit <= Heuristic.estimateTokens over.
Proof.
  cbv zeta.
  pose proof (estimate_and_threshold
                [mkCore user (filler (Z.to_nat 600001))]
                [mkCore user (filler (Z.to_nat 600001))]) as Hover.
  pose proof (estimate_and_threshold
                [mkCore user (filler (Z.to_nat 300000));
                 mkCore assistant (filler (Z.to_nat 300000))]
                [mkCore user (filler (Z.to_nat 600001))]) as Hlimit.
  cbv zeta in Hover, Hlimit.
  destruct Hover as (_ & _ & _ & _ & _ & Hover & _).
  destruct Hlimit as (_ & _ & Hmono & _ & _ & _ & Hlimit).
  split; [ apply Hover; vm_compute; reflexivity | ].
  split; [ apply Hlimit; vm_compute; reflexivity | ].
  apply Hmono. vm_compute. discriminate.
Defined.

(** ** The message store *)


Section OrderBy.

Lemma insertBy_asc_least (x : MessageRow) (l : list MessageRow) :
  Forall (seqLt x) l -> insertBy ascSequence x l = x :: l.
Proof.
  intros H. destruct H as [ | y l Hy _ ]; [ reflexivity | ].
  cbn [insertBy]. unfold ascSequence, seqLt in *.
  destruct (Z.leb_spec (message_sequence x) (message_sequence y)); [ reflexivity | lia ].
Qed.

(** Sorting rows that are already in strictly increasing order changes
    nothing. *)
Lemma orderBy_asc_sorted (l : list MessageRow) :
  StronglySorted seqLt l -> orderBy ascSequence l = l.
Proof.
  induction 1 as [ | x l Hs IH Hx ]; [ reflexivity | ].
  cbn [orderBy]. rewrite IH. now apply insertBy_asc_least.
Qed.

(** The first row in descending order carries the maximal sequence. *)
Lemma orderBy_desc_top (l : list MessageRow) :
  match orderBy descSequence l with
  | [] => l = []
  | top :: _ =>
      In top l /\ Forall (fun y => message_sequence y <= message_sequence top) l
  end.
Proof.
  induction l as [ | x l IH ]; [ reflexivity | ].
  cbn [orderBy]. destruct (orderBy descSequence l) as [ | top rest ].
  - subst l. cbn. split; [ now left | ]. constructor; [ lia | constructor ].
  - destruct IH as [Hin Hall]. cbn [insertBy]. unfold descSequence at 1.
    destruct (Z.leb_spec (message_sequence top) (message_sequence x)) as [Hle | Hgt].
    + split; [ now left | ]. constructor; [ lia | ].
      eapply Forall_impl; [ | exact Hall ]. cbn. intros; lia.
    + split; [ now right | ]. constructor; [ lia | exact Hall ].
Qed.

Lemma StronglySorted_snoc {A : Type} (R : A -> A -> Prop) (l : list A) (x : A) :
  StronglySorted R l -> Forall (fun y => R y x) l -> StronglySorted R (l ++ [x]).
Proof.
  induction 1 as [ | y l Hs IH Hy ]; intros Hall; cbn.
  - repeat constructor.
  - inversion Hall as [ | ? ? Hyx Hall' ]; subst.
    constructor; [ now apply IH | ].
    apply Forall_app. split; [ exact Hy | now constructor ].
Qed.

Lemma filter_filter_implied {A : Type} (f g : A -> bool) (l : list A) :
  (forall x, f x = true -> g x = true) ->
  filter f (filter g l) = filter f l.
Proof.
  intros H. induction l as [ | x l IH ]; [ reflexivity | ].
  cbn [filter]. destruct (g x) eqn:Hg.
  - cbn [filter]. now rewrite IH.
  - destruct (f x) eqn:Hf; [ | exact IH ].
    rewrite (H x Hf) in Hg. discriminate.
Qed.

Lemma filter_none {A : Type} (f : A -> bool) (l : list A) :
  (forall x, In x l -> f x = false) -> filter f l = [].
Proof.
  induction l as [ | x l IH ]; intros H; [ reflexivity | ].
  cbn [filter]. rewrite (H x (or_introl eq_refl)). apply IH.
  intros y Hy. apply H. now right.
Qed.

Lemma filter_all {A : Type} (f : A -> bool) (l : list A) :
  (forall x, In x l -> f x = true) -> filter f l = l.
Proof.
  induction l as [ | x l IH ]; intros H; [ reflexivity | ].
  cbn [filter]. rewrite (H x (or_introl eq_refl)). f_equal. apply IH.
  intros y Hy. apply H. now right.
Qed.

End OrderBy.

Section CompactedRows.
Variables (sessionId : string) (uuid : nat -> string) (createdAt : nat -> Z).

Lemma insertCompacted_app (table : list MessageRow) (i : nat) (compacted : list CoreMessage) :
  insertCompacted table sessionId uuid createdAt i compacted
  = table ++ compactedRows sessionId uuid createdAt i compacted.
Proof.
  revert table i. induction compacted as [ | msg rest IH ]; intros table i.
  - cbn. now rewrite app_nil_r.
  - cbn [insertCompacted compactedRows]. rewrite IH, <- app_assoc. reflexivity.
Qed.

Lemma compactedRows_session (i : nat) (compacted : list CoreMessage) (row : MessageRow) :
  In row (compactedRows sessionId uuid createdAt i compacted) ->
  message_sessionId row = sessionId /\ Z.of_nat i <= message_sequence row.
Proof.
  revert i. induction compacted as [ | msg rest IH ]; intros i; [ contradiction | ].
  cbn [compactedRows In]. intros [<- | Hin].
  - cbn. split; [ reflexivity | lia ].
  - destruct (IH _ Hin). split; [ assumption | lia ].
Qed.

Lemma compactedRows_sorted (i : nat) (compacted : list CoreMessage) :
  StronglySorted seqLt (compactedRows sessionId uuid createdAt i compacted).
Proof.
  revert i. induction compacted as [ | msg rest IH ]; intros i; cbn [compactedRows].
  - constructor.
  - constructor; [ apply IH | ].
    apply Forall_forall. intros row Hin.
    destruct (compactedRows_session _ _ _ Hin) as [_ Hle].
    unfold seqLt. cbn. lia.
Qed.

Lemma compactedRows_sequences (i : nat) (compacted : list CoreMessage) :
  map message_sequence (compactedRows sessionId uuid createdAt i compacted)
  = map Z.of_nat (seq i (List.length compacted)).
Proof.
  revert i. induction compacted as [ | msg rest IH ]; intros i; [ reflexivity | ].
  cbn [compactedRows map List.length seq]. now rewrite IH.
Qed.

Lemma compactedRows_core (i : nat) (compacted : list CoreMessage) :
  map (fun msg => {| role := message_role msg; content := message_content msg |})
      (compactedRows sessionId uuid createdAt i compacted)
  = compacted.
Proof.
  revert i. induction compacted as [ | [r c] rest IH ]; intros i; [ reflexivity | ].
  cbn [compactedRows map]. now rewrite IH.
Qed.

End CompactedRows.

Lemma ofSession_eq (sessionId : string) (row : MessageRow) :
  ofSession sessionId row = true <-> message_sessionId row = sessionId.
Proof. unfold ofSession. apply String.eqb_eq. Qed.

(** What [saveCompactedMessages] leaves in the table for each session. *)
Lemma saveCompacted_rows (db : Db) (sessionId : string) (compacted : list CoreMessage)
    (uuid : nat -> string) (createdAt : nat -> Z) (other : string) :
  filter (ofSession other)
         (messages (saveCompactedMessages db sessionId compacted uuid createdAt))
  = if String.eqb other sessionId
    then compactedRows sessionId uuid createdAt 0 compacted
    else filter (ofSession other) (messages db).
Proof.
  unfold saveCompactedMessages, clearMessages. cbn [messages].
  rewrite insertCompacted_app, filter_app.
  destruct (String.eqb_spec other sessionId) as [-> | Hne].
  - rewrite filter_none, filter_all; [ reflexivity | | ].
    + intros row Hin. apply ofSession_eq.
      now destruct (compactedRows_session _ _ _ _ _ _ Hin).
    + intros row Hin. apply filter_In in Hin. destruct Hin as [_ Hin].
      now destruct (ofSession sessionId row).
  - rewrite (filter_none _ (compactedRows _ _ _ _ _)), app_nil_r.
    + apply filter_filter_implied. intros row Hrow.
      apply ofSession_eq in Hrow.
      destruct (ofSession sessionId row) eqn:E; [ | reflexivity ].
      apply ofSession_eq in E. congruence.
    + intros row Hin. destruct (compactedRows_session _ _ _ _ _ _ Hin) as [Hs _].
      destruct (ofSession other row) eqn:E; [ | reflexivity ].
      apply ofSession_eq in E. congruence.
Qed.

(** C7.  After [saveCompactedMessages], [loadMessages] of that session is
    exactly the given turns in the given order; the rows behind them are
    numbered 0..N-1 and are the only rows the session has, while every
    other session keeps its rows. *)
Theorem replaceAll_then_load (db : Db) (sessionId : string)
    (turns : list CoreMessage) (uuid : nat -> string) (createdAt : nat -> Z) :
  let db' := saveCompactedMessages db sessionId turns uuid createdAt in
  loadMessages db' sessionId = turns
  /\ map message_sequence (selectMessages db' sessionId)
     = map Z.of_nat (seq 0 (List.length turns))
  /\ filter (ofSession sessionId) (messages db')
     = compactedRows sessionId uuid createdAt 0 turns
  /\ List.length (filter (ofSession sessionId) (messages db')) = List.length turns
  /\ (forall other, other <> sessionId ->
        filter (ofSession other) (messages db')
        = filter (ofSession other) (messages db)).
Proof.
  intros db'.
  assert (Hrows : filter (ofSession sessionId) (messages db')
                  = compactedRows sessionId uuid createdAt 0 turns).
  { subst db'. rewrite saveCompacted_rows. now rewrite String.eqb_refl. }
  assert (Hsel : selectMessages db' sessionId
                 = compactedRows sessionId uuid createdAt 0 turns).
  { unfold selectMessages. rewrite Hrows.
    apply orderBy_asc_sorted, compactedRows_sorted. }
  split; [ unfold loadMessages; rewrite Hsel; apply compactedRows_core | ].
  split; [ rewrite Hsel; apply compactedRows_sequences | ].
  split; [ exact Hrows | ].
  split.
  - rewrite Hrows.
    rewrite <- (length_map message_sequence), compactedRows_sequences.
    now rewrite length_map, length_seq.
  - intros other Hne. subst db'. rewrite saveCompacted_rows.
    destruct (String.eqb_spec other sessionId); [ contradiction | reflexivity ].
Qed.

Lemma replaceAll_then_load_witness :
  let old := saveMessage (saveMessage initDb "s" user "hello" "id0" 1 2)
                         "s" assistant "hi" "id1" 3 4 in
  let turns := [mkCore system "rules"; mkCore assistant "summary"; mkCore user "next"] in
  let db' := saveCompactedMessages old "s" turns (fun _ => "id") (fun i => Z.of_nat i) in
  "t"%string <> "s"%string
  /\ loadMessages db' "s" = turns
  /\ filter (ofSession "t") (messages db') = [].
Proof.
  cbv zeta. split; [ discriminate | ]. split; [ reflexivity | ].
  destruct (replaceAll_then_load
              (saveMessage (saveMessage initDb "s" user "hello" "id0" 1 2)
                           "s" assistant "hi" "id1" 3 4)
              "s" [mkCore system "rules"; mkCore assistant "summary"; mkCore user "next"]
              (fun _ => "id"%string) (fun i => Z.of_nat i))
    as (_ & _ & _ & _ & Hother).
  rewrite (Hother "t"%string); [ reflexivity | discriminate ].
Defined.

(** The sequence number [saveMessage] picks: 0 for a session without rows,
    else one more than the largest sequence the session has. *)
Lemma nextSequence_spec (db : Db) (sessionId : string) :
  let rows := filter (ofSession sessionId) (messages db) in
  (rows = [] -> nextSequence db sessionId = 0)
  /\ (rows <> [] ->
      exists top, In top rows
                  /\ Forall (fun y => message_sequence y <= message_sequence top) rows
                  /\ nextSequence db sessionId = message_sequence top + 1)
  /\ Forall (fun y => message_sequence y < nextSequence db sessionId) rows.
Proof.
  intros rows. unfold nextSequence. fold rows.
  pose proof (orderBy_desc_top rows) as H.
  destruct (orderBy descSequence rows) as [ | top rest ]; cbn [firstn].
  - rewrite H. repeat split; [ congruence | constructor ].
  - destruct H as [Hin Hall]. split; [ | split ].
    + intros E. rewrite E in Hin. contradiction.
    + intros _. exists top. auto.
    + eapply Forall_impl; [ | exact Hall ]. cbn. intros; lia.
Qed.

Lemma saveMessage_rows (db : Db) (sessionId : string) (r : Role) (text uuid : string)
    (createdAt updatedAt : Z) (other : string) :
  filter (ofSession other)
         (messages (saveMessage db sessionId r text uuid createdAt updatedAt))
  = if String.eqb other sessionId
    then filter (ofSession sessionId) (messages db)
         ++ [ mkMessage uuid sessionId r text createdAt (nextSequence db sessionId) ]
    else filter (ofSession other) (messages db).
Proof.
  unfold saveMessage. cbn [messages]. rewrite filter_app. cbn [filter].
  unfold ofSession at 2. cbn [message_sessionId].
  rewrite String.eqb_sym.
  destruct (String.eqb_spec other sessionId) as [-> | Hne].
  - reflexivity.
  - apply app_nil_r.
Qed.

Lemma saveMessage_wellSequenced (db : Db) (sessionId : string) (r : Role)
    (text uuid : string) (createdAt updatedAt : Z) :
  wellSequenced db ->
  wellSequenced (saveMessage db sessionId r text uuid createdAt updatedAt).
Proof.
  intros Inv other. rewrite saveMessage_rows.
  destruct (String.eqb_spec other sessionId) as [-> | Hne]; [ | apply Inv ].
  apply StronglySorted_snoc; [ apply Inv | ].
  destruct (nextSequence_spec db sessionId) as (_ & _ & Hlt).
  eapply Forall_impl; [ | exact Hlt ]. intros row Hrow. exact Hrow.
Qed.

Lemma saveCompacted_wellSequenced (db : Db) (sessionId : string)
    (compacted : list CoreMessage) (uuid : nat -> string) (createdAt : nat -> Z) :
  wellSequenced db ->
  wellSequenced (saveCompactedMessages db sessionId compacted uuid createdAt).
Proof.
  intros Inv other. rewrite saveCompacted_rows.
  destruct (String.eqb other sessionId); [ apply compactedRows_sorted | apply Inv ].
Qed.

Lemma StronglySorted_filter {A : Type} (R : A -> A -> Prop) (f : A -> bool) (l : list A) :
  StronglySorted R l -> StronglySorted R (filter f l).
Proof.
  induction 1 as [ | x l Hs IH Hx ]; cbn [filter]; [ constructor | ].
  destruct (f x); [ | exact IH ].
  constructor; [ exact IH | ].
  apply Forall_forall. intros y Hy. apply filter_In in Hy.
  rewrite Forall_forall in Hx. now apply Hx.
Qed.

Lemma filter_comm {A : Type} (f g : A -> bool) (l : list A) :
  filter f (filter g l) = filter g (filter f l).
Proof.
  induction l as [ | x l IH ]; [ reflexivity | ].
  cbn [filter]. destruct (f x) eqn:Hf, (g x) eqn:Hg; cbn [filter];
    rewrite ?Hf, ?Hg, IH; reflexivity.
Qed.

Lemma clearMessages_wellSequenced (db : Db) (sessionId : string) :
  wellSequenced db -> wellSequenced (clearMessages db sessionId).
Proof.
  intros Inv other. unfold clearMessages. cbn [messages].
  rewrite filter_comm. apply StronglySorted_filter, Inv.
Qed.

Lemma getOrCreateSession_messages (db : Db) (sessionId : option string)
    (uuid : string) (createdAt updatedAt : Z) :
  messages (fst (getOrCreateSession db sessionId uuid createdAt updatedAt))
  = messages db.
Proof.
  unfold getOrCreateSession.
  destruct sessionId as [id | ]; [ | reflexivity ].
  destruct (Js.truthy id); [ | reflexivity ].
  destruct (0 <? _); reflexivity.
Qed.

Lemma apply_wellSequenced (db : Db) (op : Op) :
  wellSequenced db -> wellSequenced (apply db op).
Proof.
  intros Inv. destruct op; cbn [apply].
  - intros other. rewrite getOrCreateSession_messages. apply Inv.
  - now apply saveMessage_wellSequenced.
  - now apply clearMessages_wellSequenced.
  - now apply saveCompacted_wellSequenced.
Qed.

Lemma applyAll_wellSequenced (ops : list Op) (db : Db) :
  wellSequenced db -> wellSequenced (applyAll db ops).
Proof.
  unfold applyAll. revert db.
  induction ops as [ | op ops IH ]; intros db Inv; cbn [fold_left]; [ exact Inv | ].
  apply IH, apply_wellSequenced, Inv.
Qed.

Lemma initDb_wellSequenced : wellSequenced initDb.
Proof. intros s. constructor. Qed.

Lemma seqLt_map_sorted (l : list MessageRow) :
  StronglySorted seqLt l -> StronglySorted Z.lt (map message_sequence l).
Proof.
  induction 1 as [ | x l Hs IH Hx ]; cbn [map]; constructor; [ exact IH | ].
  apply Forall_map. exact Hx.
Qed.

Lemma strictly_sorted_NoDup (l : list Z) : StronglySorted Z.lt l -> NoDup l.
Proof.
  induction 1 as [ | x l Hs IH Hx ]; constructor; [ | exact IH ].
  intros Hin. rewrite Forall_forall in Hx. specialize (Hx x Hin). lia.
Qed.

(** C6.  After any sequence of store calls on a fresh database, the rows
    [loadMessages] selects for any session carry strictly increasing
    sequence numbers, without duplicates, and they are the session's rows
    in insertion order; [saveMessage] appends one row whose sequence is 0
    for a session without rows and one more than the session's maximum
    otherwise. *)
Theorem load_strictly_increasing (ops : list Op) (sessionId : string)
    (r : Role) (text uuid : string) (createdAt updatedAt : Z) :
  let db := applyAll initDb ops in
  let rows := filter (ofSession sessionId) (messages db) in
  let sequences := map message_sequence (selectMessages db sessionId) in
  StronglySorted Z.lt sequences
  /\ NoDup sequences
  /\ selectMessages db sessionId = rows
  /\ loadMessages db sessionId
     = map (fun row => mkCore (message_role row) (message_content row)) rows
  /\ messages (saveMessage db sessionId r text uuid createdAt updatedAt)
     = messages db
       ++ [ mkMessage uuid sessionId r text createdAt (nextSequence db sessionId) ]
  /\ (rows = [] -> nextSequence db sessionId = 0)
  /\ (rows <> [] ->
      exists top, In top rows
                  /\ Forall (fun y => message_sequence y <= message_sequence top) rows
                  /\ nextSequence db sessionId = message_sequence top + 1).
Proof.
  intros db rows sequences.
  assert (Inv : wellSequenced db)
    by (apply applyAll_wellSequenced, initDb_wellSequenced).
  assert (Hsel : selectMessages db sessionId = rows)
    by (apply orderBy_asc_sorted, Inv).
  assert (Hsorted : StronglySorted Z.lt sequences).
  { subst sequences. rewrite Hsel. apply seqLt_map_sorted, Inv. }
  destruct (nextSequence_spec db sessionId) as (Hnone & Hsome & _).
  split; [ exact Hsorted | ].
  split; [ now apply strictly_sorted_NoDup | ].
  split; [ exact Hsel | ].
  split; [ unfold loadMessages; now rewrite Hsel | ].
  split; [ reflexivity | ].
  split; assumption.
Qed.

Lemma load_strictly_increasing_witness :
  let ops := [ OpSave "s" user "one" "id0" 1 1;
               OpSave "t" user "other" "id1" 2 2;
               OpSave "s" assistant "two" "id2" 3 3;
               OpSaveCompacted "s" [mkCore assistant "sum"; mkCore assistant "two"]
                               (fun _ => "id") (fun _ => 4);
               OpSave "s" user "three" "id3" 5 5 ] in
  let db := applyAll initDb ops in
  map message_sequence (selectMessages db "s") = [0; 1; 2]
  /\ nextSequence db "s" = 3
  /\ nextSequence db "fresh" = 0.
Proof.
  cbv zeta. split; [ reflexivity | ]. split; [ reflexivity | ].
  apply (load_strictly_increasing
           [ OpSave "s" user "one" "id0" 1 1;
             OpSave "t" user "other" "id1" 2 2;
             OpSave "s" assistant "two" "id2" 3 3;
             OpSaveCompacted "s" [mkCore assistant "sum"; mkCore assistant "two"]
                             (fun _ => "id"%string) (fun _ => 4);
             OpSave "s" user "three" "id3" 5 5 ]
           "fresh" user "x" "id" 0 0).
  reflexivity.
Defined.


Lemma compactionOps_sessions cs (db : Db) :
  sessions (applyAll db (compactionOps cs)) = sessions db.
Proof.
  unfold applyAll. revert db.
  induction cs as [ | [[[s turns] uuid] createdAt] cs IH ]; intros db; [ reflexivity | ].
  cbn [compactionOps map fold_left]. fold (compactionOps cs). rewrite IH. reflexivity.
Qed.

(** C9.  [saveCompactedMessages] leaves the sessions table as it is, so
    no [updatedAt] changes, whereas [saveMessage] writes its [updatedAt]
    into the row of the session; after an append, any run of compactions
    leaves the table as the append wrote it. *)
Theorem replaceAll_keeps_session_row (db : Db) (sessionId : string)
    (turns : list CoreMessage) (uuid : nat -> string) (createdAt : nat -> Z)
    (r : Role) (text id : string) (created updated : Z) cs :
  sessions (saveCompactedMessages db sessionId turns uuid createdAt) = sessions db
  /\ dockerContainers (saveCompactedMessages db sessionId turns uuid createdAt)
     = dockerContainers db
  /\ (forall row, In row (sessions db) -> session_id row = sessionId ->
        In (mkSession sessionId (session_createdAt row) updated)
           (sessions (saveMessage db sessionId r text id created updated)))
  /\ sessions (applyAll (saveMessage db sessionId r text id created updated)
                        (compactionOps cs))
     = sessions (saveMessage db sessionId r text id created updated).
Proof.
  split; [ reflexivity | ]. split; [ reflexivity | ]. split.
  - intros row Hin Hid. unfold saveMessage. cbn [sessions].
    apply in_map_iff. exists row. split; [ | exact Hin ].
    rewrite Hid, String.eqb_refl. reflexivity.
  - apply compactionOps_sessions.
Qed.

Lemma replaceAll_keeps_session_row_witness :
  let db := fst (getOrCreateSession initDb None "s" 10 10) in
  let appended := saveMessage db "s" user "hello" "id0" 20 21 in
  let compacted := saveCompactedMessages appended "s" [mkCore assistant "sum"]
                                         (fun _ => "id1") (fun _ => 30) in
  sessions appended = [mkSession "s" 10 21]
  /\ sessions compacted = [mkSession "s" 10 21]
  /\ In (mkSession "s" 10 21) (sessions appended).
Proof.
  cbv zeta. split; [ reflexivity | ]. split; [ reflexivity | ].
  destruct (replaceAll_keeps_session_row
              (fst (getOrCreateSession initDb None "s" 10 10)) "s"
              [mkCore assistant "sum"] (fun _ => "id1"%string) (fun _ => 30)
              user "hello" "id0" 20 21 [])
    as (_ & _ & Hbump & _).
  apply (Hbump (mkSession "s" 10 10)); [ left; reflexivity | reflexivity ].
Defined.

(** ** The sandbox handle row *)

Lemma saveContainerInfo_existing (db : Db) (sessionId containerId uuid : string)
    (createdAt : Z) (row : ContainerRow) :
  In row (dockerContainers db) -> container_sessionId row = sessionId ->
  Docker.saveContainerInfo db sessionId containerId uuid createdAt = db.
Proof.
  intros Hin Hs. unfold Docker.saveContainerInfo.
  set (f := fun r => String.eqb (container_sessionId r) sessionId).
  assert (Hf : In row (filter f (dockerContainers db))).
  { apply filter_In. split; [ exact Hin | ]. unfold f. rewrite Hs. apply String.eqb_refl. }
  destruct (filter f (dockerContainers db)) as [ | r0 rest ]; [ contradiction | ].
  reflexivity.
Qed.

Lemma saveContainerInfo_absent (db : Db) (sessionId containerId uuid : string)
    (createdAt : Z) :
  (forall row, In row (dockerContainers db) -> container_sessionId row <> sessionId) ->
  dockerContainers (Docker.saveContainerInfo db sessionId containerId uuid createdAt)
  = dockerContainers db ++ [mkContainer uuid containerId sessionId createdAt].
Proof.
  intros Hnone. unfold Docker.saveContainerInfo.
  rewrite filter_none; [ reflexivity | ].
  intros row Hin. destruct (String.eqb_spec (container_sessionId row) sessionId) as [E | ];
    [ | reflexivity ].
  now apply Hnone in Hin.
Qed.

Lemma recreate_existing (host : Docker.Host) (db : Db) (sessionId uuid : string)
    (createdAt : Z) (row : ContainerRow) :
  In row (dockerContainers db) -> container_sessionId row = sessionId ->
  fst (Docker.recreate host db sessionId uuid createdAt) = db.
Proof.
  intros Hin Hs. unfold Docker.recreate.
  destruct (Docker.removeStale host); [ | reflexivity ].
  destruct (Docker.runAgain host); [ | reflexivity ].
  cbn [fst]. eapply saveContainerInfo_existing; eassumption.
Qed.

Lemma createNew_existing (host : Docker.Host) (db : Db) (sessionId uuid : string)
    (createdAt : Z) (row : ContainerRow) :
  In row (dockerContainers db) -> container_sessionId row = sessionId ->
  fst (Docker.createNew host db sessionId uuid createdAt) = db.
Proof.
  intros Hin Hs. unfold Docker.createNew.
  destruct (Docker.runNew host).
  - cbn [fst]. eapply saveContainerInfo_existing; eassumption.
  - eapply recreate_existing; eassumption.
Qed.

(** C10.  [saveContainerInfo] appends a row only for a session that has
    none and otherwise leaves the database as it is; hence, for a session
    with a stored row, [ensureDockerContainer] changes nothing in the
    database on any path, and when it creates a container it returns the
    new id while the stored row keeps the old one. *)
Theorem sandbox_row_write_once (host : Docker.Host) (db : Db)
    (sessionId containerId uuid : string) (createdAt : Z) :
  ((forall row, In row (dockerContainers db) -> container_sessionId row <> sessionId) ->
   dockerContainers (Docker.saveContainerInfo db sessionId containerId uuid createdAt)
   = dockerContainers db ++ [mkContainer uuid containerId sessionId createdAt])
  /\ (forall row,
        In row (dockerContainers db) -> container_sessionId row = sessionId ->
        Docker.saveContainerInfo db sessionId containerId uuid createdAt = db
        /\ fst (Docker.ensureDockerContainer host db sessionId uuid createdAt) = db
        /\ (forall out created,
              Docker.psAll host = Js.Fulfilled out ->
              Js.trim (Docker.stdout out) = ""%string ->
              Docker.runNew host = Js.Fulfilled created ->
              snd (Docker.ensureDockerContainer host db sessionId uuid createdAt)
              = Js.Fulfilled (Js.trim (Docker.stdout created)))
        /\ (forall e e' removed created,
              Docker.psAll host = Js.Rejected e ->
              Docker.runNew host = Js.Rejected e' ->
              Docker.removeStale host = Js.Fulfilled removed ->
              Docker.runAgain host = Js.Fulfilled created ->
              snd (Docker.ensureDockerContainer host db sessionId uuid createdAt)
              = Js.Fulfilled (Js.trim (Docker.stdout created)))).
Proof.
  split; [ apply saveContainerInfo_absent | ].
  intros row Hin Hs.
  split; [ eapply saveContainerInfo_existing; eassumption | ].
  split.
  - unfold Docker.ensureDockerContainer.
    destruct (Docker.psAll host) as [out | e];
      [ | eapply createNew_existing; eassumption ].
    destruct (Js.truthy _); [ | eapply createNew_existing; eassumption ].
    destruct (Js.splitOn _ _) as [ | cid parts ];
      [ eapply createNew_existing; eassumption | ].
    destruct (Js.includes _ _).
    + cbn [fst]. eapply saveContainerInfo_existing; eassumption.
    + destruct (Docker.start host cid).
      * cbn [fst]. eapply saveContainerInfo_existing; eassumption.
      * eapply createNew_existing; eassumption.
  - split.
    + intros out created Hps Hempty Hrun.
      unfold Docker.ensureDockerContainer, Docker.createNew.
      rewrite Hps, Hempty, Hrun. reflexivity.
    + intros e e' removed created Hps Hrun Hrm Hagain.
      unfold Docker.ensureDockerContainer, Docker.createNew, Docker.recreate.
      rewrite Hps, Hrun, Hrm, Hagain. reflexivity.
Qed.

Lemma sandbox_row_write_once_witness :
  let db := Docker.saveContainerInfo initDb "s" "old111" "row0" 1 in
  let host := {| Docker.psAll := Js.Fulfilled (Docker.mkOutput "" "");
                 Docker.start := fun _ => Js.Rejected Js.Nullish;
                 Docker.runNew := Js.Fulfilled (Docker.mkOutput ("new222" ++ Js.LF) "");
                 Docker.removeStale := Js.Fulfilled (Docker.mkOutput "" "");
                 Docker.runAgain := Js.Rejected Js.Nullish |} in
  dockerContainers db = [mkContainer "row0" "old111" "s" 1]
  /\ Docker.ensureDockerContainer host db "s" "row1" 2 = (db, Js.Fulfilled "new222"%string)
  /\ Docker.saveContainerInfo db "s" "new222" "row1" 2 = db.
Proof.
  cbv zeta. split; [ reflexivity | ]. split; [ reflexivity | ].
  destruct (sandbox_row_write_once
              {| Docker.psAll := Js.Fulfilled (Docker.mkOutput "" "");
                 Docker.start := fun _ => Js.Rejected Js.Nullish;
                 Docker.runNew := Js.Fulfilled (Docker.mkOutput ("new222" ++ Js.LF) "");
                 Docker.removeStale := Js.Fulfilled (Docker.mkOutput "" "");
                 Docker.runAgain := Js.Rejected Js.Nullish |}
              (Docker.saveContainerInfo initDb "s" "old111" "row0" 1)
              "s" "new222" "row1" 2) as [_ H].
  destruct (H (mkContainer "row0" "old111" "s" 1)) as [Hsave _].
  - left. reflexivity.
  - reflexivity.
  - exact Hsave.
Defined.

(** ** The attempt loop *)


Section AttemptLoop.
Variable chat : Z -> list CoreMessage -> string -> Agent.ChatOutcome.
Variable create : Z -> CreateParams -> Js.Settled Response.
Variable randomUUID : nat -> string.
Variable now : nat -> Z.
Variable currentSessionId : string.
Variable containerId : string.

Local Abbreviation retryLoop := (Agent.retryLoop chat create randomUUID now currentSessionId containerId).
Local Abbreviation onSuccess := (Agent.onSuccess create randomUUID now currentSessionId).
Local Abbreviation compactAndReplace := (Agent.compactAndReplace create randomUUID now currentSessionId).

(** The loop, unrolled: at most two calls of [chat]. *)
Lemma retryLoop_unrolled (st : Agent.State) :
  retryLoop st
  = match chat 0 (Agent.messages st) containerId with
    | Agent.ChatOk response inputTokens _ =>
        Some (onSuccess 0 response inputTokens (Agent.withChat 0 st))
    | Agent.ChatThrows message =>
        if isContextOverflowError (Js.ErrorObject message) then
          let st1 := compactAndReplace 0 4 (Agent.withChat 0 st) in
          match chat 1 (Agent.messages st1) containerId with
          | Agent.ChatOk response inputTokens _ =>
              Some (onSuccess 1 response inputTokens (Agent.withChat 1 st1))
          | Agent.ChatThrows message' =>
              Some (Agent.onError message' (Agent.withChat 1 st1))
          end
        else Some (Agent.onError message (Agent.withChat 0 st))
    end.
Proof.
  unfold Agent.retryLoop. cbn [Agent.attemptLoop].
  change (0 <? 2) with true. cbv iota.
  destruct (chat 0 (Agent.messages st) containerId) as [r i o | m]; [ reflexivity | ].
  change (0 =? 0) with true. rewrite andb_true_r.
  destruct (isContextOverflowError (Js.ErrorObject m)); [ | reflexivity ].
  change (0 + 1) with 1. change (1 <? 2) with true. cbv iota zeta.
  destruct (chat 1 _ containerId) as [r i o | m']; [ reflexivity | ].
  change (1 =? 0) with false. rewrite andb_false_r. reflexivity.
Qed.

(** The loop always ends within its fuel. *)
Lemma retryLoop_total (st : Agent.State) : exists st', retryLoop st = Some st'.
Proof.
  rewrite retryLoop_unrolled.
  destruct (chat 0 _ _); [ eauto | ].
  destruct (isContextOverflowError _); [ | eauto ].
  cbv zeta. destruct (chat 1 _ _); eauto.
Qed.

Lemma onSuccess_trace (attempt : Z) (response : string) (inputTokens : Z)
    (st : Agent.State) :
  exists events,
    Agent.trace (onSuccess attempt response inputTokens st) = Agent.trace st ++ events
    /\ chatAttempts events = [].
Proof.
  unfold Agent.onSuccess.
  destruct (Js.truthy (Js.trim response));
    destruct (shouldCompact _); cbn [Agent.trace Agent.compactAndReplace Agent.push
                                     Agent.persist Agent.withInputTokens].
  - rewrite <- app_assoc. eexists. split; [ reflexivity | reflexivity ].
  - eexists. split; [ reflexivity | reflexivity ].
  - eexists. split; [ reflexivity | reflexivity ].
  - exists []. split; [ now rewrite app_nil_r | reflexivity ].
Qed.

Lemma chatAttempts_app (a b : list Agent.Event) :
  chatAttempts (a ++ b) = chatAttempts a ++ chatAttempts b.
Proof.
  induction a as [ | [ | | | ] a IH ]; cbn; now rewrite ?IH.
Qed.

(** X15.  There is never a third attempt: in every run of the loop [chat]
    is called for attempt 0, and possibly for attempt 1, and that is
    all. *)
Lemma at_most_two_attempts (st st' : Agent.State) :
  retryLoop st = Some st' ->
  exists events,
    Agent.trace st' = Agent.trace st ++ events
    /\ (chatAttempts events = [0] \/ chatAttempts events = [0; 1]).
Proof.
  rewrite retryLoop_unrolled.
  destruct (chat 0 _ _) as [r i o | m].
  - intros [= <-].
    destruct (onSuccess_trace 0 r i (Agent.withChat 0 st)) as (ev & Htr & Hc).
    exists (Agent.ChatCalled 0 :: ev). rewrite Htr. cbn [Agent.trace Agent.withChat].
    rewrite <- app_assoc. split; [ reflexivity | ]. left. cbn. now rewrite Hc.
  - destruct (isContextOverflowError _).
    + cbv zeta. destruct (chat 1 _ _) as [r i o | m'].
      * intros [= <-].
        destruct (onSuccess_trace 1 r i
                    (Agent.withChat 1 (compactAndReplace 0 4 (Agent.withChat 0 st))))
          as (ev & Htr & Hc).
        rewrite Htr. cbn [Agent.trace Agent.withChat Agent.compactAndReplace].
        eexists. rewrite <- !app_assoc. split; [ reflexivity | ].
        right. cbn. now rewrite Hc.
      * intros [= <-].
        cbn [Agent.trace Agent.withChat Agent.compactAndReplace Agent.onError Agent.push].
        eexists. rewrite <- !app_assoc. split; [ reflexivity | ].
        right. reflexivity.
    + intros [= <-].
      cbn [Agent.trace Agent.withChat Agent.onError Agent.push].
      eexists. split; [ reflexivity | ]. left. reflexivity.
Qed.

(** X16.  An overflow on the first attempt: one compaction with
    [keepLast = 4], written with [saveCompactedMessages], then the second
    and last call of [chat] on the compacted turns. *)
Lemma overflow_compacts_then_retries (st : Agent.State) (message : option string) :
  chat 0 (Agent.messages st) containerId = Agent.ChatThrows message ->
  isContextOverflowError (Js.ErrorObject message) = true ->
  let compacted := run (create 0) (compactMessages (Agent.messages st) 4) in
  let st1 := compactAndReplace 0 4 (Agent.withChat 0 st) in
  Agent.db st1
  = saveCompactedMessages (Agent.db st) currentSessionId compacted
      (fun i => randomUUID (Agent.drawn st + i)%nat)
      (fun i => now (Agent.ticks st + i)%nat)
  /\ Agent.messages st1 = filter notSystem compacted
  /\ Agent.trace st1
     = Agent.trace st
       ++ [Agent.ChatCalled 0; Agent.Compacted 4; Agent.ReplacedAll compacted]
  /\ retryLoop st
     = match chat 1 (Agent.messages st1) containerId with
       | Agent.ChatOk response inputTokens _ =>
           Some (onSuccess 1 response inputTokens (Agent.withChat 1 st1))
       | Agent.ChatThrows message' =>
           Some (Agent.onError message' (Agent.withChat 1 st1))
       end.
Proof.
  intros Hchat Hover compacted st1.
  split; [ reflexivity | ]. split; [ reflexivity | ].
  split.
  - subst st1. cbn [Agent.trace Agent.compactAndReplace Agent.withChat].
    now rewrite <- app_assoc.
  - rewrite retryLoop_unrolled, Hchat, Hover. reflexivity.
Qed.

(** The error branch writes nothing: the turn "Error: ..." is pushed onto
    the in-memory list only, and the database is the one the failed
    attempt started from. *)
Lemma onError_database (message : option string) (st : Agent.State) :
  Agent.db (Agent.onError message st) = Agent.db st
  /\ Agent.trace (Agent.onError message st) = Agent.trace st
  /\ Agent.messages (Agent.onError message st)
     = Agent.messages st
       ++ [mkCore assistant ("Error: " ++ Js.messageOrUndefined message)%string].
Proof. repeat split. Qed.

Lemma failure_without_overflow (st : Agent.State) (message : option string) :
  chat 0 (Agent.messages st) containerId = Agent.ChatThrows message ->
  isContextOverflowError (Js.ErrorObject message) = false ->
  exists st',
    retryLoop st = Some st'
    /\ Agent.db st' = Agent.db st
    /\ Agent.trace st' = Agent.trace st ++ [Agent.ChatCalled 0]
    /\ Agent.messages st'
       = Agent.messages st
         ++ [mkCore assistant ("Error: " ++ Js.messageOrUndefined message)%string].
Proof.
  intros Hchat Hover. rewrite retryLoop_unrolled, Hchat, Hover.
  eexists. split; [ reflexivity | ]. repeat split.
Qed.

End AttemptLoop.


(** C4, where the loop departs from it.  When [chat] fails with a message
    that is no overflow, or fails with an overflow on both attempts, the
    loop stops after one, respectively two, calls of [chat], and the turn
    "Error: ..." is in the in-memory list, but no [saveMessage] ran for it:
    the session's stored turns do not contain it. *)
Theorem error_turn_not_persisted :
  let uuid := fun n => ("uuid-" ++ Js.showNat n)%string in
  let clock := fun n => Z.of_nat n in
  let rejecting := fun (_ : Z) (_ : CreateParams) => @Js.Rejected Response Js.Nullish in
  let failing := fun text (_ : Z) (_ : list CoreMessage) (_ : string) =>
                   Agent.ChatThrows (Some text) in
  (exists st',
      Agent.retryLoop (failing "rate limit reached"%string) rejecting uuid clock "s" "c"
                      afterInput = Some st'
      /\ isContextOverflowError (Js.ErrorObject (Some "rate limit reached")) = false
      /\ chatAttempts (Agent.trace st') = [0]
      /\ Agent.messages st'
         = [mkCore user "hi"; mkCore assistant "Error: rate limit reached"]
      /\ loadMessages (Agent.db st') "s" = [mkCore user "hi"]
      /\ appended (Agent.trace st') = [mkCore user "hi"])
  /\ (exists st',
      Agent.retryLoop (failing "prompt is too long"%string) rejecting uuid clock "s" "c"
                      afterInput = Some st'
      /\ isContextOverflowError (Js.ErrorObject (Some "prompt is too long")) = true
      /\ chatAttempts (Agent.trace st') = [0; 1]
      /\ replacements (Agent.trace st') = [[mkCore user "hi"]]
      /\ Agent.messages st'
         = [mkCore user "hi"; mkCore assistant "Error: prompt is too long"]
      /\ loadMessages (Agent.db st') "s" = [mkCore user "hi"]
      /\ appended (Agent.trace st') = [mkCore user "hi"]).
Proof.
  cbv zeta. split.
  - eexists. split; [ vm_compute; reflexivity | ].
    repeat split; vm_compute; reflexivity.
  - eexists. split; [ vm_compute; reflexivity | ].
    repeat split; vm_compute; reflexivity.
Qed.

(** The success branch, by contrast, saves the assistant turn before it
    pushes it. *)
Example success_turn_persisted :
  let uuid := fun n => ("uuid-" ++ Js.showNat n)%string in
  let clock := fun n => Z.of_nat n in
  let rejecting := fun (_ : Z) (_ : CreateParams) => @Js.Rejected Response Js.Nullish in
  let answering := fun (_ : Z) (_ : list CoreMessage) (_ : string) =>
                     Agent.ChatOk "hello" 12 3 in
  exists st',
    Agent.retryLoop answering rejecting uuid clock "s" "c" afterInput = Some st'
    /\ Agent.messages st' = [mkCore user "hi"; mkCore assistant "hello"]
    /\ loadMessages (Agent.db st') "s" = [mkCore user "hi"; mkCore assistant "hello"].
Proof.
  cbv zeta. eexists. split; [ vm_compute; reflexivity | ].
  split; vm_compute; reflexivity.
Qed.

(** Overflow on the first attempt and an answer on the second: one
    [saveCompactedMessages], two calls of [chat], and the answer stored. *)
Example overflow_then_success :
  let uuid := fun n => ("uuid-" ++ Js.showNat n)%string in
  let clock := fun n => Z.of_nat n in
  let rejecting := fun (_ : Z) (_ : CreateParams) => @Js.Rejected Response Js.Nullish in
  let chat := fun (attempt : Z) (_ : list CoreMessage) (_ : string) =>
                if attempt =? 0 then Agent.ChatThrows (Some "context window exceeded")
                else Agent.ChatOk "done" 12 3 in
  exists st',
    Agent.retryLoop chat rejecting uuid clock "s" "c" afterInput = Some st'
    /\ chatAttempts (Agent.trace st') = [0; 1]
    /\ replacements (Agent.trace st') = [[mkCore user "hi"]]
    /\ loadMessages (Agent.db st') "s" = [mkCore user "hi"; mkCore assistant "done"].
Proof.
  cbv zeta. eexists. split; [ vm_compute; reflexivity | ].
  repeat split; vm_compute; reflexivity.
Qed.

(* ===================================================================== *)
(** * Further properties of the message store                             *)
(* ===================================================================== *)

Lemma insertBy_asc_snoc (y x : MessageRow) (l : list MessageRow) :
  message_sequence y <= message_sequence x ->
  insertBy ascSequence y (l ++ [x]) = insertBy ascSequence y l ++ [x].
Proof.
  intros Hle. induction l as [ | z l IH ]; cbn [app insertBy].
  - unfold ascSequence.
    destruct (Z.leb_spec (message_sequence y) (message_sequence x)); [ reflexivity | lia ].
  - destruct (ascSequence y z); [ reflexivity | ]. now rewrite IH.
Qed.

(** A row above all others sorts to the end, whatever the order of the
    others. *)
Lemma orderBy_asc_snoc (x : MessageRow) (l : list MessageRow) :
  Forall (fun y => message_sequence y < message_sequence x) l ->
  orderBy ascSequence (l ++ [x]) = orderBy ascSequence l ++ [x].
Proof.
  induction 1 as [ | y l Hy Hall IH ]; [ reflexivity | ].
  cbn [app orderBy]. rewrite IH. apply insertBy_asc_snoc. lia.
Qed.

Lemma loadMessages_rows (db db' : Db) (sessionId : string) :
  filter (ofSession sessionId) (messages db') = filter (ofSession sessionId) (messages db) ->
  loadMessages db' sessionId = loadMessages db sessionId.
Proof.
  intros H. unfold loadMessages, selectMessages. now rewrite H.
Qed.

Lemma loadMessages_saveMessage (db : Db) (sessionId : string) (r : Role)
    (text uuid : string) (createdAt updatedAt : Z) :
  loadMessages (saveMessage db sessionId r text uuid createdAt updatedAt) sessionId
  = loadMessages db sessionId ++ [mkCore r text].
Proof.
  unfold loadMessages, selectMessages.
  rewrite saveMessage_rows, String.eqb_refl.
  rewrite orderBy_asc_snoc.
  - rewrite map_app. reflexivity.
  - destruct (nextSequence_spec db sessionId) as (_ & _ & Hlt). exact Hlt.
Qed.

Lemma loadMessages_saveMessage_other (db : Db) (sessionId other : string) (r : Role)
    (text uuid : string) (createdAt updatedAt : Z) :
  other <> sessionId ->
  loadMessages (saveMessage db sessionId r text uuid createdAt updatedAt) other
  = loadMessages db other.
Proof.
  intros Hne. apply loadMessages_rows. rewrite saveMessage_rows.
  destruct (String.eqb_spec other sessionId); [ contradiction | reflexivity ].
Qed.

Lemma loadMessages_saveCompacted (db : Db) (sessionId : string)
    (turns : list CoreMessage) (uuid : nat -> string) (createdAt : nat -> Z) :
  loadMessages (saveCompactedMessages db sessionId turns uuid createdAt) sessionId = turns.
Proof.
  unfold loadMessages, selectMessages.
  rewrite saveCompacted_rows, String.eqb_refl.
  rewrite orderBy_asc_sorted by apply compactedRows_sorted.
  apply compactedRows_core.
Qed.

(** X1.  Appending and loading: from any database whose sequence numbers
    for the session are below 2^53 in absolute value (so that the code's
    double-precision [+ 1] is the exact one), even one whose rows are out
    of order, the number [saveMessage] assigns is above every stored one
    and still at most 2^53, [loadMessages] after [saveMessage] is the
    previous load with the new turn at the end, and every other session
    loads as before. *)
Theorem save_then_load (db : Db) (sessionId : string) (r : Role)
    (text uuid : string) (createdAt updatedAt : Z) :
  safeSequences db sessionId ->
  let db' := saveMessage db sessionId r text uuid createdAt updatedAt in
  - 2 ^ 53 < nextSequence db sessionId <= 2 ^ 53
  /\ Forall (fun row => message_sequence row < nextSequence db sessionId)
            (filter (ofSession sessionId) (messages db))
  /\ loadMessages db' sessionId = loadMessages db sessionId ++ [mkCore r text]
  /\ (forall other, other <> sessionId ->
        loadMessages db' other = loadMessages db other).
Proof.
  intros Hsafe db'.
  destruct (nextSequence_spec db sessionId) as (Hnone & Hsome & Hlt).
  split.
  { unfold safeSequences in Hsafe.
    destruct (filter (ofSession sessionId) (messages db)) as [ | row rows ] eqn:E.
    - rewrite Hnone by reflexivity. lia.
    - destruct Hsome as (top & Hin & _ & ->); [ discriminate | ].
      rewrite Forall_forall in Hsafe. specialize (Hsafe top Hin). lia. }
  split; [ exact Hlt | ].
  split.
  - apply loadMessages_saveMessage.
  - intros other Hne. now apply loadMessages_saveMessage_other.
Qed.

Lemma save_then_load_witness :
  let db := {| sessions := [];
               messages := [ mkMessage "a" "s" user "late" 1 7;
                             mkMessage "b" "t" user "else" 2 0;
                             mkMessage "c" "s" assistant "early" 3 2 ];
               dockerContainers := [] |} in
  let db' := saveMessage db "s" user "new" "d" 4 4 in
  safeSequences db "s"
  /\ "t"%string <> "s"%string
  /\ nextSequence db "s" = 8
  /\ loadMessages db' "s"
     = [mkCore assistant "early"; mkCore user "late"; mkCore user "new"]
  /\ loadMessages db' "t" = [mkCore user "else"].
Proof.
  cbv zeta.
  assert (Hsafe : safeSequences
                    {| sessions := [];
                       messages := [ mkMessage "a" "s" user "late" 1 7;
                                     mkMessage "b" "t" user "else" 2 0;
                                     mkMessage "c" "s" assistant "early" 3 2 ];
                       dockerContainers := [] |} "s").
  { unfold safeSequences. cbn. repeat constructor; cbn; lia. }
  split; [ exact Hsafe | ]. split; [ discriminate | ]. split; [ reflexivity | ].
  destruct (save_then_load
              {| sessions := [];
                 messages := [ mkMessage "a" "s" user "late" 1 7;
                               mkMessage "b" "t" user "else" 2 0;
                               mkMessage "c" "s" assistant "early" 3 2 ];
                 dockerContainers := [] |}
              "s" user "new" "d" 4 4 Hsafe) as (_ & _ & Hload & Hother).
  split; [ exact Hload | ].
  rewrite (Hother "t"%string); [ reflexivity | discriminate ].
Defined.

(** X2.  [clearMessages] empties the session: its load is the empty list,
    every other session loads as before, and the sessions and container
    tables are untouched. *)
Theorem clear_then_load (db : Db) (sessionId : string) :
  let db' := clearMessages db sessionId in
  loadMessages db' sessionId = []
  /\ nextSequence db' sessionId = 0
  /\ (forall other, other <> sessionId ->
        loadMessages db' other = loadMessages db other)
  /\ sessions db' = sessions db
  /\ dockerContainers db' = dockerContainers db.
Proof.
  intros db'.
  assert (Hnone : filter (ofSession sessionId) (messages db') = []).
  { subst db'. unfold clearMessages. cbn [messages].
    apply filter_none. intros row Hin. apply filter_In in Hin.
    destruct Hin as [_ Hin]. now destruct (ofSession sessionId row). }
  split; [ unfold loadMessages, selectMessages; now rewrite Hnone | ].
  split; [ now apply (nextSequence_spec db' sessionId) | ].
  split; [ | split; reflexivity ].
  intros other Hne. apply loadMessages_rows.
  subst db'. unfold clearMessages. cbn [messages].
  apply filter_filter_implied. intros row Hrow. apply ofSession_eq in Hrow.
  destruct (ofSession sessionId row) eqn:E; [ | reflexivity ].
  apply ofSession_eq in E. congruence.
Qed.

Lemma clear_then_load_witness :
  let db := saveMessage (saveMessage initDb "s" user "one" "a" 1 1)
                        "t" user "two" "b" 2 2 in
  "t"%string <> "s"%string
  /\ loadMessages (clearMessages db "s") "t" = [mkCore user "two"].
Proof.
  cbv zeta. split; [ discriminate | ].
  destruct (clear_then_load
              (saveMessage (saveMessage initDb "s" user "one" "a" 1 1)
                           "t" user "two" "b" 2 2) "s")
    as (_ & _ & Hother & _).
  rewrite (Hother "t"%string); [ reflexivity | discriminate ].
Defined.

Lemma session_exists_iff (db : Db) (id : string) :
  (0 <? Z.of_nat (List.length
                    (firstn 1 (filter (fun r => String.eqb (session_id r) id)
                                      (sessions db))))) = true
  <-> exists row, In row (sessions db) /\ session_id row = id.
Proof.
  set (f := fun r => String.eqb (session_id r) id).
  split.
  - destruct (filter f (sessions db)) as [ | row rest ] eqn:E; [ discriminate | ].
    intros _. exists row.
    assert (Hin : In row (filter f (sessions db))) by (rewrite E; now left).
    apply filter_In in Hin. destruct Hin as [Hin Hf]. split; [ exact Hin | ].
    now apply String.eqb_eq.
  - intros (row & Hin & Hid).
    assert (Hf : In row (filter f (sessions db))).
    { apply filter_In. split; [ exact Hin | ]. unfold f. now apply String.eqb_eq. }
    destruct (filter f (sessions db)); [ contradiction | reflexivity ].
Qed.

(** X3.  [getOrCreateSession] resumes exactly the known sessions: given a
    non-empty id that some session row carries, whichever row of the
    table it is, it returns that id and leaves the database unchanged;
    given no id, an empty id or an id that no row carries, it returns the
    fresh UUID and appends exactly one row for it, all other rows and
    tables staying as they were.  Either way the id returned has a row
    afterwards, and resuming with a non-empty id just returned changes
    nothing. *)
Theorem getOrCreateSession_resumes (db : Db) (given : option string)
    (uuid : string) (createdAt updatedAt : Z) :
  let out := getOrCreateSession db given uuid createdAt updatedAt in
  let fresh := ({| sessions := sessions db ++ [mkSession uuid createdAt updatedAt];
                   messages := messages db;
                   dockerContainers := dockerContainers db |}, uuid) in
  (forall id, given = Some id -> Js.truthy id = true ->
     (exists row, In row (sessions db) /\ session_id row = id) ->
     out = (db, id))
  /\ (given = None -> out = fresh)
  /\ (forall id, given = Some id -> Js.truthy id = false -> out = fresh)
  /\ (forall id, given = Some id ->
        (forall row, In row (sessions db) -> session_id row <> id) ->
        out = fresh)
  /\ (exists row, In row (sessions (fst out)) /\ session_id row = snd out)
  /\ messages (fst out) = messages db
  /\ dockerContainers (fst out) = dockerContainers db
  /\ (Js.truthy (snd out) = true ->
      forall uuid' createdAt' updatedAt',
        getOrCreateSession (fst out) (Some (snd out)) uuid' createdAt' updatedAt' = out).
Proof.
  intros out fresh.
  assert (Hknown : forall id, given = Some id -> Js.truthy id = true ->
                     (exists row, In row (sessions db) /\ session_id row = id) ->
                     out = (db, id)).
  { intros id -> Ht Hex. subst out. unfold getOrCreateSession. rewrite Ht.
    apply session_exists_iff in Hex. now rewrite Hex. }
  assert (Hunknown : forall id, given = Some id ->
                       (forall row, In row (sessions db) -> session_id row <> id) ->
                       out = fresh).
  { intros id -> Hnone. subst out fresh. unfold getOrCreateSession.
    destruct (Js.truthy id); [ | reflexivity ].
    destruct (0 <? _) eqn:E; [ | reflexivity ].
    apply session_exists_iff in E. destruct E as (row & Hin & Hid).
    now apply Hnone in Hin. }
  assert (Hcases : (exists id, given = Some id /\ Js.truthy id = true
                               /\ (exists row, In row (sessions db) /\ session_id row = id)
                               /\ out = (db, id))
                   \/ out = fresh).
  { destruct given as [id | ]; [ | right; reflexivity ].
    destruct (Js.truthy id) eqn:Ht; [ | right; subst out; unfold getOrCreateSession;
                                        now rewrite Ht ].
    destruct (0 <? Z.of_nat (List.length
                (firstn 1 (filter (fun r => String.eqb (session_id r) id) (sessions db)))))
      eqn:E.
    - apply session_exists_iff in E. left. exists id. repeat split; try assumption.
      now apply Hknown.
    - right. apply (Hunknown id eq_refl). intros row Hin Hid.
      assert (Hex : exists row, In row (sessions db) /\ session_id row = id) by eauto.
      apply session_exists_iff in Hex. congruence. }
  assert (Hrow : exists row, In row (sessions (fst out)) /\ session_id row = snd out).
  { destruct Hcases as [(id & _ & _ & (row & Hin & Hid) & ->) | ->].
    - exists row. cbn [fst snd]. split; assumption.
    - subst fresh. cbn [fst snd sessions].
      exists (mkSession uuid createdAt updatedAt). split; [ | reflexivity ].
      apply in_or_app. right. now left. }
  split; [ exact Hknown | ].
  split.
  { intros ->. reflexivity. }
  split.
  { intros id -> Ht. subst out fresh. unfold getOrCreateSession. now rewrite Ht. }
  split; [ exact Hunknown | ].
  split; [ exact Hrow | ].
  split.
  { destruct Hcases as [(id & _ & _ & _ & ->) | ->]; reflexivity. }
  split.
  { destruct Hcases as [(id & _ & _ & _ & ->) | ->]; reflexivity. }
  intros Ht uuid' createdAt' updatedAt'.
  unfold getOrCreateSession at 1. rewrite Ht.
  apply session_exists_iff in Hrow. rewrite Hrow.
  now destruct out.
Qed.

Lemma getOrCreateSession_resumes_witness :
  let db := {| sessions := [mkSession "3f2a" 10 11; mkSession "77b0" 12 13];
               messages := []; dockerContainers := [] |} in
  Js.truthy "3f2a" = true
  /\ getOrCreateSession db (Some "3f2a") "9c1d" 20 21 = (db, "3f2a"%string)
  /\ getOrCreateSession db (Some "unknown") "9c1d" 20 21
     = ({| sessions := [mkSession "3f2a" 10 11; mkSession "77b0" 12 13;
                        mkSession "9c1d" 20 21];
           messages := []; dockerContainers := [] |}, "9c1d"%string)
  /\ getOrCreateSession db (Some "") "9c1d" 20 21
     = getOrCreateSession db None "9c1d" 20 21.
Proof.
  cbv zeta. split; [ reflexivity | ].
  destruct (getOrCreateSession_resumes
              {| sessions := [mkSession "3f2a" 10 11; mkSession "77b0" 12 13];
                 messages := []; dockerContainers := [] |}
              (Some "3f2a"%string) "9c1d" 20 21) as (Hknown & _).
  split.
  { apply (Hknown "3f2a"%string eq_refl eq_refl).
    exists (mkSession "3f2a" 10 11). split; [ now left | reflexivity ]. }
  destruct (getOrCreateSession_resumes
              {| sessions := [mkSession "3f2a" 10 11; mkSession "77b0" 12 13];
                 messages := []; dockerContainers := [] |}
              (Some "unknown"%string) "9c1d" 20 21) as (_ & _ & _ & Hunknown & _).
  split; [ | reflexivity ].
  apply (Hunknown "unknown"%string eq_refl).
  intros row [<- | [<- | []]]; discriminate.
Defined.

(** X4.  [saveMessage] changes neither the ids nor the creation times nor
    the number of the session rows, nor the container table; for a session
    id without a row it leaves the sessions table as it is and stores the
    turn all the same. *)
Theorem saveMessage_frame (db : Db) (sessionId : string) (r : Role)
    (text uuid : string) (createdAt updatedAt : Z) :
  let db' := saveMessage db sessionId r text uuid createdAt updatedAt in
  map session_id (sessions db') = map session_id (sessions db)
  /\ map session_createdAt (sessions db') = map session_createdAt (sessions db)
  /\ dockerContainers db' = dockerContainers db
  /\ (forall row, In row (sessions db) -> session_id row <> sessionId ->
        In row (sessions db'))
  /\ ((forall row, In row (sessions db) -> session_id row <> sessionId) ->
      sessions db' = sessions db
      /\ loadMessages db' sessionId = loadMessages db sessionId ++ [mkCore r text]).
Proof.
  intros db'. subst db'. unfold saveMessage at 1 2 3 4 5. cbn [sessions dockerContainers].
  split.
  { rewrite map_map. apply map_ext. intros s.
    now destruct (String.eqb (session_id s) sessionId). }
  split.
  { rewrite map_map. apply map_ext. intros s.
    now destruct (String.eqb (session_id s) sessionId). }
  split; [ reflexivity | ].
  split.
  { intros row Hin Hne. apply in_map_iff. exists row. split; [ | exact Hin ].
    destruct (String.eqb_spec (session_id row) sessionId); [ contradiction | reflexivity ]. }
  intros Hnone. split; [ | apply loadMessages_saveMessage ].
  rewrite <- (map_id (sessions db)) at 2. apply map_ext_in.
  intros row Hin.
  destruct (String.eqb_spec (session_id row) sessionId) as [E | _]; [ | reflexivity ].
  now apply Hnone in Hin.
Qed.

Lemma saveMessage_frame_witness :
  let db := fst (getOrCreateSession initDb None "s" 1 1) in
  let db' := saveMessage db "ghost" user "hi" "m0" 5 6 in
  sessions db' = [mkSession "s" 1 1]
  /\ loadMessages db' "ghost" = [mkCore user "hi"].
Proof.
  cbv zeta.
  destruct (saveMessage_frame (fst (getOrCreateSession initDb None "s" 1 1))
                              "ghost" user "hi" "m0" 5 6)
    as (_ & _ & _ & _ & H).
  destruct H as [Hs Hl].
  - intros row [<- | []]. discriminate.
  - split; [ exact Hs | exact Hl ].
Defined.

Lemma clearMessages_rows (db : Db) (sessionId other : string) :
  filter (ofSession other) (messages (clearMessages db sessionId))
  = if String.eqb other sessionId then []
    else filter (ofSession other) (messages db).
Proof.
  unfold clearMessages. cbn [messages].
  destruct (String.eqb_spec other sessionId) as [-> | Hne].
  - apply filter_none. intros row Hin. apply filter_In in Hin.
    destruct Hin as [_ Hin]. now destruct (ofSession sessionId row).
  - apply filter_filter_implied. intros row Hrow. apply ofSession_eq in Hrow.
    destruct (ofSession sessionId row) eqn:E; [ | reflexivity ].
    apply ofSession_eq in E. congruence.
Qed.

Lemma gapless_nextSequence (db : Db) (sessionId : string) :
  gapless db ->
  nextSequence db sessionId
  = Z.of_nat (List.length (filter (ofSession sessionId) (messages db))).
Proof.
  intros Hg. specialize (Hg sessionId). cbv zeta in Hg.
  destruct (nextSequence_spec db sessionId) as (Hnone & Hsome & _).
  set (rows := filter (ofSession sessionId) (messages db)) in *.
  destruct rows as [ | r0 rest ] eqn:E; [ now rewrite Hnone | ].
  destruct Hsome as (top & Hin & Hmax & ->); [ discriminate | ].
  set (n := List.length (r0 :: rest)) in *.
  assert (Hn : (0 < n)%nat) by (subst n; cbn; lia).
  assert (Hup : message_sequence top < Z.of_nat n).
  { assert (H : In (message_sequence top) (map message_sequence (r0 :: rest)))
      by now apply in_map.
    rewrite Hg in H. apply in_map_iff in H. destruct H as (i & <- & Hi).
    apply in_seq in Hi. lia. }
  assert (Hlow : Z.of_nat n - 1 <= message_sequence top).
  { assert (H : In (Z.of_nat (n - 1)) (map message_sequence (r0 :: rest))).
    { rewrite Hg. apply in_map. apply in_seq. lia. }
    apply in_map_iff in H. destruct H as (row & Hrow & Hin').
    rewrite Forall_forall in Hmax. specialize (Hmax row Hin'). lia. }
  lia.
Qed.

Lemma apply_gapless (db : Db) (op : Op) : gapless db -> gapless (apply db op).
Proof.
  intros Hg other. cbv zeta. destruct op; cbn [apply].
  - rewrite getOrCreateSession_messages. apply Hg.
  - rewrite saveMessage_rows.
    destruct (String.eqb_spec other sessionId) as [-> | _]; [ | apply Hg ].
    rewrite map_app, length_app. cbn [map List.length message_sequence].
    rewrite Nat.add_1_r, seq_S, map_app. cbn [map Nat.add].
    rewrite (Hg sessionId), gapless_nextSequence by assumption. reflexivity.
  - rewrite clearMessages_rows.
    destruct (String.eqb other sessionId); [ reflexivity | apply Hg ].
  - rewrite saveCompacted_rows.
    destruct (String.eqb other sessionId); [ | apply Hg ].
    rewrite compactedRows_sequences. f_equal. f_equal.
    rewrite <- (length_map message_sequence), compactedRows_sequences.
    now rewrite length_map, length_seq.
Qed.

Lemma applyAll_gapless (ops : list Op) (db : Db) :
  gapless db -> gapless (applyAll db ops).
Proof.
  unfold applyAll. revert db.
  induction ops as [ | op ops IH ]; intros db Hg; cbn [fold_left]; [ exact Hg | ].
  apply IH, apply_gapless, Hg.
Qed.

(** X5.  The code keeps sequence numbers without gaps: after any sequence
    of store calls on a fresh database, the [n] rows that [loadMessages]
    selects for a session are numbered exactly 0 .. n-1, and the next
    [saveMessage] of that session gets the number [n]. *)
Theorem store_sequences_gapless (ops : list Op) (sessionId : string) :
  let db := applyAll initDb ops in
  let n := List.length (loadMessages db sessionId) in
  map message_sequence (selectMessages db sessionId) = map Z.of_nat (seq 0 n)
  /\ nextSequence db sessionId = Z.of_nat n.
Proof.
  intros db n.
  assert (Hg : gapless db).
  { apply applyAll_gapless. intros s. reflexivity. }
  assert (Hw : wellSequenced db)
    by (apply applyAll_wellSequenced, initDb_wellSequenced).
  assert (Hsel : selectMessages db sessionId = filter (ofSession sessionId) (messages db))
    by (apply orderBy_asc_sorted, Hw).
  assert (Hn : n = List.length (filter (ofSession sessionId) (messages db))).
  { subst n. unfold loadMessages. now rewrite length_map, Hsel. }
  split.
  - rewrite Hsel, Hn. apply Hg.
  - rewrite Hn. now apply gapless_nextSequence.
Qed.

(* ===================================================================== *)
(** * Further properties of the compactor                                 *)
(* ===================================================================== *)

(** Both slices of [compactMessages] cut the array at one index. *)
Lemma slices_cut {A : Type} (l : list A) (k : Z) :
  let cut := Z.to_nat (Js.relIndex (Z.of_nat (List.length l)) (- k)) in
  Js.slice l 0 (Some (- k)) = firstn cut l
  /\ Js.slice l (- k) None = skipn cut l
  /\ (cut <= List.length l)%nat.
Proof.
  intros cut. unfold Js.slice.
  assert (Hz : Js.relIndex (Z.of_nat (List.length l)) 0 = 0).
  { unfold Js.relIndex. cbn. lia. }
  assert (Hb : 0 <= Js.relIndex (Z.of_nat (List.length l)) (- k)
               <= Z.of_nat (List.length l)).
  { unfold Js.relIndex. destruct (Z.ltb_spec (- k) 0); lia. }
  split; [ | split ].
  - rewrite Hz. cbn [Z.to_nat skipn]. now rewrite Z.sub_0_r.
  - fold cut. apply firstn_all2. rewrite length_skipn. subst cut. lia.
  - subst cut. lia.
Qed.

Lemma notSystem_filter_all (msgs : list CoreMessage) :
  Forall (fun m => notSystem m = true) (filter notSystem msgs).
Proof. apply Forall_forall. intros m Hm. now apply filter_In in Hm. Qed.

Lemma isSystem_filter_all (msgs : list CoreMessage) :
  Forall (fun m => isSystem m = true) (filter isSystem msgs).
Proof. apply Forall_forall. intros m Hm. now apply filter_In in Hm. Qed.

Lemma filter_isSystem_of_nonSystem (l : list CoreMessage) :
  Forall (fun m => notSystem m = true) l -> filter isSystem l = [] /\ filter notSystem l = l.
Proof.
  intros H. split.
  - apply filter_none. intros m Hm. rewrite Forall_forall in H. specialize (H m Hm).
    unfold notSystem, isSystem in *. now destruct (Role_eqb (role m) system).
  - apply filter_all. now apply Forall_forall.
Qed.

Lemma filter_notSystem_of_system (l : list CoreMessage) :
  Forall (fun m => isSystem m = true) l -> filter notSystem l = [] /\ filter isSystem l = l.
Proof.
  intros H. split.
  - apply filter_none. intros m Hm. rewrite Forall_forall in H. specialize (H m Hm).
    unfold notSystem, isSystem in *. now destruct (Role_eqb (role m) system).
  - apply filter_all. now apply Forall_forall.
Qed.

(** What [compactMessages] does, for every integer [keepLast]. *)
Lemma compactMessages_shape (msgs : list CoreMessage) (keepLast : Z) :
  let Sys := filter isSystem msgs in
  let M := filter notSystem msgs in
  let cut := Z.to_nat (Js.relIndex (Z.of_nat (List.length M)) (- keepLast)) in
  let old := firstn cut M in
  let recent := skipn cut M in
  (old = [] /\ compactMessages msgs keepLast = Return msgs)
  \/ (old <> [] /\
      compactMessages msgs keepLast
      = Await (summaryRequest (Js.join (Js.LF ++ Js.LF)%string (map renderTurn old)))
          (fun settled =>
             match settled with
             | Js.Fulfilled response =>
                 Sys ++ [summaryTurn (List.length old) (textOf (blocks response))]
                     ++ recent
             | Js.Rejected _ => Sys ++ recent
             end)).
Proof.
  intros Sys M cut old recent. unfold compactMessages. fold Sys M.
  destruct (slices_cut M keepLast) as (Hold & Hrecent & _).
  fold cut in Hold, Hrecent. rewrite Hold, Hrecent. fold old recent.
  destruct old as [ | o old' ]; [ left; split; reflexivity | ].
  right. split; [ discriminate | reflexivity ].
Qed.

(** X6.  For every integer [keepLast], the turns [compactMessages]
    summarizes ([old]) and the turns it keeps ([recent]) split the
    non-system turns in two, in order; a positive [keepLast] keeps that
    many turns (or all, if there are fewer), zero summarizes none, and a
    negative one summarizes that many leading turns.  Nothing is requested
    exactly when [old] is empty, and then the input is returned. *)
Theorem compact_partitions (msgs : list CoreMessage) (keepLast : Z) :
  let Sys := filter isSystem msgs in
  let M := filter notSystem msgs in
  exists old recent,
    old ++ recent = M
    /\ (0 < keepLast ->
        Z.of_nat (List.length recent) = Z.min keepLast (Z.of_nat (List.length M)))
    /\ (keepLast = 0 -> old = [])
    /\ (keepLast < 0 ->
        Z.of_nat (List.length old) = Z.min (- keepLast) (Z.of_nat (List.length M)))
    /\ match compactMessages msgs keepLast with
       | Return out => old = [] /\ out = msgs
       | Await request resume =>
           old <> []
           /\ request
              = summaryRequest (Js.join (Js.LF ++ Js.LF)%string (map renderTurn old))
           /\ (forall response,
                 resume (Js.Fulfilled response)
                 = Sys ++ [summaryTurn (List.length old) (textOf (blocks response))]
                       ++ recent)
           /\ (forall reason, resume (Js.Rejected reason) = Sys ++ recent)
       end.
Proof.
  intros Sys M.
  set (cut := Z.to_nat (Js.relIndex (Z.of_nat (List.length M)) (- keepLast))).
  exists (firstn cut M), (skipn cut M).
  assert (Hcut : (cut <= List.length M)%nat) by apply (slices_cut M keepLast).
  split; [ apply firstn_skipn | ].
  split.
  { intros Hk. rewrite length_skipn. subst cut. unfold Js.relIndex.
    destruct (Z.ltb_spec (- keepLast) 0); lia. }
  split.
  { intros ->. subst cut. unfold Js.relIndex. cbn [Z.opp Z.ltb Z.compare].
    rewrite Z.min_l by lia. reflexivity. }
  split.
  { intros Hk. rewrite length_firstn. subst cut. unfold Js.relIndex.
    destruct (Z.ltb_spec (- keepLast) 0); lia. }
  destruct (compactMessages_shape msgs keepLast) as [[Hold Heq] | [Hold Heq]];
    cbv zeta in Hold, Heq; fold Sys M cut in Hold, Heq; rewrite Heq.
  - split; [ exact Hold | reflexivity ].
  - split; [ exact Hold | ]. repeat split.
Qed.

Lemma compact_partitions_witness :
  let msgs := [mkCore user "a"; mkCore system "rules"; mkCore assistant "b"; mkCore user "c"] in
  run (fun _ => Js.Rejected Js.Nullish) (compactMessages msgs (-1))
  = [mkCore system "rules"; mkCore assistant "b"; mkCore user "c"]
  /\ exists old recent,
       old ++ recent = filter notSystem msgs /\ List.length old = 1%nat.
Proof.
  cbv zeta. split; [ reflexivity | ].
  destruct (compact_partitions
              [mkCore user "a"; mkCore system "rules"; mkCore assistant "b"; mkCore user "c"]
              (-1))
    as (old & recent & Hsplit & _ & _ & Hneg & _).
  exists old, recent. split; [ exact Hsplit | ].
  specialize (Hneg eq_refl). cbn in Hneg. lia.
Defined.

(** X7.  Whatever [keepLast] is and however the request settles, the
    result of [compactMessages] has the system turns of the input, in
    their order, is never longer than the input, and its non-system turns
    are a final segment of the input's, preceded by at most one assistant
    turn (the summary). *)
Theorem compaction_never_grows (msgs : list CoreMessage) (keepLast : Z)
    (create : CreateParams -> Js.Settled Response) :
  let out := run create (compactMessages msgs keepLast) in
  filter isSystem out = filter isSystem msgs
  /\ (List.length out <= List.length msgs)%nat
  /\ exists old recent,
       filter notSystem msgs = old ++ recent
       /\ (filter notSystem out = recent
           \/ exists text, filter notSystem out = mkCore assistant text :: recent).
Proof.
  intros out.
  set (Sys := filter isSystem msgs). set (M := filter notSystem msgs).
  set (cut := Z.to_nat (Js.relIndex (Z.of_nat (List.length M)) (- keepLast))).
  assert (Hcut : (cut <= List.length M)%nat) by apply (slices_cut M keepLast).
  assert (HM : Forall (fun m => notSystem m = true) (skipn cut M)).
  { apply Forall_forall. intros m Hm.
    pose proof (notSystem_filter_all msgs) as H. rewrite Forall_forall in H.
    apply H. fold M. rewrite <- (firstn_skipn cut M). apply in_or_app. now right. }
  destruct (filter_isSystem_of_nonSystem _ HM) as [Hrs Hrn].
  destruct (filter_notSystem_of_system _ (isSystem_filter_all msgs)) as [Hsn Hss].
  fold Sys in Hsn, Hss.
  pose proof (partition_length msgs) as Hlen. fold Sys M in Hlen.
  destruct (compactMessages_shape msgs keepLast) as [[Hold Heq] | [Hold Heq]];
    cbv zeta in Hold, Heq; fold Sys M cut in Hold, Heq; subst out; rewrite Heq.
  - cbn [run]. split; [ reflexivity | ]. split; [ lia | ].
    exists [], M. split; [ reflexivity | ]. left. reflexivity.
  - cbn [run].
    assert (Hpos : (0 < cut)%nat).
    { destruct cut; [ | lia ]. now cbn in Hold. }
    destruct (create _) as [response | reason].
    + split; [ | split ].
      * rewrite !filter_app, Hss, Hrs. cbn. now rewrite app_nil_r.
      * rewrite !length_app, length_skipn. cbn [List.length]. lia.
      * exists (firstn cut M), (skipn cut M).
        split; [ symmetry; apply firstn_skipn | ].
        right. eexists. rewrite !filter_app, Hsn, Hrn. reflexivity.
    + split; [ | split ].
      * rewrite !filter_app, Hss, Hrs. now rewrite app_nil_r.
      * rewrite !length_app, length_skipn. lia.
      * exists (firstn cut M), (skipn cut M).
        split; [ symmetry; apply firstn_skipn | ].
        left. now rewrite !filter_app, Hsn, Hrn.
Qed.

(** X8.  Compaction is not idempotent on its own output.  After a
    fulfilled compaction with [1 <= keepLast < count], the result has
    [keepLast + 1] non-system turns, so compacting it again with the same
    [keepLast] sends a request for the summary turn alone: when fulfilled,
    the old summary is replaced by a "[Summary of 1 previous messages]"
    turn and the length stays the same; when rejected, the old summary is
    dropped and only the system and recent turns remain. *)
Theorem recompaction_replaces_summary (msgs : list CoreMessage) (n : nat)
    (response response' : Response) (reason : Js.any) :
  let Sys := filter isSystem msgs in
  let M := filter notSystem msgs in
  let recent := skipn (List.length M - n) M in
  let summary := summaryTurn (List.length M - n) (textOf (blocks response)) in
  let out := run (fun _ => Js.Fulfilled response) (compactMessages msgs (Z.of_nat n)) in
  (0 < n)%nat -> (n < List.length M)%nat ->
  out = Sys ++ [summary] ++ recent
  /\ List.length (filter notSystem out) = S n
  /\ match compactMessages out (Z.of_nat n) with
     | Return _ => False
     | Await request _ =>
         request = summaryRequest (renderTurn summary)
     end
  /\ run (fun _ => Js.Fulfilled response') (compactMessages out (Z.of_nat n))
     = Sys ++ [summaryTurn 1 (textOf (blocks response'))] ++ recent
  /\ List.length (run (fun _ => Js.Fulfilled response') (compactMessages out (Z.of_nat n)))
     = List.length out
  /\ run (fun _ => Js.Rejected reason) (compactMessages out (Z.of_nat n))
     = Sys ++ recent.
Proof.
  intros Sys M recent summary out Hn Hlt.
  assert (Hout : out = Sys ++ [summary] ++ recent).
  { subst out. rewrite compactMessages_awaits by assumption. cbn [run].
    fold Sys M recent. rewrite length_firstn.
    replace (Nat.min (List.length M - n) (List.length M)) with (List.length M - n)%nat
      by lia.
    reflexivity. }
  assert (Hrec : Forall (fun m => notSystem m = true) recent).
  { apply Forall_forall. intros m Hm.
    pose proof (notSystem_filter_all msgs) as H. rewrite Forall_forall in H.
    apply H. fold M. rewrite <- (firstn_skipn (List.length M - n) M).
    apply in_or_app. now right. }
  destruct (filter_isSystem_of_nonSystem _ Hrec) as [Hrs Hrn].
  destruct (filter_notSystem_of_system _ (isSystem_filter_all msgs)) as [Hsn Hss].
  fold Sys in Hsn, Hss.
  assert (Hlenr : List.length recent = n).
  { subst recent. rewrite length_skipn. lia. }
  assert (HS' : filter isSystem out = Sys).
  { rewrite Hout, !filter_app, Hss, Hrs. cbn. now rewrite app_nil_r. }
  assert (HM' : filter notSystem out = summary :: recent).
  { rewrite Hout, !filter_app, Hsn, Hrn. reflexivity. }
  assert (Hshape := compactMessages_awaits out n Hn).
  cbv zeta in Hshape. rewrite HS', HM' in Hshape.
  cbn [List.length] in Hshape. rewrite Hlenr in Hshape.
  replace (S n - n)%nat with 1%nat in Hshape by lia.
  cbn [firstn skipn map Js.join List.length] in Hshape.
  specialize (Hshape ltac:(lia)).
  split; [ exact Hout | ].
  split; [ rewrite HM'; cbn [List.length]; now rewrite Hlenr | ].
  rewrite Hshape. cbn [run].
  split; [ reflexivity | ].
  split; [ reflexivity | ].
  split; [ | reflexivity ].
  rewrite Hout, !length_app. reflexivity.
Qed.

Lemma recompaction_replaces_summary_witness :
  let msgs := [mkCore system "rules"; mkCore user "a"; mkCore assistant "b";
               mkCore user "c"] in
  let first := mkResponse [TextBlock "a then b"] "end_turn" 9 3 in
  let second := mkResponse [TextBlock "earlier summary"] "end_turn" 9 3 in
  let out := run (fun _ => Js.Fulfilled first) (compactMessages msgs 1) in
  (0 < 1)%nat /\ (1 < List.length (filter notSystem msgs))%nat
  /\ out = [mkCore system "rules";
            mkCore assistant ("[Summary of 2 previous messages]" ++ Js.LF ++ "a then b")%string;
            mkCore user "c"]
  /\ run (fun _ => Js.Fulfilled second) (compactMessages out 1)
     = [mkCore system "rules";
        mkCore assistant ("[Summary of 1 previous messages]" ++ Js.LF ++ "earlier summary")%string;
        mkCore user "c"].
Proof.
  cbv zeta. split; [ lia | ]. split; [ cbn; lia | ]. split; [ reflexivity | ].
  destruct (recompaction_replaces_summary
              [mkCore system "rules"; mkCore user "a"; mkCore assistant "b";
               mkCore user "c"] 1
              (mkResponse [TextBlock "a then b"] "end_turn" 9 3)
              (mkResponse [TextBlock "earlier summary"] "end_turn" 9 3)
              Js.Nullish) as (_ & _ & _ & H & _).
  - lia.
  - cbn. lia.
  - exact H.
Defined.

(** ** What the summarization request contains *)

Lemma string_append_assoc (a b c : string) :
  ((a ++ b) ++ c)%string = (a ++ b ++ c)%string.
Proof. induction a as [ | x a IH ]; cbn; [ reflexivity | now rewrite IH ]. Qed.

Lemma string_append_nil_r (a : string) : (a ++ "")%string = a.
Proof. induction a as [ | x a IH ]; cbn; [ reflexivity | now rewrite IH ]. Qed.

Lemma occursIn_self (s : string) : occursIn s s.
Proof. exists ""%string, ""%string. cbn. now rewrite string_append_nil_r. Qed.

Lemma occursIn_append (sub s before after : string) :
  occursIn sub s -> occursIn sub (before ++ s ++ after)%string.
Proof.
  intros (pre & post & ->). exists (before ++ pre)%string, (post ++ after)%string.
  now rewrite !string_append_assoc.
Qed.

Lemma occursIn_trans (a b c : string) : occursIn a b -> occursIn b c -> occursIn a c.
Proof. intros Hab (pre & post & ->). now apply occursIn_append. Qed.

Lemma occursIn_join (sep x : string) (pieces : list string) :
  In x pieces -> occursIn x (Js.join sep pieces).
Proof.
  induction pieces as [ | p rest IH ]; [ contradiction | ].
  intros [-> | Hin].
  - destruct rest as [ | q rest ]; [ apply occursIn_self | ].
    cbn [Js.join]. exists ""%string, (sep ++ Js.join sep (q :: rest))%string. reflexivity.
  - destruct rest as [ | q rest ]; [ contradiction | ].
    change (Js.join sep (p :: q :: rest))
      with (p ++ sep ++ Js.join sep (q :: rest))%string.
    specialize (IH Hin).
    rewrite <- string_append_assoc.
    rewrite <- (string_append_nil_r (Js.join sep (q :: rest))).
    now apply occursIn_append.
Qed.

(** X9.  Whenever [compactMessages] sends a request, it is one user
    message of at most 2048 output tokens whose text contains, for every
    turn that is about to be discarded, the line "<ROLE>: <content>" of
    that turn, hence its content. *)
Theorem summary_request_covers_discarded (msgs : list CoreMessage) (n : nat)
    request resume :
  let M := filter notSystem msgs in
  compactMessages msgs (Z.of_nat n) = Await request resume ->
  exists prompt,
    request = mkParams "claude-sonnet-4-20250514" 2048 [mkCore user prompt]
    /\ forall m, In m (firstn (List.length M - n) M) ->
         occursIn (Js.toUpperCase (roleText (role m)) ++ ": " ++ content m)%string prompt
         /\ occursIn (content m) prompt.
Proof.
  intros M Heq.
  destruct (compactMessages_shape msgs (Z.of_nat n)) as [[_ Hret] | [_ Haw]];
    [ rewrite Hret in Heq; discriminate | ].
  assert (Hn : (0 < n)%nat).
  { destruct n; [ | lia ]. change (Z.of_nat 0) with 0 in Heq.
    rewrite compactMessages_keep_zero in Heq. discriminate. }
  cbv zeta in Haw. fold M in Haw.
  replace (Z.to_nat (Js.relIndex (Z.of_nat (List.length M)) (- Z.of_nat n)))
    with (List.length M - n)%nat in Haw
    by (unfold Js.relIndex; destruct (Z.ltb_spec (- Z.of_nat n) 0); lia).
  rewrite Haw in Heq. injection Heq as <- _. unfold summaryRequest.
  eexists. split; [ reflexivity | ].
  intros m Hm.
  assert (Hline : occursIn (renderTurn m)
                    (Js.join (Js.LF ++ Js.LF)%string
                       (map renderTurn (firstn (List.length M - n) M)))).
  { apply occursIn_join. now apply in_map. }
  assert (Hprompt : occursIn (renderTurn m)
            ("Summarize this conversation concisely, keeping key decisions, code changes, and context:"
               ++ Js.LF ++ Js.LF
               ++ Js.join (Js.LF ++ Js.LF)%string
                    (map renderTurn (firstn (List.length M - n) M)))%string).
  { rewrite <- (string_append_nil_r (Js.join _ _)).
    rewrite <- !string_append_assoc. rewrite string_append_assoc.
    now apply occursIn_append. }
  split; [ exact Hprompt | ].
  eapply occursIn_trans; [ | exact Hprompt ].
  unfold renderTurn.
  exists (Js.toUpperCase (roleText (role m)) ++ ": ")%string, ""%string.
  now rewrite string_append_nil_r, string_append_assoc.
Qed.

Lemma summary_request_covers_discarded_witness :
  let msgs := [mkCore user "fix the parser"; mkCore assistant "done"; mkCore user "thanks"] in
  exists request resume prompt,
    compactMessages msgs 1 = Await request resume
    /\ request = mkParams "claude-sonnet-4-20250514" 2048 [mkCore user prompt]
    /\ occursIn "USER: fix the parser" prompt
    /\ occursIn "done" prompt.
Proof.
  cbv zeta.
  assert (E : exists request resume,
             compactMessages
               [mkCore user "fix the parser"; mkCore assistant "done"; mkCore user "thanks"] 1
             = Await request resume)
    by (eexists _, _; reflexivity).
  destruct E as (request & resume & E).
  destruct (summary_request_covers_discarded
              [mkCore user "fix the parser"; mkCore assistant "done"; mkCore user "thanks"]
              1 request resume E) as (prompt & Hreq & Hall).
  exists request, resume, prompt. split; [ exact E | ]. split; [ exact Hreq | ].
  split.
  - apply (Hall (mkCore user "fix the parser")). cbn. now left.
  - apply (Hall (mkCore assistant "done")). cbn. right. now left.
Defined.

(* ===================================================================== *)
(** * The revision without [keepLast]                                     *)
(* ===================================================================== *)

Lemma withIndex_length {A : Type} (l : list A) :
  List.length (Heuristic.withIndex l) = List.length l.
Proof.
  unfold Heuristic.withIndex. rewrite length_combine, length_seq. lia.
Qed.

Lemma combine_seq_snd {A : Type} (l : list A) (start : nat) :
  map snd (combine (seq start (List.length l)) l) = l.
Proof.
  revert start. induction l as [ | x l IH ]; intros start; [ reflexivity | ].
  cbn [List.length seq combine map snd]. now rewrite IH.
Qed.

Lemma find_combine_seq {A : Type} (p : A -> bool) (l : list A) (start : nat) :
  option_map snd (find (fun o => p (snd o)) (combine (seq start (List.length l)) l))
  = find p l.
Proof.
  revert start. induction l as [ | x l IH ]; intros start; [ reflexivity | ].
  cbn [List.length seq combine find snd]. destruct (p x); [ reflexivity | apply IH ].
Qed.

Lemma concat_text_blocks (bs : list ContentBlock) :
  String.concat ""
    (flat_map (fun b => match b with
                        | TextBlock t => [t]
                        | ToolUseBlock _ _ _ => []
                        end) bs)
  = textOf bs.
Proof.
  induction bs as [ | [t | i n inp] bs IH ]; [ reflexivity | | exact IH ].
  cbn [flat_map app textOf]. rewrite <- IH.
  destruct (flat_map _ bs) as [ | t' rest ]; cbn [String.concat].
  - now rewrite string_append_nil_r.
  - reflexivity.
Qed.

Lemma sameObject_refl (o : nat * CoreMessage) : Heuristic.sameObject o o = true.
Proof. apply Nat.eqb_refl. Qed.

Lemma heuristic_recent_short {A : Type} (l : list A) :
  (List.length l <= 10)%nat -> Js.slice l (-10) None = l.
Proof.
  intros H. unfold Js.slice, Js.relIndex. change (-10 <? 0) with true. cbv iota.
  rewrite Z.max_r by lia. cbn [Z.to_nat skipn].
  rewrite Z.sub_0_r, Nat2Z.id. apply firstn_all.
Qed.

Lemma heuristic_recent_long {A : Type} (l : list A) :
  (10 < List.length l)%nat ->
  Js.slice l (-10) None = skipn (List.length l - 10) l.
Proof.
  intros H. unfold Js.slice, Js.relIndex. change (-10 <? 0) with true. cbv iota.
  replace (Z.to_nat (Z.max (Z.of_nat (List.length l) + -10) 0))
    with (List.length l - 10)%nat by lia.
  apply firstn_all2. rewrite length_skipn. lia.
Qed.

Lemma heuristic_short_noop (msgs : list CoreMessage) :
  (List.length msgs <= 10)%nat -> Heuristic.compactMessages msgs = Return msgs.
Proof.
  intros H. unfold Heuristic.compactMessages.
  rewrite heuristic_recent_short by now rewrite withIndex_length.
  rewrite filter_none; [ reflexivity | ].
  intros o Ho.
  assert (E : existsb (Heuristic.sameObject o) (Heuristic.withIndex msgs) = true).
  { apply existsb_exists. exists o. split; [ exact Ho | apply sameObject_refl ]. }
  rewrite E. cbn [negb]. apply andb_false_r.
Qed.

(** X10.  The revision of [compactMessages] without [keepLast]: with ten
    turns or fewer it returns the input and asks nothing.  When it does
    ask, there are more than ten turns; a rejected request gives the
    input back unchanged, and a fulfilled one gives the system turns, the
    turn "[Previous conversation summarized]: <summary>", the first user
    turn if there is one, and the last ten turns of any role.  System
    turns and the first user turn that are among the last ten are thus
    repeated in the output. *)
Theorem heuristic_compaction_shape (msgs : list CoreMessage) :
  ((List.length msgs <= 10)%nat -> Heuristic.compactMessages msgs = Return msgs)
  /\ forall request resume,
       Heuristic.compactMessages msgs = Await request resume ->
       (10 < List.length msgs)%nat
       /\ (forall reason, resume (Js.Rejected reason) = msgs)
       /\ (forall response,
             resume (Js.Fulfilled response)
             = filter isSystem msgs
               ++ [mkCore assistant
                     ("[Previous conversation summarized]: "
                        ++ textOf (blocks response))%string]
               ++ match find (fun m => Role_eqb (role m) user) msgs with
                  | Some first => [first]
                  | None => []
                  end
               ++ skipn (List.length msgs - 10) msgs).
Proof.
  split; [ apply heuristic_short_noop | ].
  intros request resume Heq.
  assert (Hlong : (10 < List.length msgs)%nat).
  { destruct (Nat.le_gt_cases (List.length msgs) 10) as [Hle | Hgt]; [ | exact Hgt ].
    rewrite heuristic_short_noop in Heq by assumption. discriminate. }
  split; [ exact Hlong | ].
  split.
  { intros reason. eapply heuristic_fallback_returns_input. exact Heq. }
  intros response.
  unfold Heuristic.compactMessages in Heq.
  destruct (filter _ (Heuristic.withIndex msgs)) as [ | o rest ]; [ discriminate | ].
  injection Heq as _ <-.
  rewrite concat_text_blocks.
  rewrite heuristic_recent_long by now rewrite withIndex_length.
  rewrite withIndex_length, <- skipn_map.
  unfold Heuristic.withIndex at 2. rewrite combine_seq_snd.
  pose proof (find_combine_seq (fun m => Role_eqb (role m) user) msgs 0) as Hfind.
  fold (Heuristic.withIndex msgs) in Hfind.
  destruct (find _ (Heuristic.withIndex msgs)) as [first | ];
    cbn [option_map] in Hfind; rewrite <- Hfind; reflexivity.
Qed.

Lemma heuristic_compaction_shape_witness :
  let msgs := [mkCore assistant "m0"; mkCore user "m1"; mkCore assistant "m2";
               mkCore user "m3"; mkCore assistant "m4"; mkCore user "m5";
               mkCore assistant "m6"; mkCore user "m7"; mkCore assistant "m8";
               mkCore user "m9"; mkCore assistant "m10"] in
  let out := run (fun _ => Js.Fulfilled (mkResponse [TextBlock "sum"] "end_turn" 1 1))
                 (Heuristic.compactMessages msgs) in
  List.length msgs = 11%nat
  /\ List.length out = 12%nat
  /\ run (fun _ => Js.Rejected Js.Nullish) (Heuristic.compactMessages msgs) = msgs
  /\ Heuristic.compactMessages (firstn 10 msgs) = Return (firstn 10 msgs).
Proof.
  cbv zeta. split; [ reflexivity | ]. split; [ reflexivity | ].
  split; [ reflexivity | ].
  apply (heuristic_compaction_shape
           (firstn 10 [mkCore assistant "m0"; mkCore user "m1"; mkCore assistant "m2";
                       mkCore user "m3"; mkCore assistant "m4"; mkCore user "m5";
                       mkCore assistant "m6"; mkCore user "m7"; mkCore assistant "m8";
                       mkCore user "m9"; mkCore assistant "m10"])).
  cbn. lia.
Defined.

(** ** Case in the overflow classifier *)

Lemma lowerChar_idempotent (c : ascii) : Js.lowerChar (Js.lowerChar c) = Js.lowerChar c.
Proof.
  destruct c as [[|] [|] [|] [|] [|] [|] [|] [|]]; reflexivity.
Qed.

Lemma toLowerCase_idempotent (s : string) :
  Js.toLowerCase (Js.toLowerCase s) = Js.toLowerCase s.
Proof.
  induction s as [ | c s IH ]; [ reflexivity | ].
  unfold Js.toLowerCase in *. cbn [Js.mapString].
  now rewrite lowerChar_idempotent, IH.
Qed.

(** X11.  The classifier does not see ASCII case: a message, its
    upper-casing and its lower-casing are classified alike, and so are any
    two messages that differ only in case. *)
Theorem overflow_ignores_case (m m' : string) :
  isContextOverflowError (Js.ErrorObject (Some (Js.toUpperCase m)))
  = isContextOverflowError (Js.ErrorObject (Some m))
  /\ isContextOverflowError (Js.ErrorObject (Some (Js.toLowerCase m)))
     = isContextOverflowError (Js.ErrorObject (Some m))
  /\ (Js.toUpperCase m = Js.toUpperCase m' ->
      isContextOverflowError (Js.ErrorObject (Some m))
      = isContextOverflowError (Js.ErrorObject (Some m'))).
Proof.
  split; [ | split ].
  - apply overflow_case_insensitive, toLowerCase_toUpperCase.
  - apply overflow_case_insensitive, toLowerCase_idempotent.
  - intros H. apply overflow_case_insensitive.
    rewrite <- (toLowerCase_toUpperCase m), <- (toLowerCase_toUpperCase m').
    now rewrite H.
Qed.

Lemma overflow_ignores_case_witness :
  isContextOverflowError (Js.ErrorObject (Some "Prompt Is Too Long"))
  = isContextOverflowError (Js.ErrorObject (Some "PROMPT IS TOO LONG")).
Proof.
  apply (overflow_ignores_case "Prompt Is Too Long" "PROMPT IS TOO LONG").
  reflexivity.
Defined.

(* ===================================================================== *)
(** * Further properties of the sandbox handle                            *)
(* ===================================================================== *)

Lemma containersOf_nil_iff (db : Db) (sessionId : string) :
  containersOf db sessionId = []
  <-> forall row, In row (dockerContainers db) -> container_sessionId row <> sessionId.
Proof.
  unfold containersOf. split.
  - intros E row Hin Hs.
    assert (H : In row (filter (fun r => String.eqb (container_sessionId r) sessionId)
                               (dockerContainers db))).
    { apply filter_In. split; [ exact Hin | ]. now apply String.eqb_eq. }
    rewrite E in H. contradiction.
  - intros H. apply filter_none. intros row Hin.
    destruct (String.eqb_spec (container_sessionId row) sessionId); [ | reflexivity ].
    now apply H in Hin.
Qed.

(** Either the session had a row and nothing happens, or it had none and
    gets exactly the new one; other sessions keep their rows. *)
Lemma saveContainerInfo_cases (db : Db) (sessionId containerId uuid : string)
    (createdAt : Z) :
  let db' := Docker.saveContainerInfo db sessionId containerId uuid createdAt in
  (containersOf db sessionId <> [] /\ db' = db)
  \/ (containersOf db sessionId = []
      /\ containersOf db' sessionId = [mkContainer uuid containerId sessionId createdAt]
      /\ sessions db' = sessions db /\ messages db' = messages db
      /\ forall other, other <> sessionId -> containersOf db' other = containersOf db other).
Proof.
  intros db'. subst db'. unfold Docker.saveContainerInfo. fold (containersOf db sessionId).
  destruct (containersOf db sessionId) as [ | row rest ] eqn:E.
  - right. cbn [firstn List.length Nat.eqb]. split; [ reflexivity | ].
    unfold containersOf in *. cbn [dockerContainers sessions messages].
    split.
    { rewrite filter_app, E. cbn [filter container_sessionId app].
      now rewrite String.eqb_refl. }
    split; [ reflexivity | ]. split; [ reflexivity | ].
    intros other Hne. rewrite filter_app. cbn [filter container_sessionId].
    destruct (String.eqb_spec sessionId other) as [E' | _]; [ congruence | ].
    apply app_nil_r.
  - left. split; [ discriminate | reflexivity ].
Qed.

(** Every path of [ensureDockerContainer] ends in the wrapped error with
    the database untouched, or in an id handed to [saveContainerInfo]. *)
Lemma ensureDockerContainer_cases (host : Docker.Host) (db : Db)
    (sessionId uuid : string) (createdAt : Z) :
  let out := Docker.ensureDockerContainer host db sessionId uuid createdAt in
  (exists cause,
      out = (db, Js.Rejected
                   (Js.ErrorObject
                      (Some ("Failed to create Docker container: "
                               ++ Js.describe cause)%string)))
      /\ (exists e, Docker.runNew host = Js.Rejected e)
      /\ (Docker.removeStale host = Js.Rejected cause
          \/ Docker.runAgain host = Js.Rejected cause))
  \/ (exists id,
        out = (Docker.saveContainerInfo db sessionId id uuid createdAt, Js.Fulfilled id)).
Proof.
  intros out.
  assert (Hrec : let r := Docker.recreate host db sessionId uuid createdAt in
                 (exists cause,
                     r = (db, Js.Rejected
                                (Js.ErrorObject
                                   (Some ("Failed to create Docker container: "
                                            ++ Js.describe cause)%string)))
                     /\ (Docker.removeStale host = Js.Rejected cause
                         \/ Docker.runAgain host = Js.Rejected cause))
                 \/ (exists id,
                        r = (Docker.saveContainerInfo db sessionId id uuid createdAt,
                             Js.Fulfilled id))).
  { cbv zeta. unfold Docker.recreate.
    destruct (Docker.removeStale host) as [removed | e]; [ | left; eauto ].
    destruct (Docker.runAgain host) as [created | e]; [ right; eauto | left; eauto ]. }
  assert (Hnew : let r := Docker.createNew host db sessionId uuid createdAt in
                 (exists cause,
                     r = (db, Js.Rejected
                                (Js.ErrorObject
                                   (Some ("Failed to create Docker container: "
                                            ++ Js.describe cause)%string)))
                     /\ (exists e, Docker.runNew host = Js.Rejected e)
                     /\ (Docker.removeStale host = Js.Rejected cause
                         \/ Docker.runAgain host = Js.Rejected cause))
                 \/ (exists id,
                        r = (Docker.saveContainerInfo db sessionId id uuid createdAt,
                             Js.Fulfilled id))).
  { cbv zeta. unfold Docker.createNew.
    destruct (Docker.runNew host) as [created | e]; [ right; eauto | ].
    destruct Hrec as [(cause & Hr & Hc) | Hr]; [ left | right; exact Hr ].
    exists cause. split; [ exact Hr | ]. split; [ eauto | exact Hc ]. }
  subst out. unfold Docker.ensureDockerContainer.
  destruct (Docker.psAll host) as [listed | e]; [ | exact Hnew ].
  destruct (Js.truthy _); [ | exact Hnew ].
  destruct (Js.splitOn _ _) as [ | cid parts ]; [ exact Hnew | ].
  destruct (Js.includes _ _); [ right; eauto | ].
  destruct (Docker.start host cid); [ right; eauto | exact Hnew ].
Qed.

(** X12.  At most one container row per session is an invariant:
    [saveContainerInfo] and [ensureDockerContainer] keep it, for the
    session they are called for and for every other. *)
Theorem container_rows_unique (host : Docker.Host) (db : Db)
    (sessionId containerId uuid : string) (createdAt : Z) :
  oneRowPerSession db ->
  oneRowPerSession (Docker.saveContainerInfo db sessionId containerId uuid createdAt)
  /\ oneRowPerSession (fst (Docker.ensureDockerContainer host db sessionId uuid createdAt)).
Proof.
  intros Inv.
  assert (Hsave : forall cid,
             oneRowPerSession (Docker.saveContainerInfo db sessionId cid uuid createdAt)).
  { intros cid other.
    destruct (saveContainerInfo_cases db sessionId cid uuid createdAt)
      as [[_ ->] | (_ & Hnew & _ & _ & Hother)]; [ apply Inv | ].
    destruct (String.eqb_spec other sessionId) as [-> | Hne].
    - rewrite Hnew. cbn. lia.
    - rewrite Hother by assumption. apply Inv. }
  split; [ apply Hsave | ].
  destruct (ensureDockerContainer_cases host db sessionId uuid createdAt)
    as [(cause & -> & _) | (id & ->)]; cbn [fst]; [ exact Inv | apply Hsave ].
Qed.

Lemma container_rows_unique_witness :
  let host := {| Docker.psAll := Js.Fulfilled (Docker.mkOutput "abc123 Up 2 hours" "");
                 Docker.start := fun _ => Js.Rejected Js.Nullish;
                 Docker.runNew := Js.Rejected Js.Nullish;
                 Docker.removeStale := Js.Rejected Js.Nullish;
                 Docker.runAgain := Js.Rejected Js.Nullish |} in
  oneRowPerSession initDb
  /\ oneRowPerSession (fst (Docker.ensureDockerContainer host initDb "s" "row0" 1))
  /\ Docker.ensureDockerContainer host initDb "s" "row0" 1
     = ({| sessions := []; messages := [];
           dockerContainers := [mkContainer "row0" "abc123" "s" 1] |},
        Js.Fulfilled "abc123"%string).
Proof.
  cbv zeta.
  assert (H0 : oneRowPerSession initDb) by (intros s; cbn; lia).
  split; [ exact H0 | ]. split; [ | reflexivity ].
  apply (container_rows_unique
           {| Docker.psAll := Js.Fulfilled (Docker.mkOutput "abc123 Up 2 hours" "");
              Docker.start := fun _ => Js.Rejected Js.Nullish;
              Docker.runNew := Js.Rejected Js.Nullish;
              Docker.removeStale := Js.Rejected Js.Nullish;
              Docker.runAgain := Js.Rejected Js.Nullish |}
           initDb "s" "unused" "row0" 1 H0).
Defined.

(** X13.  [ensureDockerContainer] fails in one way only: with the error
    "Failed to create Docker container: <cause>", after the first
    [docker run] failed and then the removal or the second [docker run]
    failed with that cause; the database is then unchanged.  It succeeds
    whenever the first [docker run] would, and whenever the removal and
    the second run would. *)
Theorem ensure_fails_only_wrapped (host : Docker.Host) (db : Db)
    (sessionId uuid : string) (createdAt : Z) :
  let out := Docker.ensureDockerContainer host db sessionId uuid createdAt in
  (forall reason,
      snd out = Js.Rejected reason ->
      fst out = db
      /\ exists cause,
           reason = Js.ErrorObject
                      (Some ("Failed to create Docker container: "
                               ++ Js.describe cause)%string)
           /\ (exists e, Docker.runNew host = Js.Rejected e)
           /\ (Docker.removeStale host = Js.Rejected cause
               \/ Docker.runAgain host = Js.Rejected cause))
  /\ ((exists created, Docker.runNew host = Js.Fulfilled created) ->
      exists id, snd out = Js.Fulfilled id)
  /\ ((exists removed created,
          Docker.removeStale host = Js.Fulfilled removed
          /\ Docker.runAgain host = Js.Fulfilled created) ->
      exists id, snd out = Js.Fulfilled id).
Proof.
  intros out.
  destruct (ensureDockerContainer_cases host db sessionId uuid createdAt)
    as [(cause & Hout & Hrun & Hcause) | (id & Hout)]; fold out in Hout; rewrite Hout;
    cbn [fst snd].
  - split; [ | split ].
    + intros reason [= <-]. split; [ reflexivity | ]. exists cause. auto.
    + intros (created & Hc). destruct Hrun as [e He]. congruence.
    + intros (removed & created & Hr & Ha). destruct Hcause; congruence.
  - split; [ | split ].
    + intros reason H. discriminate H.
    + intros _. eauto.
    + intros _. eauto.
Qed.

Lemma ensure_fails_only_wrapped_witness :
  let host := {| Docker.psAll := Js.Rejected (Js.ErrorObject (Some "docker: not found"));
                 Docker.start := fun _ => Js.Rejected Js.Nullish;
                 Docker.runNew := Js.Rejected (Js.ErrorObject (Some "name in use"));
                 Docker.removeStale := Js.Fulfilled (Docker.mkOutput "" "");
                 Docker.runAgain := Js.Rejected (Js.ErrorObject (Some "no daemon")) |} in
  Docker.ensureDockerContainer host initDb "s" "row0" 1
  = (initDb,
     Js.Rejected (Js.ErrorObject
                    (Some "Failed to create Docker container: Error: no daemon")))
  /\ fst (Docker.ensureDockerContainer host initDb "s" "row0" 1) = initDb.
Proof.
  cbv zeta. split; [ reflexivity | ].
  destruct (ensure_fails_only_wrapped
              {| Docker.psAll := Js.Rejected (Js.ErrorObject (Some "docker: not found"));
                 Docker.start := fun _ => Js.Rejected Js.Nullish;
                 Docker.runNew := Js.Rejected (Js.ErrorObject (Some "name in use"));
                 Docker.removeStale := Js.Fulfilled (Docker.mkOutput "" "");
                 Docker.runAgain := Js.Rejected (Js.ErrorObject (Some "no daemon")) |}
              initDb "s" "row0" 1) as [H _].
  apply (H (Js.ErrorObject
              (Some "Failed to create Docker container: Error: no daemon"))).
  reflexivity.
Defined.

(** X14.  A successful [ensureDockerContainer] leaves the session with a
    stored row; if the session had none, the row holds the id that was
    returned.  From then on no call of [ensureDockerContainer] for that
    session changes the database, whatever Docker answers. *)
Theorem ensure_stores_then_freezes (host host' : Docker.Host) (db : Db)
    (sessionId uuid uuid' : string) (createdAt createdAt' : Z) (id : string) :
  let out := Docker.ensureDockerContainer host db sessionId uuid createdAt in
  snd out = Js.Fulfilled id ->
  containersOf (fst out) sessionId <> []
  /\ (containersOf db sessionId = [] ->
      containersOf (fst out) sessionId = [mkContainer uuid id sessionId createdAt])
  /\ (containersOf db sessionId <> [] -> fst out = db)
  /\ fst (Docker.ensureDockerContainer host' (fst out) sessionId uuid' createdAt')
     = fst out.
Proof.
  intros out Hid.
  destruct (ensureDockerContainer_cases host db sessionId uuid createdAt)
    as [(cause & Hout & _) | (id' & Hout)]; fold out in Hout; rewrite Hout in *;
    cbn [fst snd] in *; [ discriminate | ].
  injection Hid as ->.
  assert (Hrow : containersOf (Docker.saveContainerInfo db sessionId id uuid createdAt)
                              sessionId <> []).
  { destruct (saveContainerInfo_cases db sessionId id uuid createdAt)
      as [[Hne ->] | (_ & Hnew & _)]; [ exact Hne | ].
    rewrite Hnew. discriminate. }
  split; [ exact Hrow | ].
  split.
  { intros Hnone.
    destruct (saveContainerInfo_cases db sessionId id uuid createdAt)
      as [[Hne _] | (_ & Hnew & _)]; [ contradiction | exact Hnew ]. }
  split.
  { intros Hsome.
    destruct (saveContainerInfo_cases db sessionId id uuid createdAt)
      as [[_ E] | (Hnone & _)]; [ exact E | contradiction ]. }
  set (db' := Docker.saveContainerInfo db sessionId id uuid createdAt) in *.
  destruct (containersOf db' sessionId) as [ | row rest ] eqn:E; [ contradiction | ].
  assert (Hin : In row (containersOf db' sessionId)) by (rewrite E; now left).
  unfold containersOf in Hin. apply filter_In in Hin. destruct Hin as [Hin Hs].
  apply String.eqb_eq in Hs.
  destruct (ensureDockerContainer_cases host' db' sessionId uuid' createdAt')
    as [(cause & -> & _) | (id' & ->)]; cbn [fst]; [ reflexivity | ].
  eapply saveContainerInfo_existing; eassumption.
Qed.

Lemma ensure_stores_then_freezes_witness :
  let first := {| Docker.psAll := Js.Fulfilled (Docker.mkOutput "" "");
                  Docker.start := fun _ => Js.Rejected Js.Nullish;
                  Docker.runNew := Js.Fulfilled (Docker.mkOutput "aaa111" "");
                  Docker.removeStale := Js.Rejected Js.Nullish;
                  Docker.runAgain := Js.Rejected Js.Nullish |} in
  let later := {| Docker.psAll := Js.Fulfilled (Docker.mkOutput "bbb222 Up 1 second" "");
                  Docker.start := fun _ => Js.Rejected Js.Nullish;
                  Docker.runNew := Js.Rejected Js.Nullish;
                  Docker.removeStale := Js.Rejected Js.Nullish;
                  Docker.runAgain := Js.Rejected Js.Nullish |} in
  let out := Docker.ensureDockerContainer first initDb "s" "row0" 1 in
  snd out = Js.Fulfilled "aaa111"%string
  /\ Docker.ensureDockerContainer later (fst out) "s" "row1" 2
     = (fst out, Js.Fulfilled "bbb222"%string)
  /\ fst (Docker.ensureDockerContainer later (fst out) "s" "row1" 2) = fst out.
Proof.
  cbv zeta. split; [ reflexivity | ]. split; [ reflexivity | ].
  apply (ensure_stores_then_freezes
           {| Docker.psAll := Js.Fulfilled (Docker.mkOutput "" "");
              Docker.start := fun _ => Js.Rejected Js.Nullish;
              Docker.runNew := Js.Fulfilled (Docker.mkOutput "aaa111" "");
              Docker.removeStale := Js.Rejected Js.Nullish;
              Docker.runAgain := Js.Rejected Js.Nullish |}
           {| Docker.psAll := Js.Fulfilled (Docker.mkOutput "bbb222 Up 1 second" "");
              Docker.start := fun _ => Js.Rejected Js.Nullish;
              Docker.runNew := Js.Rejected Js.Nullish;
              Docker.removeStale := Js.Rejected Js.Nullish;
              Docker.runAgain := Js.Rejected Js.Nullish |}
           initDb "s" "row0" "row1" 1 2 "aaa111").
  reflexivity.
Defined.

(* ===================================================================== *)
(** * Further properties of the attempt loop                              *)
(* ===================================================================== *)

Section LoopInvariant.
Variable chat : Z -> list CoreMessage -> string -> Agent.ChatOutcome.
Variable create : Z -> CreateParams -> Js.Settled Response.
Variable randomUUID : nat -> string.
Variable now : nat -> Z.
Variable currentSessionId : string.
Variable containerId : string.

Local Abbreviation retryLoop :=
  (Agent.retryLoop chat create randomUUID now currentSessionId containerId).
Local Abbreviation onSuccess := (Agent.onSuccess create randomUUID now currentSessionId).
Local Abbreviation compactAndReplace :=
  (Agent.compactAndReplace create randomUUID now currentSessionId).
Local Abbreviation persist := (Agent.persist randomUUID now currentSessionId).
Local Abbreviation acceptInput := (Agent.acceptInput randomUUID now currentSessionId).

Lemma inSync_persist_push (st : Agent.State) (r : Role) (text : string) :
  r <> system ->
  inSync currentSessionId st ->
  inSync currentSessionId (Agent.push (persist st r text) r text).
Proof.
  unfold inSync. intros Hr Hs. cbn [Agent.push Agent.persist Agent.db Agent.messages].
  rewrite loadMessages_saveMessage, filter_app, Hs. cbn [filter].
  destruct r; try contradiction; reflexivity.
Qed.

Lemma inSync_compactAndReplace (attempt keepLast : Z) (st : Agent.State) :
  inSync currentSessionId (compactAndReplace attempt keepLast st).
Proof.
  unfold inSync, Agent.compactAndReplace. cbn [Agent.db Agent.messages].
  now rewrite loadMessages_saveCompacted.
Qed.

Lemma inSync_onSuccess (attempt : Z) (response : string) (inputTokens : Z)
    (st : Agent.State) :
  inSync currentSessionId st ->
  inSync currentSessionId (onSuccess attempt response inputTokens st).
Proof.
  intros Hs. unfold Agent.onSuccess.
  destruct (shouldCompact _); [ apply inSync_compactAndReplace | ].
  destruct (Js.truthy _); [ | exact Hs ].
  apply inSync_persist_push; [ discriminate | exact Hs ].
Qed.

Lemma app_last_not_self {A : Type} (l : list A) (x : A) : l <> l ++ [x].
Proof.
  intros H. apply (f_equal (@List.length A)) in H.
  rewrite length_app in H. cbn [List.length] in H. lia.
Qed.

(** What the loop leaves after a failure it does not retry: the database
    of the failed attempt, and in memory the stored non-system turns
    followed by the one turn "Error: ...", which was never saved. *)
Lemma onError_unsaved (attempt : Z) (message : option string) (st : Agent.State) :
  inSync currentSessionId st ->
  let st' := Agent.onError message (Agent.withChat attempt st) in
  Agent.db st' = Agent.db st
  /\ Agent.messages st'
     = filter notSystem (loadMessages (Agent.db st') currentSessionId)
       ++ [mkCore assistant ("Error: " ++ Js.messageOrUndefined message)%string]
  /\ ~ inSync currentSessionId st'.
Proof.
  intros Hs st'. subst st'. unfold inSync in *.
  cbn [Agent.onError Agent.push Agent.withChat Agent.messages Agent.db].
  split; [ reflexivity | ]. rewrite Hs. split; [ reflexivity | ].
  apply app_last_not_self.
Qed.

(** X17.  A turn that starts with the in-memory list equal to the stored
    non-system turns keeps it so exactly when it ends with an answer of
    [chat].  After the input is saved and pushed the two agree.  If the
    first [chat] answers, the loop ends with the two in agreement.  If it
    fails with an error that is no context overflow, the loop ends with
    the database of that moment and, in memory, the stored non-system
    turns plus the one turn "Error: <message>" at the end, so the two no
    longer agree.  If it fails with a context overflow, the compaction
    leaves the two in agreement, and the second [chat] decides in the same
    way: an answer ends the loop in agreement, a failure ends it with the
    database of the compaction and the unsaved "Error: <message>" turn in
    memory. *)
Theorem turn_keeps_memory_in_sync (st : Agent.State) (input : string) :
  inSync currentSessionId st ->
  let st0 := acceptInput st input in
  let st1 := compactAndReplace 0 4 (Agent.withChat 0 st0) in
  let errorTurn := fun message : option string =>
    mkCore assistant ("Error: " ++ Js.messageOrUndefined message)%string in
  inSync currentSessionId st0
  /\ (forall response inputTokens outputTokens,
        chat 0 (Agent.messages st0) containerId
        = Agent.ChatOk response inputTokens outputTokens ->
        exists st', retryLoop st0 = Some st' /\ inSync currentSessionId st')
  /\ (forall message,
        chat 0 (Agent.messages st0) containerId = Agent.ChatThrows message ->
        isContextOverflowError (Js.ErrorObject message) = false ->
        exists st',
          retryLoop st0 = Some st'
          /\ Agent.db st' = Agent.db st0
          /\ Agent.messages st'
             = filter notSystem (loadMessages (Agent.db st') currentSessionId)
               ++ [errorTurn message]
          /\ ~ inSync currentSessionId st')
  /\ (forall message,
        chat 0 (Agent.messages st0) containerId = Agent.ChatThrows message ->
        isContextOverflowError (Js.ErrorObject message) = true ->
        inSync currentSessionId st1
        /\ (forall response inputTokens outputTokens,
              chat 1 (Agent.messages st1) containerId
              = Agent.ChatOk response inputTokens outputTokens ->
              exists st', retryLoop st0 = Some st' /\ inSync currentSessionId st')
        /\ (forall message',
              chat 1 (Agent.messages st1) containerId = Agent.ChatThrows message' ->
              exists st',
                retryLoop st0 = Some st'
                /\ Agent.db st' = Agent.db st1
                /\ Agent.messages st'
                   = filter notSystem (loadMessages (Agent.db st') currentSessionId)
                     ++ [errorTurn message']
                /\ ~ inSync currentSessionId st')).
Proof.
  intros Hs st0 st1 errorTurn.
  assert (H0 : inSync currentSessionId st0)
    by (apply inSync_persist_push; [ discriminate | exact Hs ]).
  assert (H1 : inSync currentSessionId st1) by apply inSync_compactAndReplace.
  split; [ exact H0 | ].
  split.
  { intros r i o Hchat.
    rewrite (retryLoop_unrolled chat create randomUUID now currentSessionId containerId).
    rewrite Hchat. eexists. split; [ reflexivity | ].
    apply inSync_onSuccess. exact H0. }
  split.
  { intros m Hchat Hover.
    rewrite (retryLoop_unrolled chat create randomUUID now currentSessionId containerId).
    rewrite Hchat, Hover. eexists. split; [ reflexivity | ].
    apply (onError_unsaved 0 m st0 H0). }
  intros m Hchat Hover. split; [ exact H1 | ].
  split.
  { intros r i o Hchat'.
    rewrite (retryLoop_unrolled chat create randomUUID now currentSessionId containerId).
    rewrite Hchat, Hover. cbv zeta. fold st1. rewrite Hchat'.
    eexists. split; [ reflexivity | ].
    apply inSync_onSuccess. exact H1. }
  intros m' Hchat'.
  rewrite (retryLoop_unrolled chat create randomUUID now currentSessionId containerId).
  rewrite Hchat, Hover. cbv zeta. fold st1. rewrite Hchat'.
  eexists. split; [ reflexivity | ].
  apply (onError_unsaved 1 m' st1 H1).
Qed.

(** X18.  An answer that is empty or white space only, with an input
    token count at or below the threshold, leaves both the database and
    the in-memory list as they were; only the token count is recorded. *)
Theorem blank_answer_changes_nothing (st : Agent.State) (response : string)
    (inputTokens outputTokens : Z) :
  chat 0 (Agent.messages st) containerId
  = Agent.ChatOk response inputTokens outputTokens ->
  Js.trim response = ""%string ->
  inputTokens <= 150000 ->
  exists st',
    retryLoop st = Some st'
    /\ Agent.db st' = Agent.db st
    /\ Agent.messages st' = Agent.messages st
    /\ Agent.lastInputTokens st' = inputTokens
    /\ Agent.trace st' = Agent.trace st ++ [Agent.ChatCalled 0].
Proof.
  intros Hchat Hblank Hle.
  rewrite (retryLoop_unrolled chat create randomUUID now currentSessionId containerId).
  rewrite Hchat. unfold Agent.onSuccess. rewrite Hblank. cbn [Js.truthy].
  cbn [Agent.withInputTokens Agent.lastInputTokens].
  unfold shouldCompact, COMPACT_THRESHOLD.
  destruct (Z.ltb_spec 150000 inputTokens); [ lia | ].
  eexists. split; [ reflexivity | ]. repeat split.
Qed.

End LoopInvariant.

Lemma at_most_two_attempts_witness :
  let uuid := fun n => ("uuid-" ++ Js.showNat n)%string in
  let clock := fun n => Z.of_nat n in
  let rejecting := fun (_ : Z) (_ : CreateParams) => @Js.Rejected Response Js.Nullish in
  let failing := fun (_ : Z) (_ : list CoreMessage) (_ : string) =>
                   Agent.ChatThrows (Some "context_length_exceeded"%string) in
  exists st' events,
    Agent.retryLoop failing rejecting uuid clock "s" "c" afterInput = Some st'
    /\ Agent.trace st' = Agent.trace afterInput ++ events
    /\ (chatAttempts events = [0] \/ chatAttempts events = [0; 1]).
Proof.
  cbv zeta.
  destruct (retryLoop_total
              (fun _ _ _ => Agent.ChatThrows (Some "context_length_exceeded"%string))
              (fun _ _ => @Js.Rejected Response Js.Nullish)
              (fun n => ("uuid-" ++ Js.showNat n)%string) (fun n => Z.of_nat n)
              "s" "c" afterInput) as [st' Hrun].
  destruct (at_most_two_attempts _ _ _ _ _ _ afterInput st' Hrun) as (events & Htr & Hc).
  exists st', events. split; [ exact Hrun | ]. split; [ exact Htr | exact Hc ].
Defined.

Lemma overflow_compacts_then_retries_witness :
  let uuid := fun n => ("uuid-" ++ Js.showNat n)%string in
  let clock := fun n => Z.of_nat n in
  let rejecting := fun (_ : Z) (_ : CreateParams) => @Js.Rejected Response Js.Nullish in
  let chat := fun (attempt : Z) (_ : list CoreMessage) (_ : string) =>
                if attempt =? 0 then Agent.ChatThrows (Some "too many tokens"%string)
                else Agent.ChatOk "done" 12 3 in
  let st1 := Agent.compactAndReplace rejecting uuid clock "s" 0 4
               (Agent.withChat 0 afterInput) in
  Agent.trace st1
  = Agent.trace afterInput
    ++ [Agent.ChatCalled 0; Agent.Compacted 4; Agent.ReplacedAll [mkCore user "hi"]]
  /\ loadMessages (Agent.db st1) "s" = [mkCore user "hi"].
Proof.
  cbv zeta.
  destruct (overflow_compacts_then_retries
              (fun (attempt : Z) (_ : list CoreMessage) (_ : string) =>
                 if attempt =? 0 then Agent.ChatThrows (Some "too many tokens"%string)
                 else Agent.ChatOk "done" 12 3)
              (fun _ _ => @Js.Rejected Response Js.Nullish)
              (fun n => ("uuid-" ++ Js.showNat n)%string) (fun n => Z.of_nat n)
              "s" "c" afterInput (Some "too many tokens"%string) eq_refl eq_refl)
    as (_ & _ & Htrace & _).
  split; [ exact Htrace | reflexivity ].
Defined.

Lemma turn_keeps_memory_in_sync_witness :
  let uuid := fun n => ("uuid-" ++ Js.showNat n)%string in
  let clock := fun n => Z.of_nat n in
  let rejecting := fun (_ : Z) (_ : CreateParams) => @Js.Rejected Response Js.Nullish in
  let answering := fun (_ : Z) (_ : list CoreMessage) (_ : string) =>
                     Agent.ChatOk "hello" 12 3 in
  let failing := fun (_ : Z) (_ : list CoreMessage) (_ : string) =>
                   Agent.ChatThrows (Some "rate limited"%string) in
  let st := {| Agent.db := fst (getOrCreateSession initDb None "s" 0 0);
               Agent.messages := [];
               Agent.lastInputTokens := 0;
               Agent.drawn := 0;
               Agent.ticks := 0;
               Agent.trace := [] |} in
  inSync "s" st
  /\ (exists st',
        Agent.retryLoop answering rejecting uuid clock "s" "c"
          (Agent.acceptInput uuid clock "s" st "hi") = Some st'
        /\ inSync "s" st')
  /\ (exists st',
        Agent.retryLoop failing rejecting uuid clock "s" "c"
          (Agent.acceptInput uuid clock "s" st "hi") = Some st'
        /\ Agent.db st' = Agent.db (Agent.acceptInput uuid clock "s" st "hi")
        /\ Agent.messages st'
           = filter notSystem (loadMessages (Agent.db st') "s")
             ++ [mkCore assistant "Error: rate limited"]
        /\ ~ inSync "s" st').
Proof.
  cbv zeta. split; [ reflexivity | ].
  split.
  - destruct (turn_keeps_memory_in_sync
                (fun _ _ _ => Agent.ChatOk "hello" 12 3)
                (fun _ _ => @Js.Rejected Response Js.Nullish)
                (fun n => ("uuid-" ++ Js.showNat n)%string) (fun n => Z.of_nat n)
                "s" "c"
                {| Agent.db := fst (getOrCreateSession initDb None "s" 0 0);
                   Agent.messages := [];
                   Agent.lastInputTokens := 0;
                   Agent.drawn := 0;
                   Agent.ticks := 0;
                   Agent.trace := [] |} "hi" eq_refl) as (_ & Hok & _).
    exact (Hok "hello"%string 12 3 eq_refl).
  - destruct (turn_keeps_memory_in_sync
                (fun _ _ _ => Agent.ChatThrows (Some "rate limited"%string))
                (fun _ _ => @Js.Rejected Response Js.Nullish)
                (fun n => ("uuid-" ++ Js.showNat n)%string) (fun n => Z.of_nat n)
                "s" "c"
                {| Agent.db := fst (getOrCreateSession initDb None "s" 0 0);
                   Agent.messages := [];
                   Agent.lastInputTokens := 0;
                   Agent.drawn := 0;
                   Agent.ticks := 0;
                   Agent.trace := [] |} "hi" eq_refl) as (_ & _ & Hfail & _).
    exact (Hfail (Some "rate limited"%string) eq_refl eq_refl).
Defined.

Lemma blank_answer_changes_nothing_witness :
  let uuid := fun n => ("uuid-" ++ Js.showNat n)%string in
  let clock := fun n => Z.of_nat n in
  let rejecting := fun (_ : Z) (_ : CreateParams) => @Js.Rejected Response Js.Nullish in
  let blank := fun (_ : Z) (_ : list CoreMessage) (_ : string) =>
                 Agent.ChatOk ("  " ++ Js.LF)%string 12 0 in
  exists st',
    Agent.retryLoop blank rejecting uuid clock "s" "c" afterInput = Some st'
    /\ Agent.db st' = Agent.db afterInput
    /\ Agent.messages st' = [mkCore user "hi"].
Proof.
  cbv zeta.
  destruct (blank_answer_changes_nothing
              (fun _ _ _ => Agent.ChatOk ("  " ++ Js.LF)%string 12 0)
              (fun _ _ => @Js.Rejected Response Js.Nullish)
              (fun n => ("uuid-" ++ Js.showNat n)%string) (fun n => Z.of_nat n)
              "s" "c" afterInput ("  " ++ Js.LF)%string 12 0 eq_refl eq_refl)
    as (st' & Hrun & Hdb & Hmsgs & _).
  - lia.
  - exists st'. split; [ exact Hrun | ]. split; [ exact Hdb | ]. rewrite Hmsgs. reflexivity.
Defined.

(* ===================================================================== *)
(** * The tool loop [chat]                                                *)
(* ===================================================================== *)

Section ChatFacts.
Variable create : nat -> Js.Settled Response.
Variable executeTool : nat -> string -> string -> string -> string.
Variable containerId : string.

Local Abbreviation processBlocks := (Chat.processBlocks executeTool containerId).
Local Abbreviation chatLoop := (Chat.chatLoop create executeTool containerId).
Local Abbreviation chat := (Chat.chat create executeTool containerId).

Lemma processBlocks_spec (bs : list ContentBlock) (fullResponse : string)
    (hasToolUse : bool) (toolResults : list Chat.ToolResultBlock) (toolCalls : nat) :
  exists fresh,
    processBlocks bs fullResponse hasToolUse toolResults toolCalls
    = ((fullResponse ++ textOf bs)%string,
       hasToolUse || negb (Nat.eqb (List.length (toolUseIds bs)) 0),
       toolResults ++ fresh,
       (toolCalls + List.length (toolUseIds bs))%nat)
    /\ map Chat.tool_use_id fresh = toolUseIds bs.
Proof.
  revert fullResponse hasToolUse toolResults toolCalls.
  induction bs as [ | [text | id name input] bs IH ];
    intros fullResponse hasToolUse toolResults toolCalls.
  - exists []. cbn. rewrite string_append_nil_r, orb_false_r, app_nil_r, Nat.add_0_r.
    split; reflexivity.
  - cbn [Chat.processBlocks textOf toolUseIds].
    destruct (IH (fullResponse ++ text)%string hasToolUse toolResults toolCalls)
      as (fresh & -> & Hids).
    exists fresh. rewrite string_append_assoc. split; [ reflexivity | exact Hids ].
  - cbn [Chat.processBlocks textOf toolUseIds List.length].
    destruct (IH fullResponse true
                 (toolResults ++ [Chat.mkToolResult id
                                    (executeTool toolCalls name input containerId)])
                 (S toolCalls)) as (fresh & -> & Hids).
    exists (Chat.mkToolResult id (executeTool toolCalls name input containerId) :: fresh).
    split.
    + rewrite <- app_assoc. cbn [app Nat.eqb negb].
      rewrite orb_true_r. cbn [orb]. f_equal. lia.
    + cbn [map Chat.tool_use_id]. now rewrite Hids.
Qed.

(** X19.  One pass over the content blocks of a response: the text blocks
    are appended to the response text in order, every tool-use block is
    executed once and answered by one tool result carrying its id, in the
    order of the blocks, and the pass reports tool use exactly when there
    was such a block. *)
Theorem tool_results_answer_tool_uses (bs : list ContentBlock) (fullResponse : string)
    (toolCalls : nat) :
  exists results,
    processBlocks bs fullResponse false [] toolCalls
    = ((fullResponse ++ textOf bs)%string,
       negb (Nat.eqb (List.length (toolUseIds bs)) 0),
       results,
       (toolCalls + List.length (toolUseIds bs))%nat)
    /\ map Chat.tool_use_id results = toolUseIds bs
    /\ List.length results = List.length (toolUseIds bs).
Proof.
  destruct (processBlocks_spec bs fullResponse false [] toolCalls) as (fresh & Heq & Hids).
  exists fresh. cbn [orb app] in Heq. split; [ exact Heq | ].
  split; [ exact Hids | ]. now rewrite <- Hids, length_map.
Qed.

Lemma chatLoop_step_stop (fuel requests toolCalls : nat)
    (currentMsgs : list Chat.MessageParam) (fullResponse : string)
    (totalInput totalOutput : Z) (sent : list (list Chat.MessageParam))
    (res : Response) :
  create requests = Js.Fulfilled res ->
  goesOn res = false ->
  chatLoop (S fuel) requests toolCalls currentMsgs fullResponse totalInput totalOutput sent
  = Some (Js.Fulfilled
            (Chat.mkResult (fullResponse ++ textOf (blocks res))%string
                           (input_tokens res) (totalOutput + output_tokens res)),
          sent ++ [currentMsgs]).
Proof.
  intros Hc Hg. cbn [Chat.chatLoop]. rewrite Hc.
  destruct (processBlocks_spec (blocks res) fullResponse false [] toolCalls)
    as (fresh & -> & _).
  cbn [orb]. unfold goesOn in Hg.
  destruct (negb (Nat.eqb _ 0)); cbn [negb orb andb] in *.
  - apply negb_false_iff in Hg. rewrite Hg. reflexivity.
  - reflexivity.
Qed.

Lemma chatLoop_step_on (fuel requests toolCalls : nat)
    (currentMsgs : list Chat.MessageParam) (fullResponse : string)
    (totalInput totalOutput : Z) (sent : list (list Chat.MessageParam))
    (res : Response) :
  create requests = Js.Fulfilled res ->
  goesOn res = true ->
  exists toolCalls' results,
    map Chat.tool_use_id results = toolUseIds (blocks res)
    /\ chatLoop (S fuel) requests toolCalls currentMsgs fullResponse
                totalInput totalOutput sent
       = chatLoop fuel (S requests) toolCalls'
           (currentMsgs ++ [Chat.mkParam assistant (Chat.Blocks (blocks res));
                            Chat.mkParam user (Chat.ToolResults results)])
           (fullResponse ++ textOf (blocks res))%string
           (input_tokens res) (totalOutput + output_tokens res)
           (sent ++ [currentMsgs]).
Proof.
  intros Hc Hg. cbn [Chat.chatLoop]. rewrite Hc.
  destruct (processBlocks_spec (blocks res) fullResponse false [] toolCalls)
    as (fresh & -> & Hids).
  cbn [orb app]. unfold goesOn in Hg. apply andb_true_iff in Hg.
  destruct Hg as [Huse Hstop]. rewrite Huse. apply negb_true_iff in Hstop.
  rewrite Hstop. cbn [negb orb].
  eexists _, fresh. split; [ exact Hids | reflexivity ].
Qed.

Lemma chatLoop_run (script : nat -> Response) (k : nat) :
  forall (n fuel toolCalls : nat) (currentMsgs : list Chat.MessageParam)
         (totalInput : Z) (sent : list (list Chat.MessageParam)),
    (forall j, (n <= j <= n + k)%nat -> create j = Js.Fulfilled (script j)) ->
    (forall j, (n <= j < n + k)%nat -> goesOn (script j) = true) ->
    goesOn (script (n + k)%nat) = false ->
    (k < fuel)%nat ->
    exists more,
      chatLoop fuel n toolCalls currentMsgs (textUpTo script n) totalInput
               (outputUpTo script n) sent
      = Some (Js.Fulfilled
                (Chat.mkResult (textUpTo script (S (n + k)))
                               (input_tokens (script (n + k)%nat))
                               (outputUpTo script (S (n + k)))),
              sent ++ currentMsgs :: more)
      /\ List.length more = k
      /\ toolRounds script n currentMsgs more.
Proof.
  induction k as [ | k IH ];
    intros n fuel toolCalls currentMsgs totalInput sent Hc Hon Hstop Hfuel.
  - destruct fuel as [ | fuel ]; [ lia | ]. rewrite Nat.add_0_r in *.
    exists []. split; [ | split; [ reflexivity | constructor ] ].
    apply chatLoop_step_stop; [ apply Hc; lia | exact Hstop ].
  - destruct fuel as [ | fuel ]; [ lia | ].
    destruct (chatLoop_step_on fuel n toolCalls currentMsgs (textUpTo script n)
                totalInput (outputUpTo script n) sent (script n))
      as (toolCalls' & results & Hids & ->); [ apply Hc; lia | apply Hon; lia | ].
    replace (n + S k)%nat with (S n + k)%nat in * by lia.
    destruct (IH (S n) fuel toolCalls'
                 (currentMsgs ++ [Chat.mkParam assistant (Chat.Blocks (blocks (script n)));
                                  Chat.mkParam user (Chat.ToolResults results)])
                 (input_tokens (script n)) (sent ++ [currentMsgs]))
      as (more & Heq & Hlen & Hrounds).
    + intros j Hj. apply Hc. lia.
    + intros j Hj. apply Hon. lia.
    + exact Hstop.
    + lia.
    + cbn [textUpTo outputUpTo] in Heq. rewrite Heq. rewrite <- app_assoc.
      eexists. split; [ reflexivity | ].
      split; [ cbn [List.length]; now rewrite Hlen | ].
      now constructor.
Qed.

(** X20.  When the first [k] responses use tools without ending the turn
    and response [k] does not go on, [chat] sends exactly [k + 1]
    requests and returns the concatenated text of all [k + 1] responses,
    the input token count of the last response alone and the sum of all
    output token counts.  The first request carries the caller's
    messages, and each later one its predecessor's plus the assistant's
    blocks and a tool result for each tool-use block. *)
Theorem chat_accumulates (script : nat -> Response) (k fuel : nat)
    (msgs : list Chat.MessageParam) :
  (forall j, (j <= k)%nat -> create j = Js.Fulfilled (script j)) ->
  (forall j, (j < k)%nat -> goesOn (script j) = true) ->
  goesOn (script k) = false ->
  (k < fuel)%nat ->
  exists sent,
    chat fuel msgs
    = Some (Js.Fulfilled
              (Chat.mkResult (textUpTo script (S k))
                             (input_tokens (script k))
                             (outputUpTo script (S k))),
            sent)
    /\ List.length sent = S k
    /\ exists more, sent = msgs :: more /\ toolRounds script 0 msgs more.
Proof.
  intros Hc Hon Hstop Hfuel.
  destruct (chatLoop_run script k 0 fuel 0 msgs 0 [])
    as (more & Heq & Hlen & Hrounds).
  - intros j Hj. apply Hc. lia.
  - intros j Hj. apply Hon. lia.
  - exact Hstop.
  - exact Hfuel.
  - exists (msgs :: more). split; [ exact Heq | ].
    split; [ cbn; now rewrite Hlen | ].
    exists more. split; [ reflexivity | exact Hrounds ].
Qed.

Lemma chatLoop_rejects (script : nat -> Response) (reason : Js.any) (k : nat) :
  forall (n fuel toolCalls : nat) (currentMsgs : list Chat.MessageParam)
         (fullResponse : string) (totalInput totalOutput : Z)
         (sent : list (list Chat.MessageParam)),
    (forall j, (n <= j < n + k)%nat ->
       create j = Js.Fulfilled (script j) /\ goesOn (script j) = true) ->
    create (n + k)%nat = Js.Rejected reason ->
    (k < fuel)%nat ->
    exists more,
      chatLoop fuel n toolCalls currentMsgs fullResponse totalInput totalOutput sent
      = Some (Js.Rejected reason, sent ++ currentMsgs :: more)
      /\ List.length more = k.
Proof.
  induction k as [ | k IH ];
    intros n fuel toolCalls currentMsgs fullResponse totalInput totalOutput sent
           Hon Hrej Hfuel.
  - destruct fuel as [ | fuel ]; [ lia | ]. rewrite Nat.add_0_r in *.
    exists []. cbn [Chat.chatLoop]. rewrite Hrej. split; reflexivity.
  - destruct fuel as [ | fuel ]; [ lia | ].
    destruct (Hon n ltac:(lia)) as [Hc Hg].
    destruct (chatLoop_step_on fuel n toolCalls currentMsgs fullResponse
                totalInput totalOutput sent (script n) Hc Hg)
      as (toolCalls' & results & _ & ->).
    replace (n + S k)%nat with (S n + k)%nat in * by lia.
    destruct (IH (S n) fuel toolCalls'
                 (currentMsgs ++ [Chat.mkParam assistant (Chat.Blocks (blocks (script n)));
                                  Chat.mkParam user (Chat.ToolResults results)])
                 (fullResponse ++ textOf (blocks (script n)))%string
                 (input_tokens (script n)) (totalOutput + output_tokens (script n))
                 (sent ++ [currentMsgs]))
      as (more & Heq & Hlen).
    + intros j Hj. apply Hon. lia.
    + exact Hrej.
    + lia.
    + rewrite Heq, <- app_assoc. eexists. split; [ reflexivity | ].
      cbn [List.length]. now rewrite Hlen.
Qed.

(** X21.  When request [k] is rejected after [k] rounds of tool use,
    [chat] ends with that very rejection after [k + 1] requests; the text
    and the token counts gathered in the earlier rounds are not
    returned. *)
Theorem chat_rejection_propagates (script : nat -> Response) (reason : Js.any)
    (k fuel : nat) (msgs : list Chat.MessageParam) :
  (forall j, (j < k)%nat ->
     create j = Js.Fulfilled (script j) /\ goesOn (script j) = true) ->
  create k = Js.Rejected reason ->
  (k < fuel)%nat ->
  exists sent,
    chat fuel msgs = Some (Js.Rejected reason, sent)
    /\ List.length sent = S k
    /\ hd_error sent = Some msgs.
Proof.
  intros Hon Hrej Hfuel.
  destruct (chatLoop_rejects script reason k 0 fuel 0 msgs "" 0 0 [])
    as (more & Heq & Hlen).
  - intros j Hj. apply Hon. lia.
  - exact Hrej.
  - exact Hfuel.
  - exists (msgs :: more). split; [ exact Heq | ].
    split; [ cbn; now rewrite Hlen | reflexivity ].
Qed.

End ChatFacts.

Lemma chat_accumulates_witness :
  let looking := mkResponse [TextBlock "Let me look. "; ToolUseBlock "t1" "readFile" "a.txt"]
                            "tool_use" 100 20 in
  let final := mkResponse [TextBlock "Done."] "end_turn" 150 5 in
  let script := fun j : nat => if Nat.eqb j 0 then looking else final in
  let tool := fun (_ : nat) (_ _ _ : string) => "{}"%string in
  let msgs := [Chat.mkParam user (Chat.Text "read a.txt")] in
  exists sent,
    Chat.chat (fun j => Js.Fulfilled (script j)) tool "c" 5 msgs
    = Some (Js.Fulfilled (Chat.mkResult "Let me look. Done." 150 25), sent)
    /\ List.length sent = 2%nat.
Proof.
  cbv zeta.
  destruct (chat_accumulates
              (fun j => Js.Fulfilled
                          (if Nat.eqb j 0
                           then mkResponse [TextBlock "Let me look. ";
                                            ToolUseBlock "t1" "readFile" "a.txt"]
                                           "tool_use" 100 20
                           else mkResponse [TextBlock "Done."] "end_turn" 150 5))
              (fun (_ : nat) (_ _ _ : string) => "{}"%string) "c"
              (fun j : nat =>
                 if Nat.eqb j 0
                 then mkResponse [TextBlock "Let me look. ";
                                  ToolUseBlock "t1" "readFile" "a.txt"] "tool_use" 100 20
                 else mkResponse [TextBlock "Done."] "end_turn" 150 5)
              1 5 [Chat.mkParam user (Chat.Text "read a.txt")])
    as (sent & Heq & Hlen & _).
  - intros j _. reflexivity.
  - intros j Hj. assert (j = 0%nat) as -> by lia. reflexivity.
  - reflexivity.
  - lia.
  - exists sent. split; [ exact Heq | exact Hlen ].
Defined.

Lemma chat_rejection_propagates_witness :
  let looking := mkResponse [TextBlock "Let me look. "; ToolUseBlock "t1" "readFile" "a.txt"]
                            "tool_use" 100 20 in
  let overloaded := Js.ErrorObject (Some "prompt is too long") in
  let create := fun j : nat => if Nat.eqb j 0 then Js.Fulfilled looking
                               else Js.Rejected overloaded in
  let tool := fun (_ : nat) (_ _ _ : string) => "{}"%string in
  let msgs := [Chat.mkParam user (Chat.Text "read a.txt")] in
  exists sent,
    Chat.chat create tool "c" 5 msgs = Some (Js.Rejected overloaded, sent)
    /\ List.length sent = 2%nat.
Proof.
  cbv zeta.
  destruct (chat_rejection_propagates
              (fun j : nat =>
                 if Nat.eqb j 0
                 then Js.Fulfilled
                        (mkResponse [TextBlock "Let me look. ";
                                     ToolUseBlock "t1" "readFile" "a.txt"] "tool_use" 100 20)
                 else Js.Rejected (Js.ErrorObject (Some "prompt is too long")))
              (fun (_ : nat) (_ _ _ : string) => "{}"%string) "c"
              (fun _ : nat =>
                 mkResponse [TextBlock "Let me look. ";
                             ToolUseBlock "t1" "readFile" "a.txt"] "tool_use" 100 20)
              (Js.ErrorObject (Some "prompt is too long"))
              1 5 [Chat.mkParam user (Chat.Text "read a.txt")])
    as (sent & Heq & Hlen & _).
  - intros j Hj. assert (j = 0%nat) as -> by lia. split; reflexivity.
  - reflexivity.
  - lia.
  - exists sent. split; [ exact Heq | exact Hlen ].
Defined.

(* ===================================================================== *)
(** * The turn of the other revision of index.ts                          *)
(* ===================================================================== *)

Lemma saveContainerInfo_tables (db : Db) (sessionId containerId uuid : string)
    (createdAt : Z) :
  sessions (Docker.saveContainerInfo db sessionId containerId uuid createdAt) = sessions db
  /\ messages (Docker.saveContainerInfo db sessionId containerId uuid createdAt)
     = messages db.
Proof.
  unfold Docker.saveContainerInfo. destruct (_ =? _)%nat; split; reflexivity.
Qed.

(** [ensureDockerContainer] writes to the container table only. *)
Lemma ensureDockerContainer_tables (host : Docker.Host) (db : Db)
    (sessionId uuid : string) (createdAt : Z) :
  sessions (fst (Docker.ensureDockerContainer host db sessionId uuid createdAt))
  = sessions db
  /\ messages (fst (Docker.ensureDockerContainer host db sessionId uuid createdAt))
     = messages db.
Proof.
  destruct (ensureDockerContainer_cases host db sessionId uuid createdAt)
    as [(cause & -> & _) | (id & ->)]; cbn [fst].
  - split; reflexivity.
  - apply saveContainerInfo_tables.
Qed.

Section LegacyTurn.
Variable create : nat -> Js.Settled Response.
Variable executeTool : nat -> string -> string -> string -> string.
Variable containerCrashed : string -> bool.
Variable hosts : nat -> Docker.Host.
Variable probe : Js.Settled Docker.ExecOutput.
Variable summarize : CreateParams -> Js.Settled Response.
Variable randomUUID : nat -> string.
Variable now : nat -> Z.
Variable currentSessionId : string.

Local Abbreviation saveAndPush := (Legacy.saveAndPush randomUUID now currentSessionId).
Local Abbreviation ensure := (Legacy.ensure hosts randomUUID now currentSessionId).
Local Abbreviation compactIfNeeded :=
  (Legacy.compactIfNeeded summarize randomUUID now currentSessionId).
Local Abbreviation handleBlocks :=
  (Legacy.handleBlocks executeTool containerCrashed hosts randomUUID now currentSessionId).
Local Abbreviation toolLoop :=
  (Legacy.toolLoop create executeTool containerCrashed hosts randomUUID now
                   currentSessionId).
Local Abbreviation turn :=
  (Legacy.turn create executeTool containerCrashed hosts probe summarize randomUUID now
               currentSessionId).

Lemma sameTurns_inSync (a b : Legacy.State) :
  sameTurns a b -> legacyInSync currentSessionId a -> legacyInSync currentSessionId b.
Proof.
  intros [Hm Hdb]. unfold legacyInSync, loadMessages, selectMessages.
  now rewrite Hm, Hdb.
Qed.

Lemma sameTurns_trans (a b c : Legacy.State) :
  sameTurns a b -> sameTurns b c -> sameTurns a c.
Proof. intros [? ?] [? ?]. split; congruence. Qed.

Lemma ensure_sameTurns (st : Legacy.State) : sameTurns st (fst (ensure st)).
Proof.
  unfold Legacy.ensure.
  pose proof (ensureDockerContainer_tables
                (hosts (Legacy.ensures st)) (Legacy.db st) currentSessionId
                (randomUUID (Legacy.drawn st)) (now (Legacy.ticks st))) as [_ Hm].
  destruct (Docker.ensureDockerContainer _ _ _ _ _) as [db' [id | reason]];
    cbn [fst] in *; split; cbn [Legacy.messages Legacy.db]; congruence.
Qed.

Lemma handleBlocks_sameTurns (bs : list ContentBlock) :
  forall (st : Legacy.State) (finalResponse : string) (hasToolUse : bool)
         (toolResults : list Chat.ToolResultBlock) (toolCalls : nat),
    sameTurns st (fst (handleBlocks bs st finalResponse hasToolUse toolResults toolCalls)).
Proof.
  induction bs as [ | [text | id name input] bs IH ];
    intros st finalResponse hasToolUse toolResults toolCalls;
    cbn [Legacy.handleBlocks].
  - split; reflexivity.
  - apply IH.
  - destruct (containerCrashed _); [ | apply IH ].
    pose proof (ensure_sameTurns st) as Hens.
    destruct (ensure st) as [st' [reason | ]]; cbn [fst] in *.
    + exact Hens.
    + eapply sameTurns_trans; [ exact Hens | apply IH ].
Qed.

Lemma toolLoop_sameTurns (fuel : nat) :
  forall (requests toolCalls : nat) (st st' : Legacy.State)
         (currentMessages : list Chat.MessageParam) (finalResponse : string) outcome,
    toolLoop fuel requests toolCalls st currentMessages finalResponse
    = Some (st', outcome) ->
    sameTurns st st'.
Proof.
  induction fuel as [ | fuel IH ];
    intros requests toolCalls st st' currentMessages finalResponse outcome;
    cbn [Legacy.toolLoop]; [ discriminate | ].
  destruct (create requests) as [res | reason].
  - pose proof (handleBlocks_sameTurns (blocks res) st finalResponse false [] toolCalls)
      as Hb.
    destruct (handleBlocks _ _ _ _ _ _) as [st1 [[[[fr h] tr] tc] | reason]];
      cbn [fst] in Hb.
    + destruct (_ || _).
      * intros [= <- _]. exact Hb.
      * intros Hrun. eapply sameTurns_trans; [ exact Hb | ]. eapply IH. exact Hrun.
    + intros [= <- _]. exact Hb.
  - intros [= <- _]. split; reflexivity.
Qed.

Lemma saveAndPush_inSync (st : Legacy.State) (r : Role) (text : string) :
  r <> system ->
  legacyInSync currentSessionId st ->
  legacyInSync currentSessionId (saveAndPush st r text).
Proof.
  unfold legacyInSync. intros Hr Hs. cbn [Legacy.saveAndPush Legacy.db Legacy.messages].
  rewrite loadMessages_saveMessage, filter_app, Hs. cbn [filter].
  destruct r; try contradiction; reflexivity.
Qed.

Lemma compactIfNeeded_inSync (st : Legacy.State) :
  legacyInSync currentSessionId st ->
  legacyInSync currentSessionId (compactIfNeeded st).
Proof.
  intros Hs. unfold Legacy.compactIfNeeded.
  destruct (Heuristic.shouldCompact _); [ | exact Hs ].
  unfold legacyInSync. cbn [Legacy.db Legacy.messages].
  now rewrite loadMessages_saveCompacted.
Qed.

(** X22.  In the other revision of the loop, every turn that ends, ends
    with the in-memory list equal to the stored non-system turns: after an
    answer, after a blank answer, after a failure of the model or of the
    container set-up (the turn "Error: ..." is saved before it is pushed),
    and also when the error leaves [main]. *)
Theorem legacy_turn_keeps_memory_in_sync (fuel : nat) (st : Legacy.State)
    (userInput : string) (ended : Legacy.TurnEnd) :
  legacyInSync currentSessionId st ->
  turn fuel st userInput = Some ended ->
  legacyInSync currentSessionId (endState ended).
Proof.
  intros Hs. unfold Legacy.turn.
  set (st1 := compactIfNeeded (saveAndPush st user userInput)).
  assert (H1 : legacyInSync currentSessionId st1).
  { apply compactIfNeeded_inSync, saveAndPush_inSync; [ discriminate | exact Hs ]. }
  assert (H2 : legacyInSync currentSessionId
                 (fst (if Docker.checkContainerHealth probe
                       then (st1, None) else ensure st1))).
  { destruct (Docker.checkContainerHealth probe); [ exact H1 | ].
    eapply sameTurns_inSync; [ apply ensure_sameTurns | exact H1 ]. }
  destruct (if Docker.checkContainerHealth probe then (st1, None) else ensure st1)
    as [st2 [reason | ]]; cbn [fst] in H2.
  - intros [= <-]. exact H2.
  - destruct (toolLoop fuel 0 0 st2 _ "") as [[st3 outcome] | ] eqn:Hloop;
      [ | discriminate ].
    assert (H3 : legacyInSync currentSessionId st3).
    { eapply sameTurns_inSync; [ eapply toolLoop_sameTurns; exact Hloop | exact H2 ]. }
    destruct outcome as [finalResponse | [ | message]].
    + destruct (Js.truthy _); intros [= <-]; cbn [endState]; [ | exact H3 ].
      apply saveAndPush_inSync; [ discriminate | exact H3 ].
    + intros [= <-]. exact H3.
    + intros [= <-]. cbn [endState].
      apply saveAndPush_inSync; [ discriminate | exact H3 ].
Qed.

(** X23.  In the other revision a failed first request is answered in the
    history: with a healthy container and a first request rejected with an
    error object, the turn ends normally, and what [loadMessages] returns
    afterwards is what it returned before the request plus the turn
    "Error: <message>". *)
Theorem legacy_error_turn_saved (fuel : nat) (st : Legacy.State) (userInput : string)
    (message : option string) :
  Docker.checkContainerHealth probe = true ->
  create 0%nat = Js.Rejected (Js.ErrorObject message) ->
  let before := compactIfNeeded (saveAndPush st user userInput) in
  exists st',
    turn (S fuel) st userInput = Some (Legacy.Completed st')
    /\ loadMessages (Legacy.db st') currentSessionId
       = loadMessages (Legacy.db before) currentSessionId
         ++ [mkCore assistant ("Error: " ++ Js.messageOrUndefined message)%string]
    /\ Legacy.messages st'
       = Legacy.messages before
         ++ [mkCore assistant ("Error: " ++ Js.messageOrUndefined message)%string].
Proof.
  intros Hhealth Hrej before. unfold Legacy.turn. fold before. rewrite Hhealth.
  cbn [Legacy.toolLoop]. rewrite Hrej.
  eexists. split; [ reflexivity | ].
  cbn [Legacy.saveAndPush Legacy.db Legacy.messages].
  split; [ apply loadMessages_saveMessage | reflexivity ].
Qed.

End LegacyTurn.

Lemma legacy_turn_keeps_memory_in_sync_witness :
  let uuid := fun n => ("uuid-" ++ Js.showNat n)%string in
  let clock := fun n => Z.of_nat n in
  let down := {| Docker.psAll := Js.Rejected Js.Nullish;
                 Docker.start := fun _ => Js.Rejected Js.Nullish;
                 Docker.runNew := Js.Rejected Js.Nullish;
                 Docker.removeStale := Js.Rejected Js.Nullish;
                 Docker.runAgain := Js.Rejected Js.Nullish |} in
  let healthy := Js.Fulfilled (Docker.mkOutput "abc123" "") in
  let create := fun _ : nat =>
                  @Js.Rejected Response (Js.ErrorObject (Some "rate limit reached")) in
  let st := {| Legacy.db := fst (getOrCreateSession initDb None "s" 0 0);
               Legacy.messages := [];
               Legacy.containerId := "abc123";
               Legacy.drawn := 0; Legacy.ticks := 0; Legacy.ensures := 0 |} in
  legacyInSync "s" st
  /\ exists ended,
       Legacy.turn create (fun _ _ _ _ => "{}"%string) (fun _ => false) (fun _ => down)
                   healthy (fun _ => Js.Rejected Js.Nullish) uuid clock "s" 3 st "hi"
       = Some ended
       /\ legacyInSync "s" (endState ended)
       /\ loadMessages (Legacy.db (endState ended)) "s"
          = [mkCore user "hi"; mkCore assistant "Error: rate limit reached"].
Proof.
  cbv zeta. split; [ reflexivity | ].
  eexists. split; [ vm_compute; reflexivity | ].
  split; [ | reflexivity ].
  eapply (legacy_turn_keeps_memory_in_sync
            (fun _ : nat => @Js.Rejected Response (Js.ErrorObject (Some "rate limit reached")))
            (fun _ _ _ _ => "{}"%string) (fun _ => false)
            (fun _ => {| Docker.psAll := Js.Rejected Js.Nullish;
                         Docker.start := fun _ => Js.Rejected Js.Nullish;
                         Docker.runNew := Js.Rejected Js.Nullish;
                         Docker.removeStale := Js.Rejected Js.Nullish;
                         Docker.runAgain := Js.Rejected Js.Nullish |})
            (Js.Fulfilled (Docker.mkOutput "abc123" ""))
            (fun _ => Js.Rejected Js.Nullish)
            (fun n => ("uuid-" ++ Js.showNat n)%string) (fun n => Z.of_nat n) "s" 3
            {| Legacy.db := fst (getOrCreateSession initDb None "s" 0 0);
               Legacy.messages := [];
               Legacy.containerId := "abc123";
               Legacy.drawn := 0; Legacy.ticks := 0; Legacy.ensures := 0 |} "hi").
  - reflexivity.
  - vm_compute. reflexivity.
Defined.

Lemma legacy_error_turn_saved_witness :
  let uuid := fun n => ("uuid-" ++ Js.showNat n)%string in
  let clock := fun n => Z.of_nat n in
  let down := {| Docker.psAll := Js.Rejected Js.Nullish;
                 Docker.start := fun _ => Js.Rejected Js.Nullish;
                 Docker.runNew := Js.Rejected Js.Nullish;
                 Docker.removeStale := Js.Rejected Js.Nullish;
                 Docker.runAgain := Js.Rejected Js.Nullish |} in
  let healthy := Js.Fulfilled (Docker.mkOutput "abc123" "") in
  let create := fun _ : nat =>
                  @Js.Rejected Response (Js.ErrorObject (Some "rate limit reached")) in
  let st := {| Legacy.db := fst (getOrCreateSession initDb None "s" 0 0);
               Legacy.messages := [];
               Legacy.containerId := "abc123";
               Legacy.drawn := 0; Legacy.ticks := 0; Legacy.ensures := 0 |} in
  exists st',
    Legacy.turn create (fun _ _ _ _ => "{}"%string) (fun _ => false) (fun _ => down)
                healthy (fun _ => Js.Rejected Js.Nullish) uuid clock "s" 1 st "hi"
    = Some (Legacy.Completed st')
    /\ Legacy.messages st'
       = [mkCore user "hi"; mkCore assistant "Error: rate limit reached"].
Proof.
  cbv zeta.
  destruct (legacy_error_turn_saved
              (fun _ : nat => @Js.Rejected Response (Js.ErrorObject (Some "rate limit reached")))
              (fun _ _ _ _ => "{}"%string) (fun _ => false)
              (fun _ => {| Docker.psAll := Js.Rejected Js.Nullish;
                           Docker.start := fun _ => Js.Rejected Js.Nullish;
                           Docker.runNew := Js.Rejected Js.Nullish;
                           Docker.removeStale := Js.Rejected Js.Nullish;
                           Docker.runAgain := Js.Rejected Js.Nullish |})
              (Js.Fulfilled (Docker.mkOutput "abc123" ""))
              (fun _ => Js.Rejected Js.Nullish)
              (fun n => ("uuid-" ++ Js.showNat n)%string) (fun n => Z.of_nat n) "s" 0
              {| Legacy.db := fst (getOrCreateSession initDb None "s" 0 0);
                 Legacy.messages := [];
                 Legacy.containerId := "abc123";
                 Legacy.drawn := 0; Legacy.ticks := 0; Legacy.ensures := 0 |} "hi"
              (Some "rate limit reached"%string) eq_refl eq_refl)
    as (st' & Hrun & _ & Hmsgs).
  exists st'. split; [ exact Hrun | ]. rewrite Hmsgs. reflexivity.
Defined.

(* ===================================================================== *)
(** * Reading the [docker ps] line                                        *)
(* ===================================================================== *)

Lemma splitOn_nonempty (sep : ascii) (s : string) : Js.splitOn sep s <> [].
Proof.
  destruct s as [ | c s ]; cbn [Js.splitOn]; [ discriminate | ].
  destruct (Ascii.eqb c sep); [ discriminate | ].
  destruct (Js.splitOn sep s); discriminate.
Qed.

(** Joining the pieces of a split gives the string back. *)
Lemma join_splitOn (sep : ascii) (s : string) :
  Js.join (String sep "") (Js.splitOn sep s) = s.
Proof.
  induction s as [ | c s IH ]; [ reflexivity | ].
  cbn [Js.splitOn]. destruct (Ascii.eqb_spec c sep) as [-> | Hne].
  - pose proof (splitOn_nonempty sep s) as Hn.
    destruct (Js.splitOn sep s) as [ | p rest ]; [ contradiction | ].
    change (Js.join (String sep "") ("" :: p :: rest))
      with ("" ++ String sep "" ++ Js.join (String sep "") (p :: rest))%string.
    rewrite IH. reflexivity.
  - pose proof (splitOn_nonempty sep s) as Hn.
    destruct (Js.splitOn sep s) as [ | p rest ]; [ contradiction | ].
    destruct rest as [ | q rest ].
    + cbn [Js.join] in *. now rewrite IH.
    + change (Js.join (String sep "") (String c p :: q :: rest))
        with (String c (p ++ String sep "" ++ Js.join (String sep "") (q :: rest)))%string.
      change (Js.join (String sep "") (p :: q :: rest))
        with (p ++ String sep "" ++ Js.join (String sep "") (q :: rest))%string in IH.
      now rewrite IH.
Qed.

(** A first field without the separator is the first piece of the split. *)
Lemma splitOn_first_field (sep : ascii) (field rest : string) :
  (forall pre post, field <> (pre ++ String sep post)%string) ->
  Js.splitOn sep (field ++ String sep rest) = field :: Js.splitOn sep rest.
Proof.
  induction field as [ | c field IH ]; intros Hfree.
  - cbn [append Js.splitOn]. now rewrite Ascii.eqb_refl.
  - change (Js.splitOn sep (String c field ++ String sep rest))
      with (if Ascii.eqb c sep then EmptyString :: Js.splitOn sep (field ++ String sep rest)
            else match Js.splitOn sep (field ++ String sep rest) with
                 | [] => [String c EmptyString]
                 | piece :: others => String c piece :: others
                 end).
    destruct (Ascii.eqb_spec c sep) as [-> | Hne].
    + exfalso. apply (Hfree ""%string field). reflexivity.
    + rewrite IH; [ reflexivity | ].
      intros pre post E. apply (Hfree (String c pre) post). cbn. now rewrite E.
Qed.

(** X24.  A [docker ps] line "<id> <status>" (after trimming, with no
    space inside the id) is read back as exactly that id and that status.
    If the status contains "Up" the id is returned at once; otherwise the
    container is started and, if that works, the id is returned; in both
    cases no container is created and the id is what [saveContainerInfo]
    gets. *)
Theorem ps_line_is_read_back (host : Docker.Host) (db : Db)
    (sessionId uuid : string) (createdAt : Z)
    (out : Docker.ExecOutput) (id status : string) :
  Docker.psAll host = Js.Fulfilled out ->
  Js.trim (Docker.stdout out) = (id ++ " " ++ status)%string ->
  (forall pre post, id <> (pre ++ " " ++ post)%string) ->
  Js.splitOn " " (Js.trim (Docker.stdout out)) = id :: Js.splitOn " " status
  /\ Js.join " " (Js.splitOn " " status) = status
  /\ (Js.includes status "Up" = true ->
      Docker.ensureDockerContainer host db sessionId uuid createdAt
      = (Docker.saveContainerInfo db sessionId id uuid createdAt, Js.Fulfilled id))
  /\ (Js.includes status "Up" = false ->
      forall started, Docker.start host id = Js.Fulfilled started ->
      Docker.ensureDockerContainer host db sessionId uuid createdAt
      = (Docker.saveContainerInfo db sessionId id uuid createdAt, Js.Fulfilled id)).
Proof.
  intros Hps Hline Hfree.
  assert (Hsplit : Js.splitOn " " (Js.trim (Docker.stdout out))
                   = id :: Js.splitOn " " status).
  { rewrite Hline. change (id ++ " " ++ status)%string with (id ++ String " " status)%string.
    apply splitOn_first_field. exact Hfree. }
  assert (Hjoin : Js.join " " (Js.splitOn " " status) = status)
    by apply join_splitOn.
  assert (Htruthy : Js.truthy (Js.trim (Docker.stdout out)) = true).
  { rewrite Hline. destruct id; reflexivity. }
  split; [ exact Hsplit | ]. split; [ exact Hjoin | ].
  split.
  - intros Hup. unfold Docker.ensureDockerContainer.
    rewrite Hps, Htruthy, Hsplit, Hjoin, Hup. reflexivity.
  - intros Hdown started Hstart. unfold Docker.ensureDockerContainer.
    rewrite Hps, Htruthy, Hsplit, Hjoin, Hdown, Hstart. reflexivity.
Qed.

Lemma ps_line_is_read_back_witness :
  let host := {| Docker.psAll :=
                   Js.Fulfilled (Docker.mkOutput ("abc123 Exited (0) 2 hours ago" ++ Js.LF) "");
                 Docker.start := fun _ => Js.Fulfilled (Docker.mkOutput "abc123" "");
                 Docker.runNew := Js.Rejected Js.Nullish;
                 Docker.removeStale := Js.Rejected Js.Nullish;
                 Docker.runAgain := Js.Rejected Js.Nullish |} in
  Docker.ensureDockerContainer host initDb "s" "row0" 1
  = (Docker.saveContainerInfo initDb "s" "abc123" "row0" 1, Js.Fulfilled "abc123"%string).
Proof.
  cbv zeta.
  destruct (ps_line_is_read_back
              {| Docker.psAll :=
                   Js.Fulfilled (Docker.mkOutput ("abc123 Exited (0) 2 hours ago" ++ Js.LF) "");
                 Docker.start := fun _ => Js.Fulfilled (Docker.mkOutput "abc123" "");
                 Docker.runNew := Js.Rejected Js.Nullish;
                 Docker.removeStale := Js.Rejected Js.Nullish;
                 Docker.runAgain := Js.Rejected Js.Nullish |}
              initDb "s" "row0" 1
              (Docker.mkOutput ("abc123 Exited (0) 2 hours ago" ++ Js.LF) "")
              "abc123" "Exited (0) 2 hours ago" eq_refl eq_refl)
    as (_ & _ & _ & Hdown).
  - intros pre post E.
    assert (H : Js.includes "abc123" " " = true).
    { apply includes_spec. exists pre, post. exact E. }
    discriminate H.
  - apply (Hdown eq_refl (Docker.mkOutput "abc123" "") eq_refl).
Defined.

(* ===================================================================== *)
(** * Running a command in the container                                  *)
(* ===================================================================== *)

Lemma trimStart_no_lead (s : string) :
  match Js.trimStart s with
  | EmptyString => True
  | String c _ => Js.isSpace c = false
  end.
Proof.
  induction s as [ | c s IH ]; [ exact I | ].
  cbn [Js.trimStart]. destruct (Js.isSpace c) eqn:E; [ exact IH | exact E ].
Qed.

Lemma trimEnd_keeps_lead (s : string) :
  match s with
  | EmptyString => True
  | String c _ => Js.isSpace c = false
  end ->
  match Js.trimEnd s with
  | EmptyString => s = EmptyString
  | String c _ => Js.isSpace c = false
  end.
Proof.
  destruct s as [ | c s ]; [ reflexivity | ].
  intros Hc. cbn [Js.trimEnd]. destruct (Js.trimEnd s); [ | exact Hc ].
  rewrite Hc. exact Hc.
Qed.

Lemma trimStart_fixed (s : string) :
  match s with
  | EmptyString => True
  | String c _ => Js.isSpace c = false
  end ->
  Js.trimStart s = s.
Proof.
  destruct s as [ | c s ]; [ reflexivity | ].
  intros Hc. cbn [Js.trimStart]. now rewrite Hc.
Qed.

Lemma trimEnd_idempotent (s : string) : Js.trimEnd (Js.trimEnd s) = Js.trimEnd s.
Proof.
  induction s as [ | c s IH ]; [ reflexivity | ].
  cbn [Js.trimEnd]. destruct (Js.trimEnd s) as [ | d r ] eqn:E.
  - destruct (Js.isSpace c) eqn:Hc; [ reflexivity | ].
    cbn [Js.trimEnd]. now rewrite Hc.
  - cbn [Js.trimEnd]. cbn [Js.trimEnd] in IH. rewrite IH. reflexivity.
Qed.

(** Trimming twice is trimming once. *)
Lemma trim_idempotent (s : string) : Js.trim (Js.trim s) = Js.trim s.
Proof.
  unfold Js.trim.
  pose proof (trimEnd_keeps_lead (Js.trimStart s) (trimStart_no_lead s)) as H.
  rewrite trimStart_fixed.
  - apply trimEnd_idempotent.
  - destruct (Js.trimEnd (Js.trimStart s)); [ exact I | exact H ].
Qed.

Lemma isSpace_spec (c : ascii) : Js.isSpace c = true <-> whiteSpace c.
Proof.
  unfold Js.isSpace, whiteSpace. cbv zeta. cbn [In].
  destruct (Nat.leb_spec 9 (nat_of_ascii c)), (Nat.leb_spec (nat_of_ascii c) 13),
           (Nat.eqb_spec (nat_of_ascii c) 32);
    cbn [andb orb]; split; intros Hc; try reflexivity; try discriminate; lia.
Qed.

Lemma isSpace_false (c : ascii) : Js.isSpace c = false -> ~ whiteSpace c.
Proof.
  intros H Hw. apply isSpace_spec in Hw. congruence.
Qed.

Lemma trimStart_split (s : string) :
  exists pre, s = (pre ++ Js.trimStart s)%string /\ allWhite pre.
Proof.
  induction s as [ | c s (pre & E & Hpre) ].
  - exists EmptyString. split; [ reflexivity | exact I ].
  - cbn [Js.trimStart]. destruct (Js.isSpace c) eqn:Hc.
    + exists (String c pre). cbn [append allWhite]. rewrite <- E.
      split; [ reflexivity | ]. split; [ now apply isSpace_spec | exact Hpre ].
    + exists EmptyString. split; [ reflexivity | exact I ].
Qed.

Lemma trimEnd_split (s : string) :
  exists post, s = (Js.trimEnd s ++ post)%string /\ allWhite post.
Proof.
  induction s as [ | c s (post & E & Hpost) ].
  - exists EmptyString. split; [ reflexivity | exact I ].
  - cbn [Js.trimEnd]. destruct (Js.trimEnd s) as [ | d r ].
    + cbn [append] in E. subst post. destruct (Js.isSpace c) eqn:Hc.
      * exists (String c s). split; [ reflexivity | ].
        split; [ now apply isSpace_spec | exact Hpost ].
      * exists s. split; [ reflexivity | exact Hpost ].
    + exists post. cbn [append]. cbn [append] in E. rewrite <- E.
      split; [ reflexivity | exact Hpost ].
Qed.

Lemma append_last_nonempty (front : string) (c : ascii) :
  (front ++ String c EmptyString)%string <> EmptyString.
Proof.
  destruct front; discriminate.
Qed.

Lemma trimEnd_no_trail (s front : string) (c : ascii) :
  Js.trimEnd s = (front ++ String c EmptyString)%string -> Js.isSpace c = false.
Proof.
  revert front. induction s as [ | a s IH ]; intros front.
  - cbn [Js.trimEnd]. intros H. symmetry in H. now apply append_last_nonempty in H.
  - cbn [Js.trimEnd]. destruct (Js.trimEnd s) as [ | d r ].
    + destruct (Js.isSpace a) eqn:Ha.
      * intros H. symmetry in H. now apply append_last_nonempty in H.
      * destruct front as [ | f front ]; cbn [append].
        -- intros [= <-]. exact Ha.
        -- intros [= _ H]. symmetry in H. now apply append_last_nonempty in H.
    + destruct front as [ | f front ]; cbn [append].
      * intros H. discriminate H.
      * intros [= _ H]. exact (IH front H).
Qed.

(** [trim] cuts off white space only, and all of it at both ends. *)
Lemma trim_spec (s : string) : trimmedOf s (Js.trim s).
Proof.
  unfold trimmedOf, Js.trim. split; [ | split ].
  - destruct (trimStart_split s) as (pre & E & Hpre).
    destruct (trimEnd_split (Js.trimStart s)) as (post & E' & Hpost).
    exists pre, post. split; [ | split; assumption ].
    rewrite <- E'. exact E.
  - intros c rest E.
    pose proof (trimEnd_keeps_lead (Js.trimStart s) (trimStart_no_lead s)) as H.
    rewrite E in H. now apply isSpace_false.
  - intros front c E. apply isSpace_false.
    exact (trimEnd_no_trail _ _ _ E).
Qed.

Lemma trim_allWhite (s : string) : allWhite s -> Js.trim s = EmptyString.
Proof.
  intros H. unfold Js.trim.
  assert (E : Js.trimStart s = EmptyString).
  { induction s as [ | c s IH ]; [ reflexivity | ].
    destruct H as [Hc Hs]. cbn [Js.trimStart].
    apply isSpace_spec in Hc. rewrite Hc. exact (IH Hs). }
  now rewrite E.
Qed.

(** X25.  When the command ran, [execInContainer] returns its output with
    the white space at both ends cut off, and nothing else: on output
    whose characters are all ASCII, [stdout] and [stderr] of the result
    are those of the command less a prefix and a suffix of white space,
    and neither starts nor ends with white space.  When the command failed
    it throws only if the probe command failed too, and then always
    "Container crashed or was removed"; if the probe ran, the failure
    comes back as empty [stdout] and the error message as [stderr], even
    when the probe listed no container at all, the case in which
    [checkContainerHealth] reports the container as unhealthy. *)
Theorem exec_in_container_outcomes (ran : Docker.ExecOutput + string)
    (probe : Js.Settled Docker.ExecOutput) :
  (forall out, ran = inl out ->
     asciiOnly (Docker.stdout out) -> asciiOnly (Docker.stderr out) ->
     exists result,
       Docker.execInContainer ran probe = Js.Fulfilled result
       /\ result = Docker.mkOutput (Js.trim (Docker.stdout out))
                                   (Js.trim (Docker.stderr out))
       /\ trimmedOf (Docker.stdout out) (Docker.stdout result)
       /\ trimmedOf (Docker.stderr out) (Docker.stderr result))
  /\ (forall reason,
        Docker.execInContainer ran probe = Js.Rejected reason ->
        reason = Js.ErrorObject (Some "Container crashed or was removed")
        /\ (exists message, ran = inr message)
        /\ (exists e, probe = Js.Rejected e))
  /\ (forall message listed,
        ran = inr message -> probe = Js.Fulfilled listed ->
        Docker.execInContainer ran probe
        = Js.Fulfilled (Docker.mkOutput "" message))
  /\ (forall message listed,
        ran = inr message -> probe = Js.Fulfilled listed ->
        allWhite (Docker.stdout listed) ->
        Docker.checkContainerHealth probe = false
        /\ Docker.execInContainer ran probe
           = Js.Fulfilled (Docker.mkOutput "" message)).
Proof.
  split; [ | split; [ | split ] ].
  - intros out -> _ _. eexists. split; [ reflexivity | ].
    split; [ reflexivity | ].
    cbn [Docker.stdout Docker.stderr]. split; apply trim_spec.
  - intros reason H. destruct ran as [out | message]; [ discriminate | ].
    destruct probe as [listed | e]; [ discriminate | ].
    injection H as <-. split; [ reflexivity | ]. split; eauto.
  - intros message listed -> ->. reflexivity.
  - intros message listed -> -> Hblank. split; [ | reflexivity ].
    cbn [Docker.checkContainerHealth]. now rewrite (trim_allWhite _ Hblank).
Qed.

Lemma exec_in_container_outcomes_witness :
  let gone := Js.Fulfilled (Docker.mkOutput "" "") in
  let out := Docker.mkOutput ("  ok" ++ Js.LF) "" in
  Docker.checkContainerHealth gone = false
  /\ Docker.execInContainer (inr "No such container: abc123"%string) gone
     = Js.Fulfilled (Docker.mkOutput "" "No such container: abc123")
  /\ asciiOnly (Docker.stdout out)
  /\ asciiOnly (Docker.stderr out)
  /\ exists result,
       Docker.execInContainer (inl out) gone = Js.Fulfilled result
       /\ result = Docker.mkOutput "ok" ""
       /\ trimmedOf (Docker.stdout out) (Docker.stdout result).
Proof.
  cbv zeta.
  destruct (exec_in_container_outcomes
              (inr "No such container: abc123"%string)
              (Js.Fulfilled (Docker.mkOutput "" ""))) as (_ & _ & Hmsg & Hgone).
  destruct (Hgone "No such container: abc123"%string (Docker.mkOutput "" "")
                  eq_refl eq_refl I) as [Hhealth _].
  split; [ exact Hhealth | ].
  split; [ exact (Hmsg _ _ eq_refl eq_refl) | ].
  assert (Hout : asciiOnly (Docker.stdout (Docker.mkOutput ("  ok" ++ Js.LF) ""))).
  { cbn. repeat split; lia. }
  assert (Herr : asciiOnly (Docker.stderr (Docker.mkOutput ("  ok" ++ Js.LF) "")))
    by exact I.
  split; [ exact Hout | ]. split; [ exact Herr | ].
  destruct (exec_in_container_outcomes
              (inl (Docker.mkOutput ("  ok" ++ Js.LF) ""))
              (Js.Fulfilled (Docker.mkOutput "" ""))) as (Hran & _).
  destruct (Hran (Docker.mkOutput ("  ok" ++ Js.LF) "") eq_refl Hout Herr)
    as (result & Hres & Heq & Hstdout & _).
  exists result. split; [ exact Hres | ]. split; [ exact Heq | exact Hstdout ].
Defined.
